(** * Pull-request comment bots: transport, pagination, resolution,
      formatting and comment reconciliation

    A shallow embedding of the three scripts of the repository

    - [.github/scripts/post_pr_summar.py]   (module [PostPrSummary]),
    - [.github/scripts/comment_on_push.py]  (module [CommentOnPush]),
    - [.github/workflows/comment_on_push.py] (module [WorkflowCommentOnPush]),

    followed by the properties their specification states about them.

    Conventions of the embedding.
    - Python [int] is [Z]; counters that drive a loop are [nat].
    - Python [str] is [string], the UTF-8 bytes of the text; [Py.chars]
      cuts them into characters, and the character classes of [str.split],
      [str.splitlines], [str.isdigit] and [int] are those of the Unicode
      character database 14.0 (CPython 3.11).
    - A JSON object is a record with one [field] per key the code reads:
      the key can be missing, hold [null], or hold a value.
    - Network calls are explicit: an attempt of [urlopen] is answered by an
      oracle, a page request by a function of the page number, and the
      comment store of the forge is a state that is passed along.
    - A [while True] loop takes a fuel argument; running out of it is the
      result [Diverged], which no Python run returns. *)

From Stdlib Require Import ZArith List String Ascii Bool Lia Arith.
From Stdlib Require Import DecimalString Sorted Permutation OrderedTypeEx.
Import ListNotations.

Open Scope string_scope.
Open Scope Z_scope.

(* ================================================================== *)
(** * Python values and builtins used by the scripts *)
(* ================================================================== *)

Module Py.

(** A key of a JSON object, as [dict.get] sees it. *)
Inductive field (A : Type) : Type :=
| Missing : field A
| Null : field A
| Val : A -> field A.
Arguments Missing {A}.
Arguments Null {A}.
Arguments Val {A} _.

(** [d.get(key, default)]: the default replaces a missing key only; a
    [null] comes back as Python's [None], here [None]. *)
Definition get {A : Type} (f : field A) (default : A) : option A :=
  match f with
  | Missing => Some default
  | Null => None
  | Val a => Some a
  end.

(** [x or d] on a string-or-None: [None] and the empty string are falsy. *)
Definition or_str (x : option string) (d : string) : string :=
  match x with
  | Some s => if String.eqb s "" then d else s
  | None => d
  end.

(** [x or 0] on an int-or-None. *)
Definition or_int (x : option Z) (d : Z) : Z :=
  match x with
  | Some z => if z =? 0 then d else z
  | None => d
  end.

(** [str(n)] for an [int]. *)
Definition str_of_int (z : Z) : string :=
  NilZero.string_of_int (Z.to_int z).

(** What an f-string prints for a string-or-None and for an int-or-None. *)
Definition fmt_str (x : option string) : string :=
  match x with Some s => s | None => "None" end.

Definition fmt_int (x : option Z) : string :=
  match x with Some z => str_of_int z | None => "None" end.

Definition nl : string := String (ascii_of_nat 10) EmptyString.

(** ["\n".join(lines)]. *)
Definition join_lines (lines : list string) : string :=
  String.concat nl lines.

(** [s.startswith(p)]. *)
Definition startswith (s p : string) : bool := String.prefix p s.

(** [sub in s]. *)
Fixpoint contains (sub s : string) : bool :=
  if String.prefix sub s then true
  else match s with
       | EmptyString => false
       | String _ rest => contains sub rest
       end.

(** ** Characters

    A [str] is carried as the UTF-8 bytes of its code points (a lone
    surrogate, which JSON text and the environment can hold, as the three
    bytes of its code point).  A byte that is no continuation byte opens
    a character, and the continuation bytes after it belong to it. *)
Definition is_continuation (b : ascii) : bool :=
  let n := N_of_ascii b in (128 <=? n)%N && (n <? 192)%N.

Definition continues (g : string) : bool :=
  match g with
  | EmptyString => false
  | String b _ => is_continuation b
  end.

(** The characters of [s], in order. *)
Fixpoint chars (s : string) : list string :=
  match s with
  | EmptyString => []
  | String b rest =>
      match chars rest with
      | g :: gs =>
          if continues g then String b g :: gs
          else String b EmptyString :: g :: gs
      | [] => [String b EmptyString]
      end
  end.

(** ["".join(cs)]. *)
Definition join (cs : list string) : string := String.concat "" cs.

(** [s[:n]]: the first [n] characters. *)
Definition take (n : nat) (s : string) : string :=
  join (List.firstn n (chars s)).

Fixpoint all_continuation (g : string) : bool :=
  match g with
  | EmptyString => true
  | String b rest => is_continuation b && all_continuation rest
  end.

Fixpoint payload (acc : N) (g : string) : N :=
  match g with
  | EmptyString => acc
  | String b rest => payload (64 * acc + N_of_ascii b mod 64)%N rest
  end.

(** The code point of a character; [None] for bytes that are the encoding
    of no code point, which no [str] holds. *)
Definition code_point (c : string) : option N :=
  match c with
  | EmptyString => None
  | String b rest =>
      let n := N_of_ascii b in
      let k := String.length rest in
      if negb (all_continuation rest) then None
      else if (n <? 128)%N then
        if Nat.eqb k 0 then Some n else None
      else if (n <? 192)%N then None
      else if (n <? 224)%N then
        let v := payload (n mod 32)%N rest in
        if Nat.eqb k 1 && (128 <=? v)%N then Some v else None
      else if (n <? 240)%N then
        let v := payload (n mod 16)%N rest in
        if Nat.eqb k 2 && (2048 <=? v)%N then Some v else None
      else if (n <? 248)%N then
        let v := payload (n mod 8)%N rest in
        if Nat.eqb k 3 && (65536 <=? v)%N && (v <? 1114112)%N
        then Some v else None
      else None
  end.

(** ** Character classes

    The classes are those of the Unicode character database 14.0, which
    CPython 3.11 carries; a class is the list of its ranges of code
    points, both ends included. *)
Definition in_ranges (table : list (N * N)) (n : N) : bool :=
  List.existsb (fun r => (fst r <=? n)%N && (n <=? snd r)%N) table.

Definition in_class (table : list (N * N)) (c : string) : bool :=
  match code_point c with
  | Some n => in_ranges table n
  | None => false
  end.

(** Whitespace of [str.split()] and [str.isspace()]: TAB, LF, VT, FF, CR,
    FS, GS, RS, US, space, NEL, NBSP and the space separators. *)
Definition whitespace : list (N * N) :=
  [(9, 13); (28, 32); (133, 133); (160, 160); (5760, 5760); (8192, 8202);
   (8232, 8233); (8239, 8239); (8287, 8287); (12288, 12288)]%N.

Definition is_space (c : string) : bool := in_class whitespace c.

(** Line boundaries of [str.splitlines()]: LF, VT, FF, CR, FS, GS, RS,
    NEL, LINE SEPARATOR and PARAGRAPH SEPARATOR. *)
Definition line_boundaries : list (N * N) :=
  [(10, 13); (28, 30); (133, 133); (8232, 8233)]%N.

Definition is_linebreak (c : string) : bool := in_class line_boundaries c.

(** The characters of [str.isdigit()]: the decimal digits of every script
    and the digits that are not decimal (superscripts, circled
    digits, ...). *)
Definition digits : list (N * N) :=
  [(48, 57); (178, 179); (185, 185); (1632, 1641); (1776, 1785);
   (1984, 1993); (2406, 2415); (2534, 2543); (2662, 2671); (2790, 2799);
   (2918, 2927); (3046, 3055); (3174, 3183); (3302, 3311); (3430, 3439);
   (3558, 3567); (3664, 3673); (3792, 3801); (3872, 3881); (4160, 4169);
   (4240, 4249); (4969, 4977); (6112, 6121); (6160, 6169); (6470, 6479);
   (6608, 6618); (6784, 6793); (6800, 6809); (6992, 7001); (7088, 7097);
   (7232, 7241); (7248, 7257); (8304, 8304); (8308, 8313); (8320, 8329);
   (9312, 9320); (9332, 9340); (9352, 9360); (9450, 9450); (9461, 9469);
   (9471, 9471); (10102, 10110); (10112, 10120); (10122, 10130);
   (42528, 42537); (43216, 43225); (43264, 43273); (43472, 43481);
   (43504, 43513); (43600, 43609); (44016, 44025); (65296, 65305);
   (66720, 66729); (68160, 68163); (68912, 68921); (69216, 69224);
   (69714, 69722); (69734, 69743); (69872, 69881); (69942, 69951);
   (70096, 70105); (70384, 70393); (70736, 70745); (70864, 70873);
   (71248, 71257); (71360, 71369); (71472, 71481); (71904, 71913);
   (72016, 72025); (72784, 72793); (73040, 73049); (73120, 73129);
   (92768, 92777); (92864, 92873); (93008, 93017); (120782, 120831);
   (123200, 123209); (123632, 123641); (125264, 125273); (127232, 127242);
   (130032, 130041)]%N.

Definition is_digit (c : string) : bool := in_class digits c.

(** The decimal digits, which [int] reads: each range is made of runs of
    ten characters that stand for 0 to 9. *)
Definition decimals : list (N * N) :=
  [(48, 57); (1632, 1641); (1776, 1785); (1984, 1993); (2406, 2415);
   (2534, 2543); (2662, 2671); (2790, 2799); (2918, 2927); (3046, 3055);
   (3174, 3183); (3302, 3311); (3430, 3439); (3558, 3567); (3664, 3673);
   (3792, 3801); (3872, 3881); (4160, 4169); (4240, 4249); (6112, 6121);
   (6160, 6169); (6470, 6479); (6608, 6617); (6784, 6793); (6800, 6809);
   (6992, 7001); (7088, 7097); (7232, 7241); (7248, 7257); (42528, 42537);
   (43216, 43225); (43264, 43273); (43472, 43481); (43504, 43513);
   (43600, 43609); (44016, 44025); (65296, 65305); (66720, 66729);
   (68912, 68921); (69734, 69743); (69872, 69881); (69942, 69951);
   (70096, 70105); (70384, 70393); (70736, 70745); (70864, 70873);
   (71248, 71257); (71360, 71369); (71472, 71481); (71904, 71913);
   (72016, 72025); (72784, 72793); (73040, 73049); (73120, 73129);
   (92768, 92777); (92864, 92873); (93008, 93017); (120782, 120831);
   (123200, 123209); (123632, 123641); (125264, 125273); (130032, 130041)]%N.

Definition decimal_value (n : N) : option N :=
  match List.find (fun r => (fst r <=? n)%N && (n <=? snd r)%N) decimals with
  | Some r => Some ((n - fst r) mod 10)%N
  | None => None
  end.

(** [s.isdigit()]: every character is a digit, and there is one at
    least. *)
Definition isdigit (s : string) : bool :=
  match chars s with
  | [] => false
  | cs => List.forallb is_digit cs
  end.

(** [s.split()]: maximal runs of characters that are no whitespace.
    [cur] holds the characters of the token being read, last one first. *)
Definition flush (cur : list string) (acc : list string) : list string :=
  match cur with
  | [] => acc
  | _ => join (List.rev cur) :: acc
  end.

Fixpoint tokens (cs : list string) (cur : list string) : list string :=
  match cs with
  | [] => flush cur []
  | c :: rest =>
      if is_space c then flush cur (tokens rest [])
      else tokens rest (c :: cur)
  end.

Definition split (s : string) : list string := tokens (chars s) [].

(** [s.replace("\n", " ")]. *)
Fixpoint replace_nl_by_space (s : string) : string :=
  match s with
  | EmptyString => EmptyString
  | String c rest =>
      String (if Ascii.eqb c (ascii_of_nat 10) then " "%char else c)
             (replace_nl_by_space rest)
  end.

(** [s.splitlines()[0]] for a non-empty [s]: the characters before the
    first line boundary. *)
Fixpoint before_break (cs : list string) : list string :=
  match cs with
  | [] => []
  | c :: rest => if is_linebreak c then [] else c :: before_break rest
  end.

Definition first_line (s : string) : string :=
  join (before_break (chars s)).

(** [next((p for p in l if test(p)), None)]. *)
Definition next {A : Type} (test : A -> bool) (l : list A) : option A :=
  List.find test l.

(** [int(s)].  The text is first brought to ASCII: a character below
    127 stands for itself, any other whitespace character for a space, any
    other decimal digit for the ASCII digit of its value, and anything
    else for a "?", which no number holds.  The whitespace of C ([isspace]:
    space, TAB, LF, VT, FF, CR) is then stripped at both ends, one sign is
    allowed, and the digits may be grouped by single underscores.  A text
    of more than 4300 digits is refused ([sys.get_int_max_str_digits()]).
    [None] stands for [ValueError]. *)
Definition ascii_image (c : string) : ascii :=
  match code_point c with
  | Some n =>
      if (n <? 127)%N then ascii_of_N n
      else if in_ranges whitespace n then " "%char
      else match decimal_value n with
           | Some d => ascii_of_N (48 + d)
           | None => "?"%char
           end
  | None => "?"%char
  end.

Definition to_ascii (s : string) : string :=
  string_of_list_ascii (List.map ascii_image (chars s)).

Definition is_c_space (b : ascii) : bool :=
  let n := nat_of_ascii b in
  Nat.eqb n 32 || ((9 <=? n)%nat && (n <=? 13)%nat).

Fixpoint lstrip (s : string) : string :=
  match s with
  | EmptyString => EmptyString
  | String c rest => if is_c_space c then lstrip rest else s
  end.

Definition strip (s : string) : string :=
  let r := list_ascii_of_string (lstrip s) in
  let r' := list_ascii_of_string (lstrip (string_of_list_ascii (List.rev r))) in
  string_of_list_ascii (List.rev r').

Definition is_ascii_digit (c : ascii) : bool :=
  let n := nat_of_ascii c in (48 <=? n)%nat && (n <=? 57)%nat.

Definition digit_value (c : ascii) : Z := Z.of_nat (nat_of_ascii c) - 48.

(** [after_digit] tells whether the previous character was a digit, the
    only place where an underscore or the end of the text may stand. *)
Fixpoint int_digits (s : string) (acc : Z) (after_digit : bool) : option Z :=
  match s with
  | EmptyString => if after_digit then Some acc else None
  | String c rest =>
      if is_ascii_digit c then int_digits rest (10 * acc + digit_value c) true
      else if Ascii.eqb c "_"%char then
             if after_digit then int_digits rest acc false else None
      else None
  end.

Fixpoint count_digits (s : string) : nat :=
  match s with
  | EmptyString => 0
  | String c rest =>
      ((if is_ascii_digit c then 1 else 0) + count_digits rest)%nat
  end.

Definition max_str_digits : nat := 4300.

Definition int (s : string) : option Z :=
  let t := strip (to_ascii s) in
  let '(negative, body) :=
    match t with
    | String "-"%char rest => (true, rest)
    | String "+"%char rest => (false, rest)
    | _ => (false, t)
    end in
  if (max_str_digits <? count_digits body)%nat then None
  else option_map (fun z => if negative then - z else z)
                  (int_digits body 0 false).

(** [l.sort(reverse=True, key=key)] with integer keys: descending, and
    stable (elements with equal keys keep their order, which [list.sort]
    guarantees with [reverse=True] too).  An element is placed in front of
    the first element whose key is not larger than its own. *)
Section SortDesc.
Context {A : Type} (key : A -> Z).

Fixpoint insert_desc (x : A) (l : list A) : list A :=
  match l with
  | [] => [x]
  | y :: rest =>
      if key y <=? key x then x :: y :: rest
      else y :: insert_desc x rest
  end.

Definition sort_desc (l : list A) : list A :=
  List.fold_right insert_desc [] l.

End SortDesc.

(** [sorted(xs)] on strings: ascending in the order of [str], which
    compares character by character. *)
Fixpoint insert_str (x : string) (l : list string) : list string :=
  match l with
  | [] => [x]
  | y :: rest =>
      if String.leb x y then x :: y :: rest
      else y :: insert_str x rest
  end.

Definition sorted (l : list string) : list string :=
  List.fold_right insert_str [] l.

(** A [set] of strings built by [add]ing [l]'s elements holds each of them
    once. *)
Definition set_of (l : list string) : list string :=
  List.nodup string_dec l.

(** Iterating over a set visits each element once, in an order that the
    interpreter chooses (it varies with the hash seed of the process). *)
Definition set_order (set_iter : list string -> list string) : Prop :=
  forall l : list string, NoDup l -> Permutation (set_iter l) l.

(** [s.replace(old, new)] for a non-empty [old]: the occurrences of [old]
    are replaced from left to right, without overlap.  [skip] counts the
    characters of an occurrence that are still to be passed over. *)
Fixpoint replace_go (old new s : string) (skip : nat) : string :=
  match s with
  | EmptyString => EmptyString
  | String c rest =>
      match skip with
      | S skip' => replace_go old new rest skip'
      | O =>
          if String.prefix old s
          then new ++ replace_go old new rest (String.length old - 1)
          else String c (replace_go old new rest 0)
      end
  end.

Definition replace (old new s : string) : string := replace_go old new s 0.

(** [s.split(sep, 1)] for a one-character [sep]: the text before the first
    [sep] and, when there is a [sep], the text after it. *)
Fixpoint split_once (sep : ascii) (s : string) : string * option string :=
  match s with
  | EmptyString => (EmptyString, None)
  | String c rest =>
      if Ascii.eqb c sep then (EmptyString, Some rest)
      else let '(head, tail) := split_once sep rest in (String c head, tail)
  end.

(** [s.rstrip(ch)] for a one-character [ch]. *)
Fixpoint drop_leading (ch : ascii) (cs : list ascii) : list ascii :=
  match cs with
  | [] => []
  | c :: rest => if Ascii.eqb c ch then drop_leading ch rest else cs
  end.

Definition rstrip (ch : ascii) (s : string) : string :=
  string_of_list_ascii
    (List.rev (drop_leading ch (List.rev (list_ascii_of_string s)))).

End Py.

(* ================================================================== *)
(** * Results of effectful code *)
(* ================================================================== *)

(** The exceptions the scripts can meet.  [OtherError] carries the class
    name of an exception that no [except] clause of [gh_api] names: a
    [TimeoutError] while the response is read, [RemoteDisconnected],
    [JSONDecodeError]. *)
Inductive exn : Type :=
| HTTPError (code : Z) (payload : string)
| URLError (reason : string)
| ValueError
| OtherError (name : string).

Inductive result (A : Type) : Type :=
| Ok : A -> result A
| Raised : exn -> result A
| Diverged : result A.
Arguments Ok {A} _.
Arguments Raised {A} _.
Arguments Diverged {A}.

Definition bind {A B : Type} (r : result A) (k : A -> result B) : result B :=
  match r with
  | Ok a => k a
  | Raised e => Raised e
  | Diverged => Diverged
  end.

Notation "x <- r ;; k" := (bind r (fun x => k))
  (at level 61, r at next level, right associativity).

(* ================================================================== *)
(** * Transport client: [gh_api] *)
(* ================================================================== *)

Module Transport.

(** What the body of the [try] does, which calls
    [urllib.request.urlopen] and [json.load]: it hands back a response
    (status and decoded JSON payload), or raises [HTTPError] with the
    status code, or raises [URLError] (the connection cannot be opened),
    or raises an exception of another class ([urlopen] lets the errors of
    reading the response through as they are: [TimeoutError],
    [RemoteDisconnected]; [json.load] raises [JSONDecodeError]). *)
Inductive reply (A : Type) : Type :=
| Response (status : Z) (json : A)
| HTTPFailure (code : Z) (payload : string)
| NetworkFailure (reason : string)
| Uncaught (name : string).
Arguments Response {A} _ _.
Arguments HTTPFailure {A} _ _.
Arguments NetworkFailure {A} _.
Arguments Uncaught {A} _.

(** The network as the client sees it: the reply to its k-th attempt,
    counted from 1. *)
Definition network (A : Type) : Type := nat -> reply A.

(** The replies of a scenario, in order; [after] answers every attempt
    past the end of the list. *)
Definition script {A : Type} (rs : list (reply A)) (after : reply A)
  : network A :=
  fun attempt => List.nth (Nat.pred attempt) rs after.

(** What a call of [gh_api] amounts to: its result ([Ok None] is Python's
    [None]), the number of [urlopen] calls made, and the arguments of
    [time.sleep] in tenths of a second. *)
Record outcome (A : Type) : Type := mkOutcome {
  result_of : result (option A);
  attempts : nat;
  sleeps : list Z
}.
Arguments mkOutcome {A} _ _ _.
Arguments result_of {A} _.
Arguments attempts {A} _.
Arguments sleeps {A} _.

Definition retried {A : Type} (delay : Z) (o : outcome A) : outcome A :=
  mkOutcome (result_of o) (S (attempts o)) (delay :: sleeps o).

(** The loop [for attempt in range(1, max_retries + 1)] shared by the two
    clients, which differ in the test [retryable] on the status code and
    in the base delay (in tenths of a second).  [remaining] counts the
    iterations left; leaving the loop returns [None].  An exception that
    neither [except] clause names leaves the loop and the call at once. *)
Section Attempts.
Context {A : Type}.
Variable retryable : Z -> bool.
Variable base_delay : Z.
Variable max_retries : nat.
Variable net : network A.

Fixpoint attempt_loop (remaining attempt : nat) : outcome A :=
  match remaining with
  | O => mkOutcome (Ok None) 0 []
  | S remaining' =>
      match net attempt with
      | Response status json =>
          mkOutcome (Ok (if status =? 204 then None else Some json)) 1 []
      | HTTPFailure code payload =>
          if negb (retryable code) || Nat.eqb attempt max_retries
          then mkOutcome (Raised (HTTPError code payload)) 1 []
          else retried (base_delay * Z.of_nat attempt)
                       (attempt_loop remaining' (S attempt))
      | NetworkFailure reason =>
          if Nat.eqb attempt max_retries
          then mkOutcome (Raised (URLError reason)) 1 []
          else retried (base_delay * Z.of_nat attempt)
                       (attempt_loop remaining' (S attempt))
      | Uncaught name => mkOutcome (Raised (OtherError name)) 1 []
      end
  end.

End Attempts.

End Transport.

(* ================================================================== *)
(** * Paginator *)
(* ================================================================== *)

Module Paginator.

(** The page size the scripts ask for ([per_page=100]). *)
Definition per_page : nat := 100.

(** The page loop ([paginate] of post_pr_summar.py, lines 51-61; the same
    loop is written inline in both comment_on_push.py scripts, where
    [prs.extend(res)] collects what [paginate] yields).  [gh page] is the
    result of [gh_api] on the path with [per_page=100&page=page].  The
    value returned is the collected items (the generator is always
    consumed by [list]) together with the page numbers requested, in
    order.  [not data] holds for [None] and for the empty list. *)
Section Pages.
Context {A : Type}.
Variable gh : nat -> result (option (list A)).

Fixpoint pages (fuel page : nat) : result (list A) * list nat :=
  match fuel with
  | O => (Diverged, [])
  | S fuel' =>
      match gh page with
      | Raised e => (Raised e, [page])
      | Diverged => (Diverged, [page])
      | Ok None => (Ok [], [page])
      | Ok (Some []) => (Ok [], [page])
      | Ok (Some data) =>
          if (List.length data <? per_page)%nat then (Ok data, [page])
          else
            let rest := pages fuel' (S page) in
            (more <- fst rest ;; Ok (data ++ more)%list, page :: snd rest)
      end
  end.

End Pages.

(** The forge's side of a paginated endpoint over the collection [items]:
    page [page] (from 1) holds the next [per_page] items, and the pages
    past the end are empty. *)
Definition serve {A : Type} (items : list A)
  : nat -> result (option (list A)) :=
  fun page =>
    Ok (Some (List.firstn per_page
                (List.skipn (per_page * (page - 1)) items))).

End Paginator.

(* ================================================================== *)
(** * The JSON objects the scripts read *)
(* ================================================================== *)

Module GitHub.
Import Py.

(** An entry of [GET /pulls?state=open]; [head_sha] and [head_ref] are
    [p.get("head", {}).get(...)], [None] when a key is missing. *)
Record open_pr : Type := mkOpenPr {
  number : Z;
  head_sha : option string;
  head_ref : option string
}.

(** An entry of a commit list.  [sha] is [None] when the key is missing;
    [message] is [Missing] when ["commit"] or ["message"] is. *)
Record commit : Type := mkCommit {
  sha : option string;
  message : field string
}.

(** An entry of [GET /pulls/N/files]. *)
Record file : Type := mkFile {
  filename : field string;
  status : field string;
  file_additions : field Z;
  file_deletions : field Z
}.

(** The object of [GET /pulls/N].  [additions] and [deletions] are
    integers when present ([None]: key missing). *)
Record pull : Type := mkPull {
  title : field string;
  user_login : field string;
  pull_head_ref : field string;
  pull_base_ref : field string;
  additions : option Z;
  deletions : option Z;
  changed_files : field Z;
  body : field string
}.

(** An issue comment. *)
Record comment : Type := mkComment {
  id : Z;
  comment_body : field string
}.

End GitHub.

(* ================================================================== *)
(** * The comment store of the forge *)
(* ================================================================== *)

(** The environment of the comment reconciler: the issue comments of one
    pull request, oldest first, as [GET /issues/N/comments] lists them.
    [PATCH /issues/comments/ID] replaces the body of the comment with that
    id and answers 404 when there is none; [POST /issues/N/comments]
    appends a comment under an id not in use. *)
Module Forge.
Import Py GitHub.

Definition store : Type := list comment.

Definition list_comments (st : store)
  : nat -> result (option (list comment)) :=
  Paginator.serve st.

Definition has_id (comment_id : Z) (c : comment) : bool :=
  id c =? comment_id.

Definition patch (comment_id : Z) (text : string) (st : store)
  : result store :=
  if List.existsb (has_id comment_id) st then
    Ok (List.map (fun c => if has_id comment_id c
                           then mkComment (id c) (Val text) else c) st)
  else Raised (HTTPError 404 "Not Found").

Definition fresh_id (st : store) : Z :=
  1 + List.fold_right (fun c m => Z.max (id c) m) 0 st.

Definition post (text : string) (st : store) : result store :=
  Ok (st ++ [mkComment (fresh_id st) (Val text)])%list.

End Forge.

(* ================================================================== *)
(** * post_pr_summar.py *)
(* ================================================================== *)

Module PostPrSummary.
Import Py GitHub.

Definition MARKER : string := "<!-- pr-summary-bot -->".

(** Lines 19-49.  [retry = 500 <= e.code < 600]; [time.sleep(1.3 * attempt)]. *)
Definition retry (code : Z) : bool := (500 <=? code) && (code <? 600).

Definition gh_api {A : Type} (max_retries : nat) (net : Transport.network A)
  : Transport.outcome A :=
  Transport.attempt_loop retry 13 max_retries net max_retries 1.

(** Lines 51-61. *)
Definition paginate {A : Type} (gh : nat -> result (option (list A)))
  (fuel : nat) : result (list A) * list nat :=
  Paginator.pages gh fuel 1.

(** Lines 72-78.  [comments_gh] answers the page requests on the comments
    endpoint. *)
Definition is_summary_comment (c : comment) : bool :=
  contains MARKER (or_str (get (comment_body c) "") "").

Definition find_existing_summary_comment
  (comments_gh : nat -> result (option (list comment))) (fuel : nat)
  : result (option Z) :=
  comments <- fst (paginate comments_gh fuel) ;;
  Ok (option_map id (List.find is_summary_comment (List.rev comments))).

(** Lines 80-84, on the comment store. *)
Definition create_comment (text : string) (st : Forge.store)
  : result Forge.store :=
  Forge.post text st.

Definition update_comment (comment_id : Z) (text : string) (st : Forge.store)
  : result Forge.store :=
  Forge.patch comment_id text st.

(** Lines 86-87; [n] is an int or [None]. *)
Definition plural (n : option Z) (word : string) : string :=
  fmt_int n ++ " " ++ word ++
  (match n with Some 1 => "" | _ => "s" end).

(** Lines 105-111: the entries of the recent-commits section. *)
Definition commit_entry (c : commit) : string :=
  let sha7 := take 7 (match sha c with Some s => s | None => "" end) in
  let msg := or_str (get (message c) "") "(no message)" in
  let title_line := first_line msg in
  "- `" ++ sha7 ++ "` " ++ title_line.

Definition recent_commits (commits : list commit) : list string :=
  List.map commit_entry
    (List.rev (List.skipn (List.length commits - 10) commits)).

(** Lines 113-123: the entries of the most-changed-files section. *)
Definition file_summary : Type :=
  (Z * option string * option string * option Z * option Z)%type.

Definition summarize (f : file) : file_summary :=
  let changes := or_int (get (file_additions f) 0) 0
                 + or_int (get (file_deletions f) 0) 0 in
  (changes, get (status f) "", get (filename f) "",
   get (file_additions f) 0, get (file_deletions f) 0).

Definition changes_of (x : file_summary) : Z :=
  let '(chg, _, _, _, _) := x in chg.

Definition file_entry (x : file_summary) : string :=
  let '(_, status, name, add, dele) := x in
  "- `" ++ fmt_str name ++ "` (" ++ fmt_str status ++ ", +"
  ++ fmt_int add ++ "/-" ++ fmt_int dele ++ ")".

Definition file_summaries (files : list file) : list file_summary :=
  sort_desc changes_of (List.map summarize files).

Definition top_files (files : list file) : list string :=
  List.map file_entry (List.firstn 10 (file_summaries files)).

(** Lines 125-129. *)
Definition size_label (total_delta : Z) : string :=
  if total_delta >? 1000 then "🟥 huge"
  else if total_delta >? 500 then "🟧 large"
  else if total_delta >? 200 then "🟨 medium"
  else "🟩 small".

(** Lines 146-153.  [linked] is a [set]; the order in which [sorted] reads
    its elements belongs to the interpreter and is the argument
    [set_iter]. *)
Definition tail (token : string) : string :=
  match token with
  | EmptyString => EmptyString
  | String _ rest => rest
  end.

Definition is_issue_token (token : string) : bool :=
  startswith token "#" && isdigit (tail token).

Definition linked (text : string) : list string :=
  set_of (List.filter is_issue_token (split (replace_nl_by_space text))).

Definition sorted_linked (set_iter : list string -> list string)
  (text : string) : list string :=
  sorted (set_iter (linked text)).

(** Lines 89-156, on the values that [get_pr], [get_pr_commits] and
    [get_pr_files] fetched: first the list [lines] as it stands at the
    [return], then its join. *)
Definition summary_lines (set_iter : list string -> list string)
  (pr : pull) (commits : list commit) (files : list file) : list string :=
  let additions := match additions pr with Some a => a | None => 0 end in
  let deletions := match deletions pr with Some d => d | None => 0 end in
  let changed_files :=
    get (changed_files pr) (Z.of_nat (List.length files)) in
  let commits_count := Z.of_nat (List.length commits) in
  let total_delta := additions + deletions in
  let lines :=
    [ MARKER;
      "### PR Summary";
      "**Title:** " ++ fmt_str (get (title pr) "(no title)");
      "**Author:** @" ++ fmt_str (get (user_login pr) "unknown");
      "**Branch:** `" ++ fmt_str (get (pull_head_ref pr) "?")
        ++ "` → `" ++ fmt_str (get (pull_base_ref pr) "?") ++ "`";
      "**Scope:** " ++ plural changed_files "file" ++ ", "
        ++ plural (Some commits_count) "commit" ++ ", **+"
        ++ str_of_int additions ++ " / -" ++ str_of_int deletions
        ++ "** (" ++ size_label total_delta ++ ")" ] in
  let lines :=
    match recent_commits commits with
    | [] => lines
    | entries => List.app lines ("" :: "#### Recent commits" :: entries)
    end in
  let lines :=
    match top_files files with
    | [] => lines
    | entries => List.app lines ("" :: "#### Most-changed files" :: entries)
    end in
  let text := or_str (get (body pr) "") "" in
  let lines :=
    match linked text with
    | [] => lines
    | _ => List.app lines
             [""; "#### Linked issues";
              "- " ++ String.concat " " (sorted_linked set_iter text)]
    end in
  List.app lines
    [""; "_I’ll update this comment when new commits are pushed._"].

Definition format_summary (set_iter : list string -> list string)
  (pr : pull) (commits : list commit) (files : list file) : string :=
  join_lines (summary_lines set_iter pr commits files).

(** Lines 160-166: what [main] does once the summary is formatted. *)
Inductive action : Type :=
| Updated (comment_id : Z)
| Created.

Definition upsert (summary : string) (fuel : nat) (st : Forge.store)
  : result (action * Forge.store) :=
  existing_id <- find_existing_summary_comment (Forge.list_comments st) fuel ;;
  match existing_id with
  | Some comment_id =>
      if comment_id =? 0 then
        st' <- create_comment summary st ;; Ok (Created, st')
      else
        st' <- update_comment comment_id summary st ;;
        Ok (Updated comment_id, st')
  | None =>
      st' <- create_comment summary st ;; Ok (Created, st')
  end.

(** Lines 158-166. *)
Definition main (set_iter : list string -> list string)
  (pr : pull) (commits : list commit) (files : list file)
  (fuel : nat) (st : Forge.store) : result (action * Forge.store) :=
  upsert (format_summary set_iter pr commits files) fuel st.

End PostPrSummary.

(* ================================================================== *)
(** * scripts/comment_on_push.py *)
(* ================================================================== *)

Module CommentOnPush.
Import Py GitHub.

(** Lines 27-61.  [is_retryable = e.code >= 500]; [time.sleep(1.2 * attempt)]. *)
Definition is_retryable (code : Z) : bool := 500 <=? code.

Definition gh_api {A : Type} (max_retries : nat) (net : Transport.network A)
  : Transport.outcome A :=
  Transport.attempt_loop is_retryable 12 max_retries net max_retries 1.

(** [p.get("head", {}).get(key) == target]. *)
Definition equals (target : string) (x : option string) : bool :=
  match x with
  | Some s => String.eqb s target
  | None => false
  end.

(** Lines 63-87.  [pulls_gh] answers the page requests on the open pull
    requests; the second component lists the pages requested. *)
Definition find_open_pr_for_branch_or_sha
  (PR_NUMBER_ENV : option string) (SHA BRANCH : string)
  (pulls_gh : nat -> result (option (list open_pr))) (fuel : nat)
  : result (option Z) * list nat :=
  let fast_path :=
    match PR_NUMBER_ENV with
    | Some s => if String.eqb s "" then None else int s
    | None => None
    end in
  match fast_path with
  | Some n => (Ok (Some n), [])
  | None =>
      let fetched := Paginator.pages pulls_gh fuel 1 in
      (prs <- fst fetched ;;
       Ok (match next (fun p => equals SHA (head_sha p)) prs with
           | Some pr => Some (number pr)
           | None =>
               match next (fun p => equals BRANCH (head_ref p)) prs with
               | Some pr => Some (number pr)
               | None => None
               end
           end),
       snd fetched)
  end.

(** Lines 89-109.  [compare_gh] is the result of [gh_api] on the compare
    endpoint: the ["commits"] of the object returned, [None] when the
    value is no object. *)
Definition push_commit (c : commit) : string * string :=
  let sha7 := take 7 (match sha c with Some s => s | None => "" end) in
  let title :=
    match get (message c) "" with
    | Some msg => if String.eqb msg "" then "(no message)" else first_line msg
    | None => "(no message)"
    end in
  (sha7, title).

Definition fetch_push_commit_messages
  (before : option string) (after : string)
  (compare_gh : result (option (list commit))) : list (string * string) :=
  match before with
  | None => []
  | Some b =>
      if String.eqb b "" || String.eqb after "" || String.eqb b after then []
      else match compare_gh with
           | Ok (Some commits) => List.map push_commit commits
           | Ok None => []
           | Raised _ => []
           | Diverged => []
           end
  end.

(** Lines 111-123. *)
Definition push_entry (x : string * string) : string :=
  let '(sha7, title) := x in "- `" ++ sha7 ++ "` " ++ title.

Definition base_line (BRANCH SHA : string) : string :=
  "📦 New push detected on `" ++ BRANCH ++ "` at `" ++ take 7 SHA ++ "`.".

(** The list [lines] of lines 117-122, for a non-empty [commits]. *)
Definition comment_lines (base : string) (commits : list (string * string))
  : list string :=
  let cap := 10%nat in
  let lines :=
    List.app [base; ""; "Recent commits:"]
             (List.map push_entry (List.firstn cap commits)) in
  if (cap <? List.length commits)%nat
  then List.app lines
         ["...and "
          ++ str_of_int (Z.of_nat (List.length commits) - Z.of_nat cap)
          ++ " more."]
  else lines.

Definition build_comment_body (BRANCH SHA : string)
  (BEFORE_SHA : option string)
  (compare_gh : result (option (list commit))) : string :=
  let base := base_line BRANCH SHA in
  let commits := fetch_push_commit_messages BEFORE_SHA SHA compare_gh in
  match commits with
  | [] => base
  | _ => join_lines (comment_lines base commits)
  end.

(** Lines 125-133.  [Commented n text] stands for the POST of [text] on
    pull request [n]; [not pr_number] holds for [None] and for 0. *)
Inductive run : Type :=
| Skipped
| Commented (pr_number : Z) (text : string).

Definition main (PR_NUMBER_ENV : option string) (SHA BRANCH : string)
  (BEFORE_SHA : option string)
  (pulls_gh : nat -> result (option (list open_pr))) (fuel : nat)
  (compare_gh : result (option (list commit))) : result run :=
  pr_number <-
    fst (find_open_pr_for_branch_or_sha PR_NUMBER_ENV SHA BRANCH pulls_gh fuel) ;;
  match pr_number with
  | None => Ok Skipped
  | Some n =>
      if n =? 0 then Ok Skipped
      else Ok (Commented n (build_comment_body BRANCH SHA BEFORE_SHA compare_gh))
  end.

(** Lines 9-25: the configuration read from the environment when the
    script starts.  [None] in [environ] is a variable that is not set;
    [startup] is [None] when the script leaves with [sys.exit(1)]. *)
Record environ : Type := mkEnviron {
  GITHUB_API_URL : option string;
  GITHUB_TOKEN : option string;
  GITHUB_REPOSITORY : option string;
  GITHUB_SHA : option string;
  GITHUB_REF : option string;
  GITHUB_PR_NUMBER : option string;
  GITHUB_EVENT_BEFORE : option string
}.

Record config : Type := mkConfig {
  API_BASE : string;
  TOKEN : string;
  OWNER : string;
  REPO : string;
  SHA : string;
  BRANCH : string;
  PR_NUMBER_ENV : option string;
  BEFORE_SHA : option string
}.

Definition getenv (x : option string) (default : string) : string :=
  match x with
  | Some s => s
  | None => default
  end.

Definition startup (env : environ) : option config :=
  let API_BASE :=
    rstrip "/"%char (getenv (GITHUB_API_URL env) "https://api.github.com") in
  let REPO_FULL := getenv (GITHUB_REPOSITORY env) "" in
  let SHA := getenv (GITHUB_SHA env) "" in
  let REF := getenv (GITHUB_REF env) "" in
  let BRANCH := replace "refs/heads/" "" REF in
  match GITHUB_TOKEN env with
  | None => None
  | Some TOKEN =>
      if String.eqb TOKEN "" then None
      else if String.eqb REPO_FULL "" || negb (contains "/" REPO_FULL)
      then None
      else
        match split_once "/"%char REPO_FULL with
        | (OWNER, Some REPO) =>
            Some (mkConfig API_BASE TOKEN OWNER REPO SHA BRANCH
                    (GITHUB_PR_NUMBER env) (GITHUB_EVENT_BEFORE env))
        | (_, None) => None
        end
  end.

(** The exit status of the script: 1 when the start-up checks fail, 1 when
    [main] ends in an exception that nothing catches, 0 when [main]
    returns.  [post_gh] is the result of the [gh_api] call that posts the
    comment (line 132); [None] is a run that does not end. *)
Definition exit_status (env : environ)
  (pulls_gh : nat -> result (option (list open_pr))) (fuel : nat)
  (compare_gh : result (option (list commit)))
  (post_gh : result (option unit)) : option Z :=
  match startup env with
  | None => Some 1
  | Some cfg =>
      match main (PR_NUMBER_ENV cfg) (SHA cfg) (BRANCH cfg) (BEFORE_SHA cfg)
                 pulls_gh fuel compare_gh with
      | Ok Skipped => Some 0
      | Ok (Commented _ _) =>
          match post_gh with
          | Ok _ => Some 0
          | Raised _ => Some 1
          | Diverged => None
          end
      | Raised _ => Some 1
      | Diverged => None
      end
  end.

End CommentOnPush.

(* ================================================================== *)
(** * workflows/comment_on_push.py *)
(* ================================================================== *)

Module WorkflowCommentOnPush.
Import Py GitHub.

(** Lines 11-29: one call of [urlopen], no retry.  [HTTPError] is caught
    to be printed and raised again; no other exception is caught. *)
Definition gh_api {A : Type} (net : Transport.network A)
  : Transport.outcome A :=
  match net 1%nat with
  | Transport.Response status json =>
      Transport.mkOutcome (Ok (if status =? 204 then None else Some json)) 1 []
  | Transport.HTTPFailure code payload =>
      Transport.mkOutcome (Raised (HTTPError code payload)) 1 []
  | Transport.NetworkFailure reason =>
      Transport.mkOutcome (Raised (URLError reason)) 1 []
  | Transport.Uncaught name =>
      Transport.mkOutcome (Raised (OtherError name)) 1 []
  end.

(** Lines 31-68.  [int(pr_number_env)] is not guarded here: a hint that
    does not parse raises [ValueError]. *)
Definition main (pr_number_env : option string) (sha branch : string)
  (pulls_gh : nat -> result (option (list open_pr))) (fuel : nat)
  : result CommentOnPush.run :=
  let text := CommentOnPush.base_line branch sha in
  let hinted :=
    match pr_number_env with
    | Some s => negb (String.eqb s "")
    | None => false
    end in
  if hinted then
    match int (match pr_number_env with Some s => s | None => "" end) with
    | Some pr_number => Ok (CommentOnPush.Commented pr_number text)
    | None => Raised ValueError
    end
  else
    prs <- fst (Paginator.pages pulls_gh fuel 1) ;;
    match next (fun p => CommentOnPush.equals sha (head_sha p)) prs with
    | Some pr => Ok (CommentOnPush.Commented (number pr) text)
    | None =>
        match next (fun p => CommentOnPush.equals branch (head_ref p)) prs with
        | Some pr => Ok (CommentOnPush.Commented (number pr) text)
        | None => Ok CommentOnPush.Skipped
        end
    end.

End WorkflowCommentOnPush.

(* ================================================================== *)
(** * Vocabulary of the statements *)
(* ================================================================== *)

Import Py GitHub.

(** [not data or len(data) < 100]: the page ends the loop. *)
Definition short_page {A : Type} (data : option (list A)) : Prop :=
  match data with
  | None => True
  | Some items => (List.length items < Paginator.per_page)%nat
  end.

(** The items of a page; [None] holds none. *)
Definition items_of {A : Type} (data : option (list A)) : list A :=
  match data with
  | None => []
  | Some items => items
  end.

(** The number of requests a collection of [n] items takes: its full
    pages and the page that ends the loop. *)
Definition requests (n : nat) : nat := S (n / Paginator.per_page).

(** A list in descending order of [key]. *)
Definition descending {A : Type} (key : A -> Z) (l : list A) : Prop :=
  StronglySorted (fun a b => key b <= key a) l.

(** The elements of [l] whose key is [k], in the order of [l]. *)
Definition with_key {A : Type} (key : A -> Z) (k : Z) (l : list A) : list A :=
  List.filter (fun x => key x =? k) l.

(** The order of [str]. *)
Definition str_lt (a b : string) : Prop := String.compare a b = Lt.

Definition str_le (a b : string) : Prop := String.leb a b = true.

(** The marker comments of a store. *)
Definition marker_comments (st : Forge.store) : list comment :=
  List.filter PostPrSummary.is_summary_comment st.

(** A comment whose body holds the marker: some text, the marker, some
    text. *)
Definition carries_marker (c : comment) : Prop :=
  exists b pre post : string,
    comment_body c = Val b /\ b = pre ++ PostPrSummary.MARKER ++ post.

(** What the forge guarantees of comment ids: they are distinct and
    positive. *)
Definition well_formed (st : Forge.store) : Prop :=
  NoDup (List.map id st) /\ Forall (fun c => 0 < id c) st.

(** What [PATCH] on the comment [cid] does to one comment of the store. *)
Definition patched (cid : Z) (text : string) (c : comment) : comment :=
  if Forge.has_id cid c then mkComment (id c) (Val text) else c.

(** A reply after which the client tries again when attempts are left. *)
Definition retryable_failure {A : Type} (retryable : Z -> bool)
  (r : Transport.reply A) : bool :=
  match r with
  | Transport.Response _ _ => false
  | Transport.HTTPFailure code _ => retryable code
  | Transport.NetworkFailure _ => true
  | Transport.Uncaught _ => false
  end.

(** The result that a reply gives when the call ends with it. *)
Definition answer {A : Type} (r : Transport.reply A) : result (option A) :=
  match r with
  | Transport.Response status json =>
      Ok (if status =? 204 then None else Some json)
  | Transport.HTTPFailure code payload => Raised (HTTPError code payload)
  | Transport.NetworkFailure reason => Raised (URLError reason)
  | Transport.Uncaught name => Raised (OtherError name)
  end.

(** The backoff of a call that made [n] attempts: a sleep of [base] times
    the attempt number after each attempt but the last. *)
Definition backoff (base : Z) (n : nat) : list Z :=
  List.map (fun k => base * Z.of_nat k) (List.seq 1 (Nat.pred n)).

(** A page after which the page loop goes on. *)
Definition full_page {A : Type} (gh : nat -> result (option (list A)))
  (page : nat) : Prop :=
  exists items,
    gh page = Ok (Some items)
    /\ (Paginator.per_page <= List.length items)%nat.

(** The items that page [page] holds; none when the request fails. *)
Definition page_items {A : Type} (gh : nat -> result (option (list A)))
  (page : nat) : list A :=
  match gh page with
  | Ok data => items_of data
  | Raised _ => []
  | Diverged => []
  end.

(** A section of the summary: nothing when it has no entry, else an empty
    line, the heading and the entries. *)
Definition section_lines (heading : string) (entries : list string)
  : list string :=
  match entries with
  | [] => []
  | _ => "" :: heading :: entries
  end.

(** A line that is a heading of a section. *)
Definition is_heading (line : string) : bool := String.prefix "####" line.

(** U+001C FILE SEPARATOR, which [str.split] takes for whitespace and
    [int] does not strip. *)
Definition FILE_SEPARATOR : string :=
  String (ascii_of_nat 28) EmptyString.

(** U+2028 LINE SEPARATOR, U+00A0 NO-BREAK SPACE, U+00B2 SUPERSCRIPT TWO
    and U+FF17 FULLWIDTH DIGIT SEVEN, in UTF-8. *)
Definition LINE_SEPARATOR : string :=
  String (ascii_of_nat 226) (String (ascii_of_nat 128)
    (String (ascii_of_nat 168) EmptyString)).

Definition NO_BREAK_SPACE : string :=
  String (ascii_of_nat 194) (String (ascii_of_nat 160) EmptyString).

Definition SUPERSCRIPT_TWO : string :=
  String (ascii_of_nat 194) (String (ascii_of_nat 178) EmptyString).

Definition FULLWIDTH_SEVEN : string :=
  String (ascii_of_nat 239) (String (ascii_of_nat 188)
    (String (ascii_of_nat 151) EmptyString)).

(** The bytes of one character: a byte and continuation bytes. *)
Definition one_character (g : string) : bool :=
  match g with
  | EmptyString => false
  | String _ rest => all_continuation rest
  end.

(** A list of characters as [chars] cuts them: each is one character, and
    none after the first starts with a continuation byte. *)
Definition well_cut (l : list string) : Prop :=
  Forall (fun g => one_character g = true) l
  /\ Forall (fun g => continues g = false) (List.tl l).

(** A pull request that resolution may select. *)
Definition matches (SHA BRANCH : string) (p : open_pr) : Prop :=
  head_sha p = Some SHA \/ head_ref p = Some BRANCH.

(** A hint that the fast path of scripts/comment_on_push.py uses. *)
Definition usable_hint (hint : option string) : option Z :=
  match hint with
  | Some s => if String.eqb s "" then None else Py.int s
  | None => None
  end.

(* ================================================================== *)
(** * Properties *)
(* ================================================================== *)

(** ** Size label *)

Lemma scope_line_position :
  forall (l6 rest : list string) (d : string),
    List.length l6 = 6%nat ->
    List.nth 5 (l6 ++ rest)%list d = List.nth 5 l6 d.
Proof.
  intros l6 rest d Hlen.
  apply List.app_nth1. rewrite Hlen. lia.
Qed.

Lemma str_app_assoc :
  forall a b c : string, (a ++ b) ++ c = a ++ (b ++ c).
Proof.
  induction a as [ | x a IH]; intros b c; simpl.
  - reflexivity.
  - now rewrite IH.
Qed.

(** The sixth line of the formatted summary ends with the size label of
    [additions + deletions], in parentheses. *)
Lemma scope_line_carries_label :
  forall set_iter pr commits files,
  exists before : string,
    List.nth 5 (PostPrSummary.summary_lines set_iter pr commits files) ""
    = before ++ "(" ++
      PostPrSummary.size_label
        ((match additions pr with Some a => a | None => 0 end)
         + (match deletions pr with Some d => d | None => 0 end))
      ++ ")".
Proof.
  intros set_iter pr commits files.
  exists ("**Scope:** "
          ++ PostPrSummary.plural
               (get (changed_files pr) (Z.of_nat (List.length files))) "file"
          ++ ", "
          ++ PostPrSummary.plural (Some (Z.of_nat (List.length commits))) "commit"
          ++ ", **+"
          ++ str_of_int (match additions pr with Some a => a | None => 0 end)
          ++ " / -"
          ++ str_of_int (match deletions pr with Some d => d | None => 0 end)
          ++ "** ").
  unfold PostPrSummary.summary_lines.
  repeat match goal with
         | |- context [match ?x with [] => _ | _ :: _ => _ end] => destruct x
         end;
    repeat rewrite <- List.app_assoc;
    rewrite scope_line_position by reflexivity;
    cbn [List.nth];
    repeat rewrite str_app_assoc;
    reflexivity.
Qed.

(** C4. For every total [t] of additions and deletions the size label is
    "small" exactly when [t <= 200], "medium" exactly when
    [200 < t <= 500], "large" exactly when [500 < t <= 1000] and "huge"
    exactly when [t > 1000]; the label is the one of the Scope line of the
    formatted summary. *)
Theorem size_label_bands :
  forall t : Z,
    (PostPrSummary.size_label t = "🟩 small" <-> t <= 200)
    /\ (PostPrSummary.size_label t = "🟨 medium" <-> 200 < t <= 500)
    /\ (PostPrSummary.size_label t = "🟧 large" <-> 500 < t <= 1000)
    /\ (PostPrSummary.size_label t = "🟥 huge" <-> t > 1000).
Proof.
  intro t. unfold PostPrSummary.size_label.
  destruct (Z.gtb_spec t 1000) as [H1 | H1];
    [ | destruct (Z.gtb_spec t 500) as [H2 | H2];
        [ | destruct (Z.gtb_spec t 200) as [H3 | H3] ] ];
    repeat match goal with |- _ /\ _ => split end;
    (split; intro H); try lia; try discriminate H; reflexivity.
Qed.

(** ** Transport client *)

Section TransportFacts.
Context {A : Type}.
Variables (retryable : Z -> bool) (base_delay : Z) (max_retries : nat).
Variable net : Transport.network A.

Let loop := Transport.attempt_loop retryable base_delay max_retries net.

(** An iteration of the loop calls [urlopen]. *)
Lemma attempt_loop_calls :
  forall remaining attempt,
    (1 <= Transport.attempts (loop (S remaining) attempt))%nat.
Proof.
  intros remaining attempt. unfold loop. cbn [Transport.attempt_loop].
  destruct (net attempt) as [st json | code payload | reason | name].
  - simpl. lia.
  - destruct (negb (retryable code) || Nat.eqb attempt max_retries);
      simpl; lia.
  - destruct (Nat.eqb attempt max_retries); simpl; lia.
  - simpl. lia.
Qed.

(** A status code that is not retryable ends the call at once. *)
Lemma terminal_status_raises :
  forall remaining attempt code payload,
    net attempt = Transport.HTTPFailure code payload ->
    retryable code = false ->
    loop (S remaining) attempt
    = Transport.mkOutcome (Raised (HTTPError code payload)) 1 [].
Proof.
  intros remaining attempt code payload Hnet Hcode.
  unfold loop. cbn [Transport.attempt_loop]. rewrite Hnet, Hcode.
  reflexivity.
Qed.

(** A retryable status code before the last attempt is followed by a sleep
    and another attempt. *)
Lemma retryable_status_retries :
  forall remaining attempt code payload,
    net attempt = Transport.HTTPFailure code payload ->
    retryable code = true ->
    attempt <> max_retries ->
    loop (S remaining) attempt
    = Transport.retried (base_delay * Z.of_nat attempt)
        (loop remaining (S attempt)).
Proof.
  intros remaining attempt code payload Hnet Hcode Hlast.
  unfold loop. cbn [Transport.attempt_loop]. rewrite Hnet, Hcode.
  apply Nat.eqb_neq in Hlast. rewrite Hlast. reflexivity.
Qed.

Lemma network_failure_retries :
  forall remaining attempt reason,
    net attempt = Transport.NetworkFailure reason ->
    attempt <> max_retries ->
    loop (S remaining) attempt
    = Transport.retried (base_delay * Z.of_nat attempt)
        (loop remaining (S attempt)).
Proof.
  intros remaining attempt reason Hnet Hlast.
  unfold loop. cbn [Transport.attempt_loop]. rewrite Hnet.
  apply Nat.eqb_neq in Hlast. rewrite Hlast. reflexivity.
Qed.

(** Whether a failed first attempt is followed by a second one. *)
Lemma first_status_decides :
  forall remaining code payload,
    net 1%nat = Transport.HTTPFailure code payload ->
    (2 <= max_retries)%nat ->
    ((1 < Transport.attempts (loop (S (S remaining)) 1))%nat
     <-> retryable code = true).
Proof.
  intros remaining code payload Hnet Hmax.
  destruct (retryable code) eqn:Hcode.
  - rewrite (retryable_status_retries _ _ _ _ Hnet Hcode) by lia.
    pose proof (attempt_loop_calls remaining 2) as Hcalls.
    unfold Transport.retried. cbn [Transport.attempts].
    split; [reflexivity | lia].
  - rewrite (terminal_status_raises _ _ _ _ Hnet Hcode). simpl.
    split; [lia | discriminate].
Qed.

End TransportFacts.

Lemma retry_5xx :
  forall code, PostPrSummary.retry code = true <-> 500 <= code < 600.
Proof.
  intro code. unfold PostPrSummary.retry.
  rewrite andb_true_iff, Z.leb_le, Z.ltb_lt. reflexivity.
Qed.

Lemma is_retryable_from_500 :
  forall code, CommentOnPush.is_retryable code = true <-> 500 <= code.
Proof.
  intro code. unfold CommentOnPush.is_retryable. apply Z.leb_le.
Qed.

(** C2 (where the code departs from it). Two runs with [max_retries = 3]
    in which the clients do not retry "5xx responses and low-level
    network errors, and nothing else".  A reply with status 600, which is
    no 5xx status, is retried by the client of comment_on_push.py, whose
    test is [e.code >= 500]: the call succeeds on the second attempt,
    after one sleep, where the client of post_pr_summar.py, whose test is
    [500 <= e.code < 600], raises at once.  And an error of the transport
    that is no [URLError] (a time-out while the response is read, a
    connection closed by the peer, a body that is no JSON) is retried by
    neither client: the exception leaves [gh_api] at the first attempt,
    with two attempts unused. *)
Theorem gh_api_retry_divergence :
  forall (A : Type) (json : A) (payload name : string),
    CommentOnPush.gh_api 3
      (Transport.script
         [Transport.HTTPFailure 600 payload; Transport.Response 200 json]
         (Transport.Response 200 json))
    = Transport.mkOutcome (Ok (Some json)) 2 [12]
    /\ PostPrSummary.gh_api 3
         (Transport.script
            [Transport.HTTPFailure 600 payload; Transport.Response 200 json]
            (Transport.Response 200 json))
       = Transport.mkOutcome (Raised (HTTPError 600 payload)) 1 []
    /\ CommentOnPush.is_retryable 600 = true
    /\ PostPrSummary.retry 600 = false
    /\ CommentOnPush.gh_api 3
         (Transport.script
            [Transport.Uncaught name; Transport.Response 200 json]
            (Transport.Response 200 json))
       = Transport.mkOutcome (Raised (OtherError name)) 1 []
    /\ PostPrSummary.gh_api 3
         (Transport.script
            [Transport.Uncaught name; Transport.Response 200 json]
            (Transport.Response 200 json))
       = Transport.mkOutcome (Raised (OtherError name)) 1 [].
Proof.
  intros A json payload name. repeat split; reflexivity.
Qed.

(** ** Paginator *)

Section PaginatorFacts.
Context {A : Type}.

Lemma pages_stop :
  forall (gh : nat -> result (option (list A))) fuel page data,
    gh page = Ok data ->
    short_page data ->
    Paginator.pages gh (S fuel) page = (Ok (items_of data), [page]).
Proof.
  intros gh fuel page data Hgh Hshort.
  cbn [Paginator.pages]. rewrite Hgh.
  destruct data as [[ | x items] | ]; try reflexivity.
  cbn [short_page] in Hshort. apply Nat.ltb_lt in Hshort.
  rewrite Hshort. reflexivity.
Qed.

Lemma pages_continue :
  forall (gh : nat -> result (option (list A))) fuel page items,
    gh page = Ok (Some items) ->
    (Paginator.per_page <= List.length items)%nat ->
    Paginator.pages gh (S fuel) page
    = (more <- fst (Paginator.pages gh fuel (S page)) ;;
       Ok (items ++ more)%list,
       page :: snd (Paginator.pages gh fuel (S page))).
Proof.
  intros gh fuel page items Hgh Hfull.
  cbn [Paginator.pages]. rewrite Hgh.
  destruct items as [ | x items].
  - unfold Paginator.per_page in Hfull. simpl in Hfull. lia.
  - apply Nat.ltb_ge in Hfull. rewrite Hfull. reflexivity.
Qed.

Lemma requests_short :
  forall n, (n < Paginator.per_page)%nat -> requests n = 1%nat.
Proof.
  intros n Hn. unfold requests. now rewrite Nat.div_small.
Qed.

Lemma requests_full :
  forall n,
    (Paginator.per_page <= n)%nat ->
    requests n = S (requests (n - Paginator.per_page)).
Proof.
  intros n Hn. unfold requests. f_equal.
  replace (n / Paginator.per_page)%nat
    with ((n - Paginator.per_page + 1 * Paginator.per_page)
          / Paginator.per_page)%nat
    by (f_equal; lia).
  rewrite Nat.div_add by (unfold Paginator.per_page; lia).
  lia.
Qed.

(** What the forge serves from offset [per_page * k] on is read in full,
    by requests for the pages [k+1], [k+2], ... *)
Lemma pages_serve_from :
  forall (items : list A) fuel k,
    (requests (List.length (List.skipn (Paginator.per_page * k) items))
     <= fuel)%nat ->
    Paginator.pages (Paginator.serve items) fuel (S k)
    = (Ok (List.skipn (Paginator.per_page * k) items),
       List.seq (S k)
         (requests (List.length (List.skipn (Paginator.per_page * k) items)))).
Proof.
  intros items fuel. induction fuel as [ | fuel IH]; intros k Hfuel.
  - unfold requests in Hfuel. lia.
  - set (rest := List.skipn (Paginator.per_page * k) items) in *.
    assert (Hserve : Paginator.serve items (S k)
                     = Ok (Some (List.firstn Paginator.per_page rest))).
    { unfold Paginator.serve, rest.
      replace (S k - 1)%nat with k by lia. reflexivity. }
    destruct (Nat.lt_ge_cases (List.length rest) Paginator.per_page)
      as [Hshort | Hfull].
    + rewrite (pages_stop _ _ _ _ Hserve).
      * cbn [items_of]. rewrite List.firstn_all2 by lia.
        rewrite requests_short by assumption. reflexivity.
      * cbn [short_page]. rewrite List.firstn_all2 by lia. assumption.
    + rewrite (pages_continue _ _ _ _ Hserve)
        by (rewrite List.length_firstn; lia).
      assert (Hnext : List.skipn (Paginator.per_page * S k) items
                      = List.skipn Paginator.per_page rest).
      { unfold rest. rewrite List.skipn_skipn. f_equal. lia. }
      rewrite requests_full in Hfuel |- * by assumption.
      rewrite IH; rewrite Hnext; rewrite List.length_skipn.
      * cbn [fst snd bind List.seq].
        rewrite List.firstn_skipn. reflexivity.
      * lia.
Qed.

(** A finite collection served in pages is read in full and in order. *)
Lemma pages_serve :
  forall (items : list A) fuel,
    (requests (List.length items) <= fuel)%nat ->
    Paginator.pages (Paginator.serve items) fuel 1
    = (Ok items, List.seq 1 (requests (List.length items))).
Proof.
  intros items fuel Hfuel.
  pose proof (pages_serve_from items fuel 0) as H.
  rewrite Nat.mul_0_r in H. cbn [List.skipn] in H.
  apply H. assumption.
Qed.

End PaginatorFacts.

Lemma pages_first_request :
  forall (A : Type) (gh : nat -> result (option (list A))) fuel page,
  exists log, snd (Paginator.pages gh (S fuel) page) = page :: log.
Proof.
  intros A gh fuel page. cbn [Paginator.pages].
  destruct (gh page) as [[[ | x items] | ] | e | ];
    try (eexists; reflexivity).
  destruct (List.length (x :: items) <? Paginator.per_page)%nat;
    eexists; reflexivity.
Qed.

(** C6. A collection of 250 items served in pages of 100 is traversed by
    the paginator as one sequence, equal to the collection (every item
    once, in order), with requests for the pages 1, 2 and 3 and none after
    page 3, which holds 50 items.  The same holds for a collection of any
    size.  In general the loop stops right after a page that is empty or
    holds fewer than 100 items, and goes on to request the next page after
    any other page. *)
Theorem paginate_complete :
  forall (A : Type) (items : list A) (fuel : nat)
         (gh : nat -> result (option (list A))) (page : nat)
         (data : option (list A)) (full : list A),
    (List.length items = 250%nat ->
     (3 <= fuel)%nat ->
     PostPrSummary.paginate (Paginator.serve items) fuel
       = (Ok items, [1; 2; 3]%nat)
     /\ (exists last, Paginator.serve items 3 = Ok (Some last)
                      /\ List.length last = 50%nat))
    /\ ((requests (List.length items) <= fuel)%nat ->
        PostPrSummary.paginate (Paginator.serve items) fuel
          = (Ok items, List.seq 1 (requests (List.length items))))
    /\ (gh page = Ok data ->
        short_page data ->
        Paginator.pages gh (S fuel) page = (Ok (items_of data), [page]))
    /\ (gh page = Ok (Some full) ->
        (Paginator.per_page <= List.length full)%nat ->
        exists log,
          snd (Paginator.pages gh (S (S fuel)) page) = page :: S page :: log).
Proof.
  intros A items fuel gh page data full.
  split; [ | split; [ | split ] ].
  - intros Hlen Hfuel. split.
    + unfold PostPrSummary.paginate.
      rewrite pages_serve; rewrite Hlen; [reflexivity | ].
      unfold requests, Paginator.per_page.
      change (250 / 100)%nat with 2%nat. exact Hfuel.
    + exists (List.skipn 200 items). split.
      * unfold Paginator.serve. f_equal. f_equal.
        change (Paginator.per_page * (3 - 1))%nat with 200%nat.
        apply List.firstn_all2. rewrite List.length_skipn, Hlen.
        unfold Paginator.per_page. lia.
      * rewrite List.length_skipn, Hlen. reflexivity.
  - intro Hfuel. apply pages_serve. exact Hfuel.
  - apply pages_stop.
  - intros Hgh Hfull.
    rewrite (pages_continue _ _ _ _ Hgh Hfull). cbn [snd].
    destruct (pages_first_request A gh fuel (S page)) as [log Hlog].
    exists log. now rewrite Hlog.
Qed.

Lemma paginate_complete_witness :
  PostPrSummary.paginate (Paginator.serve (List.seq 0 250)) 3
  = (Ok (List.seq 0 250), [1; 2; 3]%nat)
  /\ PostPrSummary.paginate (Paginator.serve (List.seq 0 200)) 4
     = (Ok (List.seq 0 200), [1; 2; 3]%nat)
  /\ Paginator.pages (fun _ => Ok (Some [7; 8; 9]%nat)) 1 5
     = (Ok [7; 8; 9]%nat, [5%nat])
  /\ (exists log,
        snd (Paginator.pages (fun _ => Ok (Some (List.seq 0 100))) 2 5)
        = 5%nat :: 6%nat :: log).
Proof.
  split; [ | split; [ | split ] ].
  - destruct (paginate_complete nat (List.seq 0 250) 3
                (fun _ => Ok None) 1 None []) as (H250 & _).
    apply H250; [reflexivity | lia].
  - destruct (paginate_complete nat (List.seq 0 200) 4
                (fun _ => Ok None) 1 None []) as (_ & Hany & _).
    apply Hany. vm_compute. lia.
  - destruct (paginate_complete nat [] 0
                (fun _ => Ok (Some [7; 8; 9]%nat)) 5
                (Some [7; 8; 9]%nat) []) as (_ & _ & Hstop & _).
    apply Hstop; [reflexivity | vm_compute; lia].
  - destruct (paginate_complete nat [] 0
                (fun _ => Ok (Some (List.seq 0 100))) 5 None
                (List.seq 0 100)) as (_ & _ & _ & Hgo).
    apply Hgo; [reflexivity | vm_compute; lia].
Defined.

(** ** Pull-request resolution *)

Lemma find_first_match :
  forall (A : Type) (test : A -> bool) (before after : list A) (x : A),
    test x = true ->
    (forall y, In y before -> test y = false) ->
    List.find test (before ++ x :: after) = Some x.
Proof.
  intros A test before after x Hx. induction before as [ | y before IH];
    intro Hbefore; simpl.
  - now rewrite Hx.
  - rewrite (Hbefore y) by (now left).
    apply IH. intros z Hz. apply Hbefore. now right.
Qed.

Lemma find_no_match :
  forall (A : Type) (test : A -> bool) (l : list A),
    (forall y, In y l -> test y = false) ->
    List.find test l = None.
Proof.
  intros A test l. induction l as [ | y l IH]; intro Hl; simpl.
  - reflexivity.
  - rewrite (Hl y) by (now left).
    apply IH. intros z Hz. apply Hl. now right.
Qed.

Lemma equals_true :
  forall target x, CommentOnPush.equals target x = true <-> x = Some target.
Proof.
  intros target [s | ]; simpl.
  - rewrite String.eqb_eq. split; congruence.
  - split; discriminate.
Qed.

Lemma equals_false :
  forall target x, x <> Some target -> CommentOnPush.equals target x = false.
Proof.
  intros target x Hx. destruct (CommentOnPush.equals target x) eqn:E.
  - apply equals_true in E. contradiction.
  - reflexivity.
Qed.

(** C3. Without a pull-request hint, and with the open pull requests
    served by the forge: when [p] is the first open pull request whose
    head commit is the target commit, resolution returns [p]'s number,
    whatever pull requests are on the target branch and wherever they
    stand in the list; when no pull request is on the target commit, the
    first one on the target branch is returned; and when none matches
    either way, resolution returns [None] and the run ends normally as a
    skip, in both comment_on_push.py scripts. *)
Theorem resolution_prefers_sha :
  forall (prs before after : list open_pr) (p : open_pr)
         (SHA BRANCH : string) (BEFORE_SHA : option string)
         (compare_gh : result (option (list commit))) (fuel : nat),
    (requests (List.length prs) <= fuel)%nat ->
    (prs = (before ++ p :: after)%list ->
     head_sha p = Some SHA ->
     (forall x, In x before -> head_sha x <> Some SHA) ->
     fst (CommentOnPush.find_open_pr_for_branch_or_sha
            None SHA BRANCH (Paginator.serve prs) fuel)
       = Ok (Some (number p))
     /\ WorkflowCommentOnPush.main None SHA BRANCH (Paginator.serve prs) fuel
        = Ok (CommentOnPush.Commented (number p)
                (CommentOnPush.base_line BRANCH SHA)))
    /\ (prs = (before ++ p :: after)%list ->
        head_ref p = Some BRANCH ->
        (forall x, In x prs -> head_sha x <> Some SHA) ->
        (forall x, In x before -> head_ref x <> Some BRANCH) ->
        fst (CommentOnPush.find_open_pr_for_branch_or_sha
               None SHA BRANCH (Paginator.serve prs) fuel)
          = Ok (Some (number p))
        /\ WorkflowCommentOnPush.main None SHA BRANCH (Paginator.serve prs) fuel
           = Ok (CommentOnPush.Commented (number p)
                   (CommentOnPush.base_line BRANCH SHA)))
    /\ ((forall x, In x prs ->
                   head_sha x <> Some SHA /\ head_ref x <> Some BRANCH) ->
        fst (CommentOnPush.find_open_pr_for_branch_or_sha
               None SHA BRANCH (Paginator.serve prs) fuel)
          = Ok None
        /\ CommentOnPush.main None SHA BRANCH BEFORE_SHA
             (Paginator.serve prs) fuel compare_gh
           = Ok CommentOnPush.Skipped
        /\ WorkflowCommentOnPush.main None SHA BRANCH (Paginator.serve prs) fuel
           = Ok CommentOnPush.Skipped).
Proof.
  intros prs before after p SHA BRANCH BEFORE_SHA compare_gh fuel Hfuel.
  unfold CommentOnPush.main, CommentOnPush.find_open_pr_for_branch_or_sha,
    WorkflowCommentOnPush.main, Py.next.
  cbn match. cbn [negb]. cbn match.
  rewrite (pages_serve prs fuel Hfuel). cbn [fst snd bind].
  split; [ | split ].
  - intros Hprs Hp Hbefore. subst prs.
    rewrite (find_first_match _ (fun q => CommentOnPush.equals SHA (head_sha q)))
      by (try (now apply equals_true);
          intros y Hy; apply equals_false; now apply Hbefore).
    split; reflexivity.
  - intros Hprs Hp Hsha Hbefore.
    rewrite (find_no_match _ (fun q => CommentOnPush.equals SHA (head_sha q)))
      by (intros y Hy; apply equals_false; now apply Hsha).
    subst prs.
    rewrite (find_first_match _
               (fun q => CommentOnPush.equals BRANCH (head_ref q)))
      by (try (now apply equals_true);
          intros y Hy; apply equals_false; now apply Hbefore).
    split; reflexivity.
  - intro Hnone.
    rewrite (find_no_match _ (fun q => CommentOnPush.equals SHA (head_sha q)))
      by (intros y Hy; apply equals_false; now apply Hnone).
    rewrite (find_no_match _
               (fun q => CommentOnPush.equals BRANCH (head_ref q)))
      by (intros y Hy; apply equals_false; now apply Hnone).
    repeat split; reflexivity.
Qed.

Lemma resolution_prefers_sha_witness :
  fst (CommentOnPush.find_open_pr_for_branch_or_sha None "c0ffee" "feature"
         (Paginator.serve
            [mkOpenPr 11 (Some "0ddba11") (Some "feature");
             mkOpenPr 12 (Some "c0ffee") (Some "hotfix");
             mkOpenPr 13 (Some "c0ffee") (Some "feature")]) 1)
  = Ok (Some 12)
  /\ WorkflowCommentOnPush.main None "f00d" "feature"
       (Paginator.serve
          [mkOpenPr 11 (Some "0ddba11") (Some "main");
           mkOpenPr 12 (Some "c0ffee") (Some "feature")]) 1
     = Ok (CommentOnPush.Commented 12
             (CommentOnPush.base_line "feature" "f00d"))
  /\ CommentOnPush.main None "f00d" "release" None
       (Paginator.serve
          [mkOpenPr 11 (Some "0ddba11") (Some "main");
           mkOpenPr 12 (Some "c0ffee") None]) 1 (Ok None)
     = Ok CommentOnPush.Skipped.
Proof.
  split; [ | split ].
  - destruct (resolution_prefers_sha
                [mkOpenPr 11 (Some "0ddba11") (Some "feature");
                 mkOpenPr 12 (Some "c0ffee") (Some "hotfix");
                 mkOpenPr 13 (Some "c0ffee") (Some "feature")]
                [mkOpenPr 11 (Some "0ddba11") (Some "feature")]
                [mkOpenPr 13 (Some "c0ffee") (Some "feature")]
                (mkOpenPr 12 (Some "c0ffee") (Some "hotfix"))
                "c0ffee" "feature" None (Ok None) 1) as (Hsha & _).
    + vm_compute. lia.
    + apply Hsha; [reflexivity | reflexivity | ].
      intros x [<- | []]. discriminate.
  - destruct (resolution_prefers_sha
                [mkOpenPr 11 (Some "0ddba11") (Some "main");
                 mkOpenPr 12 (Some "c0ffee") (Some "feature")]
                [mkOpenPr 11 (Some "0ddba11") (Some "main")]
                []
                (mkOpenPr 12 (Some "c0ffee") (Some "feature"))
                "f00d" "feature" None (Ok None) 1) as (_ & Hbranch & _).
    + vm_compute. lia.
    + apply Hbranch; [reflexivity | reflexivity | | ].
      * intros x [<- | [<- | []]]; discriminate.
      * intros x [<- | []]. discriminate.
  - destruct (resolution_prefers_sha
                [mkOpenPr 11 (Some "0ddba11") (Some "main");
                 mkOpenPr 12 (Some "c0ffee") None]
                [] []
                (mkOpenPr 11 (Some "0ddba11") (Some "main"))
                "f00d" "release" None (Ok None) 1) as (_ & _ & Hnone).
    + vm_compute. lia.
    + apply Hnone.
      intros x [<- | [<- | []]]; split; discriminate.
Defined.

(** ** The pull-request hint of scripts/comment_on_push.py *)

(** The search over the open pull requests that the forge serves: every
    page is requested, and the first pull request on the target commit is
    selected, or else the first one on the target branch. *)
Lemma search_of_served_pulls :
  forall (prs : list open_pr) (SHA BRANCH : string) (fuel : nat),
    (requests (List.length prs) <= fuel)%nat ->
    CommentOnPush.find_open_pr_for_branch_or_sha
      None SHA BRANCH (Paginator.serve prs) fuel
    = (Ok (match List.find
                   (fun q => CommentOnPush.equals SHA (head_sha q)) prs with
           | Some pr => Some (number pr)
           | None =>
               match List.find
                       (fun q => CommentOnPush.equals BRANCH (head_ref q))
                       prs with
               | Some pr => Some (number pr)
               | None => None
               end
           end),
       List.seq 1 (requests (List.length prs))).
Proof.
  intros prs SHA BRANCH fuel Hfuel.
  unfold CommentOnPush.find_open_pr_for_branch_or_sha, Py.next.
  rewrite (pages_serve prs fuel Hfuel). reflexivity.
Qed.

(** A hint that is empty or that [int] rejects leaves the search to do. *)
Lemma rejected_hint_is_dropped :
  forall (hint SHA BRANCH : string)
         (pulls_gh : nat -> result (option (list open_pr))) (fuel : nat),
    Py.int hint = None ->
    CommentOnPush.find_open_pr_for_branch_or_sha
      (Some hint) SHA BRANCH pulls_gh fuel
    = CommentOnPush.find_open_pr_for_branch_or_sha
        None SHA BRANCH pulls_gh fuel.
Proof.
  intros hint SHA BRANCH pulls_gh fuel Hint.
  unfold CommentOnPush.find_open_pr_for_branch_or_sha.
  destruct (String.eqb hint ""); [reflexivity | ].
  now rewrite Hint.
Qed.

(** C10. In scripts/comment_on_push.py a pull-request hint that [int]
    rejects is dropped without an error, and resolution is the search
    over the open pull requests, as if no hint had been given: page 1 of
    the open pull requests is requested; when the forge serves them, all
    pages are requested and the first pull request on the target commit is
    returned, or else the first one on the target branch, or else [None];
    and an error of the listing is the error of the resolution.  A hint
    that [int] accepts is returned as it parses, with no request made; and
    a resolution that made no request had a hint that parses. *)
Theorem unparseable_hint_falls_back :
  forall (hint SHA BRANCH : string)
         (pulls_gh : nat -> result (option (list open_pr)))
         (fuel : nat) (n : Z)
         (prs before after : list open_pr) (p : open_pr) (e : exn),
    (Py.int hint = None ->
     CommentOnPush.find_open_pr_for_branch_or_sha
       (Some hint) SHA BRANCH pulls_gh fuel
     = CommentOnPush.find_open_pr_for_branch_or_sha
         None SHA BRANCH pulls_gh fuel)
    /\ (Py.int hint = Some n ->
        CommentOnPush.find_open_pr_for_branch_or_sha
          (Some hint) SHA BRANCH pulls_gh fuel
        = (Ok (Some n), []))
    /\ (snd (CommentOnPush.find_open_pr_for_branch_or_sha
               (Some hint) SHA BRANCH pulls_gh (S fuel)) = [] ->
        exists m, Py.int hint = Some m)
    /\ (Py.int hint = None ->
        exists log,
          snd (CommentOnPush.find_open_pr_for_branch_or_sha
                 (Some hint) SHA BRANCH pulls_gh (S fuel)) = 1%nat :: log)
    /\ (Py.int hint = None ->
        pulls_gh 1%nat = Raised e ->
        CommentOnPush.find_open_pr_for_branch_or_sha
          (Some hint) SHA BRANCH pulls_gh (S fuel)
        = (Raised e, [1%nat]))
    /\ (Py.int hint = None ->
        (requests (List.length prs) <= fuel)%nat ->
        prs = (before ++ p :: after)%list ->
        head_sha p = Some SHA ->
        (forall x, In x before -> head_sha x <> Some SHA) ->
        CommentOnPush.find_open_pr_for_branch_or_sha
          (Some hint) SHA BRANCH (Paginator.serve prs) fuel
        = (Ok (Some (number p)), List.seq 1 (requests (List.length prs))))
    /\ (Py.int hint = None ->
        (requests (List.length prs) <= fuel)%nat ->
        prs = (before ++ p :: after)%list ->
        head_ref p = Some BRANCH ->
        (forall x, In x prs -> head_sha x <> Some SHA) ->
        (forall x, In x before -> head_ref x <> Some BRANCH) ->
        CommentOnPush.find_open_pr_for_branch_or_sha
          (Some hint) SHA BRANCH (Paginator.serve prs) fuel
        = (Ok (Some (number p)), List.seq 1 (requests (List.length prs))))
    /\ (Py.int hint = None ->
        (requests (List.length prs) <= fuel)%nat ->
        (forall x, In x prs ->
                   head_sha x <> Some SHA /\ head_ref x <> Some BRANCH) ->
        CommentOnPush.find_open_pr_for_branch_or_sha
          (Some hint) SHA BRANCH (Paginator.serve prs) fuel
        = (Ok None, List.seq 1 (requests (List.length prs)))).
Proof.
  intros hint SHA BRANCH pulls_gh fuel n prs before after p e.
  split; [apply rejected_hint_is_dropped | ].
  split.
  { intro Hn. unfold CommentOnPush.find_open_pr_for_branch_or_sha.
    destruct (String.eqb_spec hint "") as [-> | _]; [discriminate Hn | ].
    now rewrite Hn. }
  split.
  { destruct (Py.int hint) as [m | ] eqn:Hint; [intros _; now exists m | ].
    rewrite (rejected_hint_is_dropped _ _ _ _ _ Hint).
    unfold CommentOnPush.find_open_pr_for_branch_or_sha. cbn [snd].
    destruct (pages_first_request _ pulls_gh fuel 1) as [log Hreq].
    rewrite Hreq. discriminate. }
  split.
  { intro Hint. rewrite (rejected_hint_is_dropped _ _ _ _ _ Hint).
    unfold CommentOnPush.find_open_pr_for_branch_or_sha. cbn [snd].
    apply pages_first_request. }
  split.
  { intros Hint Hgh. rewrite (rejected_hint_is_dropped _ _ _ _ _ Hint).
    unfold CommentOnPush.find_open_pr_for_branch_or_sha.
    cbn [Paginator.pages]. rewrite Hgh. reflexivity. }
  split.
  { intros Hint Hfuel Hprs Hp Hbefore.
    rewrite (rejected_hint_is_dropped _ _ _ _ _ Hint).
    rewrite (search_of_served_pulls prs SHA BRANCH fuel Hfuel).
    rewrite Hprs at 1.
    rewrite (find_first_match _ (fun q => CommentOnPush.equals SHA (head_sha q)))
      by (try (now apply equals_true);
          intros y Hy; apply equals_false; now apply Hbefore).
    reflexivity. }
  split.
  { intros Hint Hfuel Hprs Hp Hsha Hbefore.
    rewrite (rejected_hint_is_dropped _ _ _ _ _ Hint).
    rewrite (search_of_served_pulls prs SHA BRANCH fuel Hfuel).
    rewrite (find_no_match _ (fun q => CommentOnPush.equals SHA (head_sha q)))
      by (intros y Hy; apply equals_false; now apply Hsha).
    rewrite Hprs at 1.
    rewrite (find_first_match _
               (fun q => CommentOnPush.equals BRANCH (head_ref q)))
      by (try (now apply equals_true);
          intros y Hy; apply equals_false; now apply Hbefore).
    reflexivity. }
  intros Hint Hfuel Hnone.
  rewrite (rejected_hint_is_dropped _ _ _ _ _ Hint).
  rewrite (search_of_served_pulls prs SHA BRANCH fuel Hfuel).
  rewrite (find_no_match _ (fun q => CommentOnPush.equals SHA (head_sha q)))
    by (intros y Hy; apply equals_false; now apply Hnone).
  rewrite (find_no_match _
             (fun q => CommentOnPush.equals BRANCH (head_ref q)))
    by (intros y Hy; apply equals_false; now apply Hnone).
  reflexivity.
Qed.

Lemma unparseable_hint_falls_back_witness :
  CommentOnPush.find_open_pr_for_branch_or_sha
    (Some (FILE_SEPARATOR ++ "42")) "c0ffee" "feature"
    (Paginator.serve
       [mkOpenPr 11 (Some "0ddba11") (Some "feature");
        mkOpenPr 12 (Some "c0ffee") (Some "hotfix")]) 1
  = (Ok (Some 12), [1%nat])
  /\ CommentOnPush.find_open_pr_for_branch_or_sha
       (Some "12a") "f00d" "feature"
       (Paginator.serve
          [mkOpenPr 11 (Some "0ddba11") (Some "feature");
           mkOpenPr 12 (Some "c0ffee") (Some "hotfix")]) 1
     = (Ok (Some 11), [1%nat])
  /\ CommentOnPush.find_open_pr_for_branch_or_sha
       (Some "4 2") "f00d" "main"
       (Paginator.serve
          [mkOpenPr 11 (Some "0ddba11") (Some "feature");
           mkOpenPr 12 (Some "c0ffee") (Some "hotfix")]) 1
     = (Ok None, [1%nat])
  /\ CommentOnPush.find_open_pr_for_branch_or_sha
       (Some "#42") "c0ffee" "main"
       (fun _ => Raised (HTTPError 403 "Forbidden")) 1
     = (Raised (HTTPError 403 "Forbidden"), [1%nat])
  /\ CommentOnPush.find_open_pr_for_branch_or_sha
       (Some (" " ++ FULLWIDTH_SEVEN ++ "_0" ++ nl)) "c0ffee" "main"
       (Paginator.serve [mkOpenPr 7 (Some "c0ffee") (Some "main")]) 1
     = (Ok (Some 70), [])
  /\ (exists m, Py.int "42" = Some m).
Proof.
  split; [ | split; [ | split; [ | split; [ | split ] ] ] ].
  - destruct (unparseable_hint_falls_back (FILE_SEPARATOR ++ "42")
                "c0ffee" "feature" (fun _ => Ok None) 1 0
                [mkOpenPr 11 (Some "0ddba11") (Some "feature");
                 mkOpenPr 12 (Some "c0ffee") (Some "hotfix")]
                [mkOpenPr 11 (Some "0ddba11") (Some "feature")] []
                (mkOpenPr 12 (Some "c0ffee") (Some "hotfix")) ValueError)
      as (_ & _ & _ & _ & _ & Hsha & _).
    apply Hsha; [vm_compute; reflexivity | vm_compute; lia | reflexivity
                | reflexivity | ].
    intros x [<- | []]. discriminate.
  - destruct (unparseable_hint_falls_back "12a"
                "f00d" "feature" (fun _ => Ok None) 1 0
                [mkOpenPr 11 (Some "0ddba11") (Some "feature");
                 mkOpenPr 12 (Some "c0ffee") (Some "hotfix")]
                [] [mkOpenPr 12 (Some "c0ffee") (Some "hotfix")]
                (mkOpenPr 11 (Some "0ddba11") (Some "feature")) ValueError)
      as (_ & _ & _ & _ & _ & _ & Hbranch & _).
    apply Hbranch; [vm_compute; reflexivity | vm_compute; lia | reflexivity
                   | reflexivity | | ].
    + intros x [<- | [<- | []]]; discriminate.
    + intros x [].
  - destruct (unparseable_hint_falls_back "4 2"
                "f00d" "main" (fun _ => Ok None) 1 0
                [mkOpenPr 11 (Some "0ddba11") (Some "feature");
                 mkOpenPr 12 (Some "c0ffee") (Some "hotfix")]
                [] [] (mkOpenPr 0 None None) ValueError)
      as (_ & _ & _ & _ & _ & _ & _ & Hnone).
    apply Hnone; [vm_compute; reflexivity | vm_compute; lia | ].
    intros x [<- | [<- | []]]; split; discriminate.
  - destruct (unparseable_hint_falls_back "#42"
                "c0ffee" "main" (fun _ => Raised (HTTPError 403 "Forbidden"))
                0 0 [] [] [] (mkOpenPr 0 None None)
                (HTTPError 403 "Forbidden"))
      as (_ & _ & _ & _ & Hraise & _).
    apply Hraise; [vm_compute; reflexivity | reflexivity].
  - destruct (unparseable_hint_falls_back
                (" " ++ FULLWIDTH_SEVEN ++ "_0" ++ nl) "c0ffee" "main"
                (Paginator.serve [mkOpenPr 7 (Some "c0ffee") (Some "main")])
                1 70 [] [] [] (mkOpenPr 0 None None) ValueError)
      as (_ & Huse & _).
    apply Huse. vm_compute. reflexivity.
  - destruct (unparseable_hint_falls_back "42" "c0ffee" "main"
                (Paginator.serve [mkOpenPr 7 (Some "c0ffee") (Some "main")])
                0 42 [] [] [] (mkOpenPr 0 None None) ValueError)
      as (_ & _ & Honly & _).
    apply Honly. vm_compute. reflexivity.
Defined.

(** ** Most-changed files *)

Section SortDescFacts.
Context {A : Type} (key : A -> Z).

Lemma insert_desc_perm :
  forall x l, Permutation (insert_desc key x l) (x :: l).
Proof.
  intros x l. induction l as [ | y l IH]; simpl.
  - apply Permutation_refl.
  - destruct (key y <=? key x).
    + apply Permutation_refl.
    + rewrite IH. apply perm_swap.
Qed.

Lemma sort_desc_perm :
  forall l, Permutation (sort_desc key l) l.
Proof.
  induction l as [ | x l IH]; simpl.
  - apply perm_nil.
  - rewrite insert_desc_perm. now apply perm_skip.
Qed.

Lemma insert_desc_descending :
  forall x l, descending key l -> descending key (insert_desc key x l).
Proof.
  intros x l Hl. induction Hl as [ | y l Hl IH Hy]; simpl.
  - constructor; constructor.
  - destruct (Z.leb_spec (key y) (key x)) as [Hle | Hgt].
    + constructor.
      * now constructor.
      * constructor; [exact Hle | ].
        eapply Forall_impl; [ | exact Hy].
        intros z Hz. simpl in Hz. lia.
    + constructor; [exact IH | ].
      eapply Permutation_Forall.
      * symmetry. apply insert_desc_perm.
      * constructor; [lia | exact Hy].
Qed.

Lemma sort_desc_descending :
  forall l, descending key (sort_desc key l).
Proof.
  induction l as [ | x l IH]; simpl.
  - constructor.
  - now apply insert_desc_descending.
Qed.

Lemma insert_desc_stable :
  forall k x l, with_key key k (insert_desc key x l) = with_key key k (x :: l).
Proof.
  intros k x l. induction l as [ | y l IH].
  - reflexivity.
  - cbn [insert_desc].
    destruct (Z.leb_spec (key y) (key x)) as [Hle | Hgt].
    + reflexivity.
    + unfold with_key in *. cbn [List.filter] in *. rewrite IH.
      destruct (Z.eqb_spec (key y) k) as [Hy | Hy];
        destruct (Z.eqb_spec (key x) k) as [Hx | Hx];
        try reflexivity.
      lia.
Qed.

Lemma sort_desc_stable :
  forall k l, with_key key k (sort_desc key l) = with_key key k l.
Proof.
  intros k l. induction l as [ | x l IH].
  - reflexivity.
  - cbn [sort_desc List.fold_right].
    fold (sort_desc key l). rewrite insert_desc_stable.
    unfold with_key in *. cbn [List.filter]. now rewrite IH.
Qed.

End SortDescFacts.

Lemma or_int_value : forall z, or_int (Some z) 0 = z.
Proof.
  intro z. unfold or_int. destruct (Z.eqb_spec z 0); congruence.
Qed.

(** C8. The most-changed-files section lists the first 10 entries (all of
    them when there are fewer) of the files ranked by additions plus
    deletions: the ranking holds the same files, in descending order of
    that sum, and files with equal sums stand in their original listing
    order.  An entry shows the path, the status and the two counts. *)
Theorem top_files_ranking :
  forall (files : list file) (k : Z) (path state : string) (a d : Z),
    Permutation (PostPrSummary.file_summaries files)
                (List.map PostPrSummary.summarize files)
    /\ descending PostPrSummary.changes_of (PostPrSummary.file_summaries files)
    /\ with_key PostPrSummary.changes_of k (PostPrSummary.file_summaries files)
       = with_key PostPrSummary.changes_of k
           (List.map PostPrSummary.summarize files)
    /\ PostPrSummary.top_files files
       = List.map PostPrSummary.file_entry
           (List.firstn 10 (PostPrSummary.file_summaries files))
    /\ List.length (PostPrSummary.top_files files)
       = Nat.min 10 (List.length files)
    /\ PostPrSummary.changes_of
         (PostPrSummary.summarize (mkFile (Val path) (Val state) (Val a) (Val d)))
       = a + d
    /\ PostPrSummary.file_entry
         (PostPrSummary.summarize (mkFile (Val path) (Val state) (Val a) (Val d)))
       = "- `" ++ path ++ "` (" ++ state ++ ", +" ++ str_of_int a
         ++ "/-" ++ str_of_int d ++ ")".
Proof.
  intros files k path state a d.
  unfold PostPrSummary.file_summaries.
  split; [apply sort_desc_perm | ].
  split; [apply sort_desc_descending | ].
  split; [apply sort_desc_stable | ].
  split; [reflexivity | ].
  split.
  - unfold PostPrSummary.top_files, PostPrSummary.file_summaries.
    rewrite List.length_map, List.length_firstn.
    rewrite (Permutation_length (sort_desc_perm _ _)).
    now rewrite List.length_map.
  - split.
    + unfold PostPrSummary.changes_of, PostPrSummary.summarize.
      cbn [get file_additions file_deletions].
      now rewrite !or_int_value.
    + reflexivity.
Qed.

(** ** Characters *)

Lemma str_app_nil_r : forall a : string, a ++ "" = a.
Proof.
  induction a as [ | x a IH]; simpl; [reflexivity | now rewrite IH].
Qed.

Lemma prefix_app :
  forall a b, String.prefix a (a ++ b) = true.
Proof.
  induction a as [ | c a IH]; intro b; simpl.
  - now destruct b.
  - destruct (ascii_dec c c); [apply IH | congruence].
Qed.

Lemma join_cons : forall g gs, join (g :: gs) = g ++ join gs.
Proof.
  intros g [ | h gs]; unfold join; cbn [String.concat].
  - now rewrite str_app_nil_r.
  - reflexivity.
Qed.

Lemma join_app : forall l1 l2, join (l1 ++ l2)%list = join l1 ++ join l2.
Proof.
  induction l1 as [ | g l1 IH]; intro l2.
  - reflexivity.
  - cbn [List.app]. now rewrite !join_cons, IH, str_app_assoc.
Qed.

(** The characters of a text make up the text. *)
Lemma join_chars : forall s, join (chars s) = s.
Proof.
  induction s as [ | b s IH]; cbn [chars].
  - reflexivity.
  - destruct (chars s) as [ | g gs].
    + cbn in IH. now subst s.
    + rewrite join_cons in IH.
      destruct (continues g); rewrite !join_cons; cbn; now rewrite IH.
Qed.

Lemma chars_nil : forall s, chars s = [] <-> s = "".
Proof.
  intro s. split.
  - intro H. rewrite <- (join_chars s), H. reflexivity.
  - now intros ->.
Qed.

Lemma chars_head :
  forall s g gs, chars s = g :: gs -> continues g = continues s.
Proof.
  intros [ | b s] g gs; cbn [chars]; [discriminate | ].
  destruct (chars s) as [ | h hs]; [ | destruct (continues h)];
    intro H; injection H as <- _; reflexivity.
Qed.

Lemma chars_well_cut : forall s, well_cut (chars s).
Proof.
  induction s as [ | b s [Hone Hopen]]; cbn [chars].
  - split; constructor.
  - destruct (chars s) as [ | g gs].
    + split; repeat constructor.
    + inversion Hone as [ | ? ? Hg Hgs]; subst. cbn [List.tl] in Hopen.
      destruct (continues g) eqn:Hc.
      * split; [ | exact Hopen].
        constructor; [ | exact Hgs].
        destruct g as [ | c r]; [discriminate | ].
        cbn in *. now rewrite Hc, Hg.
      * split; [repeat constructor; trivial | ].
        cbn [List.tl]. now constructor.
Qed.

Lemma one_character_app :
  forall g x,
    one_character g = true -> continues x = false ->
    chars (g ++ x) = g :: chars x.
Proof.
  intros [ | b r] x Hg Hx; [discriminate | ].
  cbn [one_character] in Hg. revert b Hg.
  induction r as [ | c r IH]; intros b Hg.
  - cbn [String.append chars].
    destruct (chars x) as [ | h hs] eqn:E; [reflexivity | ].
    now rewrite (chars_head _ _ _ E), Hx.
  - cbn [all_continuation] in Hg. apply andb_true_iff in Hg as [Hc Hr].
    change (String b (String c r) ++ x) with (String b (String c r ++ x)).
    cbn [chars]. rewrite (IH c Hr). cbn [continues]. now rewrite Hc.
Qed.

Lemma continues_app :
  forall g x, one_character g = true -> continues (g ++ x) = continues g.
Proof.
  intros [ | b r] x Hg; [discriminate | reflexivity].
Qed.

(** A list of characters is what [chars] makes of its join. *)
Lemma chars_join : forall l, well_cut l -> chars (join l) = l.
Proof.
  induction l as [ | g l IH]; intros [Hone Hopen].
  - reflexivity.
  - inversion Hone as [ | ? ? Hg Hl]; subst. cbn [List.tl] in Hopen.
    rewrite join_cons, one_character_app; trivial.
    + f_equal. apply IH. split; [exact Hl | ].
      destruct l as [ | h t]; [constructor | ].
      now inversion Hopen.
    + destruct l as [ | h t]; [reflexivity | ].
      inversion Hopen as [ | ? ? Hh _]; subst.
      inversion Hl as [ | ? ? Hh1 _]; subst.
      now rewrite join_cons, continues_app.
Qed.

Lemma well_cut_prefix :
  forall l r, well_cut (l ++ r)%list -> well_cut l.
Proof.
  intros l r [Hone Hopen]. apply Forall_app in Hone as [Hone _].
  split; [exact Hone | ].
  destruct l as [ | g l]; [constructor | ].
  cbn [List.app List.tl] in *. now apply Forall_app in Hopen.
Qed.

Lemma chars_join_prefix :
  forall s l r, chars s = (l ++ r)%list -> chars (join l) = l.
Proof.
  intros s l r H. apply chars_join. apply (well_cut_prefix l r).
  rewrite <- H. apply chars_well_cut.
Qed.

Lemma chars_app :
  forall a b, continues b = false -> chars (a ++ b) = (chars a ++ chars b)%list.
Proof.
  intros a b Hb.
  rewrite <- (join_chars a) at 1. rewrite <- (join_chars b) at 1.
  rewrite <- join_app. apply chars_join.
  destruct (chars_well_cut a) as [Ha1 Ha2].
  destruct (chars_well_cut b) as [Hb1 Hb2].
  split; [now apply Forall_app | ].
  assert (Hall : Forall (fun g => continues g = false) (chars b)).
  { destruct (chars b) as [ | h t] eqn:E; [constructor | ].
    constructor; [ | exact Hb2].
    now rewrite (chars_head _ _ _ E). }
  destruct (chars a) as [ | g l]; cbn [List.app List.tl] in *.
  - exact Hb2.
  - now apply Forall_app.
Qed.

(** A character of a class is one character of a [str]. *)
Lemma code_point_character :
  forall c n,
    code_point c = Some n -> one_character c = true /\ continues c = false.
Proof.
  intros [ | b r] n; cbn [code_point one_character continues];
    [discriminate | ].
  unfold is_continuation.
  destruct (all_continuation r); cbn [negb]; [ | discriminate].
  destruct (N.ltb_spec (N_of_ascii b) 128) as [Hlow | Hlow].
  - intros _. split; [reflexivity | ].
    apply andb_false_iff. left. apply N.leb_gt. exact Hlow.
  - destruct (N.ltb_spec (N_of_ascii b) 192) as [Hmid | Hmid];
      [discriminate | ].
    intros _. split; [reflexivity | apply andb_false_r].
Qed.

Lemma in_class_character :
  forall table c,
    in_class table c = true -> one_character c = true /\ continues c = false.
Proof.
  intros table c. unfold in_class.
  destruct (code_point c) as [n | ] eqn:E; [ | discriminate].
  intros _. exact (code_point_character c n E).
Qed.

(** ** Commit sections *)

(** [s[:n]] holds the first [n] characters of [s]. *)
Lemma take_chars :
  forall n s, chars (take n s) = List.firstn n (chars s).
Proof.
  intros n s. unfold take.
  apply (chars_join_prefix s _ (List.skipn n (chars s))).
  now rewrite List.firstn_skipn.
Qed.

Lemma take_is_prefix :
  forall n s, String.prefix (take n s) s = true.
Proof.
  intros n s. unfold take.
  rewrite <- (join_chars s) at 2.
  rewrite <- (List.firstn_skipn n (chars s)) at 2.
  rewrite join_app. apply prefix_app.
Qed.

Lemma before_break_splits :
  forall l, exists rest,
    l = (before_break l ++ rest)%list
    /\ (rest = [] \/ exists c r, rest = c :: r /\ is_linebreak c = true).
Proof.
  induction l as [ | c l (rest & Hl & Hrest)]; cbn [before_break].
  - exists []. split; [reflexivity | now left].
  - destruct (is_linebreak c) eqn:Hc.
    + exists (c :: l). split; [reflexivity | ].
      right. now exists c, l.
    + exists rest. split; [ | exact Hrest].
      cbn [List.app]. now rewrite <- Hl.
Qed.

Lemma before_break_one_line :
  forall l c, In c (before_break l) -> is_linebreak c = false.
Proof.
  induction l as [ | x l IH]; cbn [before_break]; intros c Hc.
  - contradiction.
  - destruct (is_linebreak x) eqn:Hx.
    + contradiction.
    + destruct Hc as [<- | Hc]; [exact Hx | now apply IH].
Qed.

(** The line boundaries, by code point. *)
Lemma is_linebreak_spec :
  forall c,
    is_linebreak c = true
    <-> exists n, code_point c = Some n
                  /\ (10 <= n <= 13 \/ 28 <= n <= 30 \/ n = 133
                      \/ n = 8232 \/ n = 8233)%N.
Proof.
  intro c. unfold is_linebreak, in_class.
  destruct (code_point c) as [n | ].
  - unfold in_ranges, line_boundaries.
    cbn [List.existsb fst snd]. rewrite !orb_true_iff, !andb_true_iff.
    rewrite !N.leb_le. split.
    + intro H. exists n. split; [reflexivity | lia].
    + intros (k & Hk & H). injection Hk as <-. lia.
  - split; [discriminate | intros (k & Hk & _); discriminate].
Qed.

(** The first line is followed by nothing or by a line boundary. *)
Lemma first_line_splits :
  forall m, exists rest,
    m = first_line m ++ rest
    /\ (rest = ""
        \/ exists c r, rest = c ++ r /\ is_linebreak c = true).
Proof.
  intro m. unfold first_line.
  destruct (before_break_splits (chars m)) as (rest & Hm & Hrest).
  exists (join rest). split.
  - rewrite <- join_app, <- Hm. symmetry. apply join_chars.
  - destruct Hrest as [-> | (c & r & -> & Hc)]; [now left | right].
    exists c, (join r). split; [apply join_cons | exact Hc].
Qed.

(** The first line holds no line boundary. *)
Lemma first_line_chars :
  forall m, chars (first_line m) = before_break (chars m).
Proof.
  intro m. unfold first_line.
  destruct (before_break_splits (chars m)) as (rest & Hm & _).
  now apply (chars_join_prefix m _ rest).
Qed.

Lemma first_line_one_line :
  forall m c, In c (chars (first_line m)) -> is_linebreak c = false.
Proof.
  intros m c. rewrite first_line_chars. apply before_break_one_line.
Qed.

Lemma recent_commits_length :
  forall commits,
    List.length (PostPrSummary.recent_commits commits)
    = Nat.min 10 (List.length commits).
Proof.
  intro commits. unfold PostPrSummary.recent_commits.
  rewrite List.length_map, List.length_rev, List.length_skipn. lia.
Qed.

(** The i-th entry is the one of the i-th commit counted from the end. *)
Lemma recent_commits_nth :
  forall commits i d,
    (i < Nat.min 10 (List.length commits))%nat ->
    List.nth i (PostPrSummary.recent_commits commits) ""
    = PostPrSummary.commit_entry
        (List.nth (List.length commits - 1 - i) commits d).
Proof.
  intros commits i d Hi. unfold PostPrSummary.recent_commits.
  set (shown := List.skipn (List.length commits - 10) commits).
  assert (Hshown : List.length shown = Nat.min 10 (List.length commits))
    by (unfold shown; rewrite List.length_skipn; lia).
  rewrite (List.nth_indep _ "" (PostPrSummary.commit_entry d))
    by (rewrite List.length_map, List.length_rev; lia).
  rewrite List.map_nth. f_equal.
  rewrite List.rev_nth by lia.
  unfold shown at 2. rewrite List.nth_skipn. f_equal. lia.
Qed.

(** Both scripts print a commit the same way. *)
Lemma push_entry_is_commit_entry :
  forall c,
    CommentOnPush.push_entry (CommentOnPush.push_commit c)
    = PostPrSummary.commit_entry c.
Proof.
  intros [s f]. unfold CommentOnPush.push_entry, CommentOnPush.push_commit,
    PostPrSummary.commit_entry. cbn [sha message].
  destruct f as [ | | m]; cbn [get or_str]; try reflexivity.
  destruct (String.eqb m ""); reflexivity.
Qed.

Lemma push_entries :
  forall commits n,
    List.map CommentOnPush.push_entry
      (List.firstn n (List.map CommentOnPush.push_commit commits))
    = List.firstn n (List.map PostPrSummary.commit_entry commits).
Proof.
  intros commits n. rewrite List.firstn_map, List.map_map.
  rewrite <- List.firstn_map. f_equal.
  apply List.map_ext. apply push_entry_is_commit_entry.
Qed.

Lemma comment_lines_shape :
  forall base commits,
    CommentOnPush.comment_lines base
      (List.map CommentOnPush.push_commit commits)
    = List.app [base; ""; "Recent commits:"]
        (List.app
           (List.firstn 10 (List.map PostPrSummary.commit_entry commits))
           (if (10 <? List.length commits)%nat
            then ["...and "
                  ++ str_of_int (Z.of_nat (List.length commits) - 10)
                  ++ " more."]
            else [])).
Proof.
  intros base commits. unfold CommentOnPush.comment_lines.
  rewrite push_entries, List.length_map.
  destruct (10 <? List.length commits)%nat.
  - rewrite <- List.app_assoc. reflexivity.
  - now rewrite List.app_nil_r.
Qed.

Lemma build_comment_body_lines :
  forall BRANCH SHA b commits,
    b <> "" -> SHA <> "" -> b <> SHA -> commits <> [] ->
    CommentOnPush.build_comment_body BRANCH SHA (Some b) (Ok (Some commits))
    = join_lines
        (CommentOnPush.comment_lines (CommentOnPush.base_line BRANCH SHA)
           (List.map CommentOnPush.push_commit commits)).
Proof.
  intros BRANCH SHA b commits Hb HSHA Hdiff Hcommits.
  unfold CommentOnPush.build_comment_body,
    CommentOnPush.fetch_push_commit_messages.
  apply String.eqb_neq in Hb, HSHA, Hdiff.
  rewrite Hb, HSHA, Hdiff. cbn [orb].
  destruct commits as [ | c commits]; [congruence | reflexivity].
Qed.

(** C7 (as the code has it). In the summary of post_pr_summar.py the
    commits section holds the entries of the last 10 commits fetched (of
    all of them when there are fewer), the most recent first: entry [i] is
    the one of the commit [i] places before the end.  In the push comment
    of comment_on_push.py the section holds the entries of the first 10
    commits of the pushed range in the order fetched, oldest first, and a
    line that counts the commits left out.  In both an entry is the first
    7 characters of the SHA and the first line of the message, and
    "(no message)" when the message is missing or empty.  The first 7
    characters are characters of the text, not bytes; the first line ends
    before the first line boundary of [str.splitlines], which LF, CR, NEL,
    LINE SEPARATOR and the like are. *)
Theorem commits_sections :
  forall (commits : list commit) (i : nat) (d : commit)
         (BRANCH SHA before s m : string),
    (i < Nat.min 10 (List.length commits))%nat ->
    List.length (PostPrSummary.recent_commits commits)
      = Nat.min 10 (List.length commits)
    /\ List.nth i (PostPrSummary.recent_commits commits) ""
       = PostPrSummary.commit_entry
           (List.nth (List.length commits - 1 - i) commits d)
    /\ (before <> "" -> SHA <> "" -> before <> SHA ->
        CommentOnPush.build_comment_body BRANCH SHA (Some before)
          (Ok (Some commits))
        = join_lines
            (CommentOnPush.comment_lines (CommentOnPush.base_line BRANCH SHA)
               (List.map CommentOnPush.push_commit commits)))
    /\ List.nth (3 + i)
         (CommentOnPush.comment_lines (CommentOnPush.base_line BRANCH SHA)
            (List.map CommentOnPush.push_commit commits)) ""
       = PostPrSummary.commit_entry (List.nth i commits d)
    /\ List.length
         (CommentOnPush.comment_lines (CommentOnPush.base_line BRANCH SHA)
            (List.map CommentOnPush.push_commit commits))
       = (3 + Nat.min 10 (List.length commits)
          + (if (10 <? List.length commits)%nat then 1 else 0))%nat
    /\ ((10 < List.length commits)%nat ->
        List.nth 13
          (CommentOnPush.comment_lines (CommentOnPush.base_line BRANCH SHA)
             (List.map CommentOnPush.push_commit commits)) ""
        = "...and " ++ str_of_int (Z.of_nat (List.length commits) - 10)
          ++ " more.")
    /\ PostPrSummary.commit_entry (mkCommit (Some s) (Val m))
       = "- `" ++ take 7 s ++ "` "
         ++ first_line (if String.eqb m "" then "(no message)" else m)
    /\ PostPrSummary.commit_entry (mkCommit (Some s) Missing)
       = "- `" ++ take 7 s ++ "` (no message)"
    /\ PostPrSummary.commit_entry (mkCommit (Some s) Null)
       = "- `" ++ take 7 s ++ "` (no message)"
    /\ chars (take 7 s) = List.firstn 7 (chars s)
    /\ String.prefix (take 7 s) s = true
    /\ (exists rest,
          m = first_line m ++ rest
          /\ (rest = ""
              \/ exists c r, rest = c ++ r /\ is_linebreak c = true))
    /\ (forall c, In c (chars (first_line m)) -> is_linebreak c = false)
    /\ (forall c, is_linebreak c = true
                  <-> exists n, code_point c = Some n
                                /\ (10 <= n <= 13 \/ 28 <= n <= 30 \/ n = 133
                                    \/ n = 8232 \/ n = 8233)%N).
Proof.
  intros commits i d BRANCH SHA before s m Hi.
  set (base := CommentOnPush.base_line BRANCH SHA).
  assert (Hentries :
            List.length
              (List.firstn 10 (List.map PostPrSummary.commit_entry commits))
            = Nat.min 10 (List.length commits))
    by now rewrite List.length_firstn, List.length_map.
  split; [apply recent_commits_length | ].
  split; [now apply recent_commits_nth | ].
  split.
  { intros Hb HSHA Hdiff. apply build_comment_body_lines; trivial.
    intro Hnil. rewrite Hnil in Hi. simpl in Hi. lia. }
  rewrite comment_lines_shape.
  split.
  { change (3 + i)%nat with (S (S (S i))). cbn [List.app List.nth].
    rewrite List.app_nth1 by lia.
    rewrite List.nth_firstn.
    replace (i <? 10)%nat with true by (symmetry; apply Nat.ltb_lt; lia).
    rewrite (List.nth_indep _ "" (PostPrSummary.commit_entry d))
      by (rewrite List.length_map; lia).
    apply List.map_nth. }
  split.
  { cbn [List.app List.length]. rewrite List.length_app, Hentries.
    destruct (10 <? List.length commits)%nat; simpl; lia. }
  split.
  { intro Hmany. cbn [List.app List.nth].
    rewrite List.app_nth2 by lia. rewrite Hentries.
    replace (10 <? List.length commits)%nat with true
      by (symmetry; apply Nat.ltb_lt; lia).
    replace (10 - Nat.min 10 (List.length commits))%nat with 0%nat by lia.
    reflexivity. }
  split.
  { unfold PostPrSummary.commit_entry. cbn [sha message get or_str].
    destruct (String.eqb m ""); reflexivity. }
  split; [reflexivity | ].
  split; [reflexivity | ].
  split; [apply take_chars | ].
  split; [apply take_is_prefix | ].
  split; [apply first_line_splits | ].
  split; [apply first_line_one_line | apply is_linebreak_spec].
Qed.

Lemma commits_sections_witness :
  List.nth 0
    (PostPrSummary.recent_commits
       [mkCommit (Some "aaaaaaa1") (Val "first");
        mkCommit (Some "bbbbbbb2")
          (Val ("second" ++ nl ++ nl ++ "The body of the message."))]) ""
  = "- `bbbbbbb` second"
  /\ List.nth 3
       (CommentOnPush.comment_lines (CommentOnPush.base_line "main" "c0ffee12")
          (List.map CommentOnPush.push_commit
             [mkCommit (Some "aaaaaaa1") (Val "first");
              mkCommit (Some "bbbbbbb2")
                (Val ("second" ++ nl ++ nl ++ "The body of the message."))]))
       ""
     = "- `aaaaaaa` first"
  /\ PostPrSummary.commit_entry
       (mkCommit (Some "ééééééé1")
          (Val ("Mise à jour" ++ LINE_SEPARATOR ++ "suite")))
     = "- `ééééééé` Mise à jour"
  /\ chars (take 7 "ééééééé1") = ["é"; "é"; "é"; "é"; "é"; "é"; "é"].
Proof.
  destruct (commits_sections
              [mkCommit (Some "aaaaaaa1") (Val "first");
               mkCommit (Some "bbbbbbb2")
                 (Val ("second" ++ nl ++ nl ++ "The body of the message."))]
              0 (mkCommit None Missing) "main" "c0ffee12" "0ddba11f"
              "ééééééé1"
              ("Mise à jour" ++ LINE_SEPARATOR ++ "suite"))
    as (_ & Hrecent & _ & Hpush & _ & _ & Hentry & _ & _ & Htake & _).
  - vm_compute. lia.
  - split; [exact Hrecent | ].
    split; [exact Hpush | ].
    split; [exact Hentry | exact Htake].
Defined.

(** The push comment of comment_on_push.py lists the commits oldest first,
    and of eleven commits it leaves out the most recent one. *)
Lemma push_comment_lists_oldest_first :
  CommentOnPush.build_comment_body "main" "c0ffee12" (Some "0ddba11f")
    (Ok (Some [mkCommit (Some "aaaaaaa1") (Val "first");
               mkCommit (Some "bbbbbbb2") (Val "second")]))
  = join_lines
      ["📦 New push detected on `main` at `c0ffee1`.";
       "";
       "Recent commits:";
       "- `aaaaaaa` first";
       "- `bbbbbbb` second"]
  /\ contains "- `0000002` change 20"
       (CommentOnPush.build_comment_body "main" "c0ffee12" (Some "0ddba11f")
          (Ok (Some (List.map
                       (fun k => mkCommit
                                   (Some ("000000" ++ str_of_int (Z.of_nat k)))
                                   (Val ("change " ++ str_of_int (Z.of_nat k))))
                       (List.seq 10 11)))))
     = false.
Proof.
  split; vm_compute; reflexivity.
Qed.

(** ** Linked issues *)

Lemma str_le_cases :
  forall a b, str_le a b <-> a = b \/ str_lt a b.
Proof.
  intros a b. unfold str_le, str_lt, String.leb.
  destruct (String.compare a b) eqn:E.
  - apply String.compare_eq_iff in E. tauto.
  - tauto.
  - split; [discriminate | ].
    intros [-> | H]; [ | discriminate].
    assert (Hrefl : String.compare b b = Eq).
    { clear E. induction b as [ | c b IH]; simpl; [reflexivity | ].
      unfold Ascii.compare. rewrite N.compare_refl. exact IH. }
    congruence.
Qed.

Lemma str_le_trans :
  forall a b c, str_le a b -> str_le b c -> str_le a c.
Proof.
  intros a b c Hab Hbc.
  apply str_le_cases in Hab, Hbc. apply str_le_cases.
  destruct Hab as [-> | Hab]; [exact Hbc | ].
  destruct Hbc as [<- | Hbc]; [now right | ].
  right. unfold str_lt in *.
  apply String_as_OT.cmp_lt. apply String_as_OT.cmp_lt in Hab, Hbc.
  eapply String_as_OT.lt_trans; eassumption.
Qed.

Lemma insert_str_perm :
  forall x l, Permutation (insert_str x l) (x :: l).
Proof.
  intros x l. induction l as [ | y l IH]; simpl.
  - apply Permutation_refl.
  - destruct (String.leb x y).
    + apply Permutation_refl.
    + rewrite IH. apply perm_swap.
Qed.

Lemma sorted_perm :
  forall l, Permutation (sorted l) l.
Proof.
  induction l as [ | x l IH]; simpl.
  - apply perm_nil.
  - rewrite insert_str_perm. now apply perm_skip.
Qed.

Lemma insert_str_ascending :
  forall x l,
    StronglySorted str_le l -> StronglySorted str_le (insert_str x l).
Proof.
  intros x l Hl. induction Hl as [ | y l Hl IH Hy]; simpl.
  - constructor; constructor.
  - destruct (String.leb x y) eqn:Hxy.
    + constructor.
      * now constructor.
      * constructor; [exact Hxy | ].
        eapply Forall_impl; [ | exact Hy].
        intros z Hz. now apply (str_le_trans x y z).
    + constructor; [exact IH | ].
      eapply Permutation_Forall.
      * symmetry. apply insert_str_perm.
      * constructor; [ | exact Hy].
        destruct (String.leb_total x y) as [H | H]; [congruence | exact H].
Qed.

Lemma sorted_ascending :
  forall l, StronglySorted str_le (sorted l).
Proof.
  induction l as [ | x l IH]; simpl.
  - constructor.
  - now apply insert_str_ascending.
Qed.

(** Two ascending lists with the same elements are the same list. *)
Lemma ascending_unique :
  forall l1 l2,
    StronglySorted str_le l1 -> StronglySorted str_le l2 ->
    Permutation l1 l2 -> l1 = l2.
Proof.
  induction l1 as [ | a l1 IH]; intros l2 H1 H2 Hperm.
  - apply Permutation_nil in Hperm. now subst.
  - destruct l2 as [ | b l2].
    + symmetry in Hperm. apply Permutation_nil in Hperm. discriminate.
    + inversion H1 as [ | ? ? Hs1 Ha]; subst.
      inversion H2 as [ | ? ? Hs2 Hb]; subst.
      assert (Hab : a = b).
      { assert (Hina : In a (b :: l2))
          by (eapply Permutation_in; [exact Hperm | now left]).
        assert (Hinb : In b (a :: l1))
          by (eapply Permutation_in;
              [symmetry; exact Hperm | now left]).
        destruct Hina as [-> | Hina]; [reflexivity | ].
        destruct Hinb as [-> | Hinb]; [reflexivity | ].
        rewrite Forall_forall in Ha, Hb.
        apply String.leb_antisym; [now apply Ha | now apply Hb]. }
      subst b. f_equal. apply IH; trivial.
      now apply Permutation_cons_inv in Hperm.
Qed.

(** [sorted] does not depend on the order in which it is fed. *)
Lemma sorted_of_permutation :
  forall l1 l2, Permutation l1 l2 -> sorted l1 = sorted l2.
Proof.
  intros l1 l2 Hperm.
  apply ascending_unique; try apply sorted_ascending.
  rewrite !sorted_perm. exact Hperm.
Qed.

Lemma ascending_nodup_strict :
  forall l,
    StronglySorted str_le l -> NoDup l -> StronglySorted str_lt l.
Proof.
  intros l Hl. induction Hl as [ | x l Hl IH Hx]; intro Hnd.
  - constructor.
  - inversion Hnd as [ | ? ? Hnotin Hnd']; subst.
    constructor; [now apply IH | ].
    rewrite Forall_forall in Hx |- *. intros y Hy.
    destruct (proj1 (str_le_cases x y) (Hx y Hy)) as [-> | Hlt];
      [contradiction | exact Hlt].
Qed.

Lemma linked_nodup : forall text, NoDup (PostPrSummary.linked text).
Proof.
  intro text. apply List.NoDup_nodup.
Qed.

Lemma sorted_linked_any_order :
  forall set_iter text,
    set_order set_iter ->
    PostPrSummary.sorted_linked set_iter text
    = sorted (PostPrSummary.linked text).
Proof.
  intros set_iter text Hiter. unfold PostPrSummary.sorted_linked.
  apply sorted_of_permutation. apply Hiter. apply linked_nodup.
Qed.

Lemma flush_app :
  forall cur l, (flush cur [] ++ l)%list = flush cur l.
Proof.
  intros [ | c cur] l; reflexivity.
Qed.

(** Splitting at a whitespace character splits the token list. *)
Lemma tokens_at_space :
  forall l1 cur c l2,
    is_space c = true ->
    tokens (l1 ++ c :: l2) cur = (tokens l1 cur ++ tokens l2 [])%list.
Proof.
  induction l1 as [ | x l1 IH]; intros cur c l2 Hc; cbn [List.app tokens].
  - rewrite Hc. now rewrite flush_app.
  - destruct (is_space x).
    + rewrite (IH [] c l2 Hc). destruct cur; reflexivity.
    + now apply IH.
Qed.

Lemma tokens_word :
  forall l cur,
    Forall (fun x => is_space x = false) l ->
    tokens l cur = flush (List.rev l ++ cur)%list [].
Proof.
  induction l as [ | c l IH]; intros cur Hl; cbn [tokens].
  - reflexivity.
  - inversion Hl as [ | ? ? Hc Hl']; subst. rewrite Hc.
    rewrite IH by exact Hl'. cbn [List.rev].
    now rewrite <- List.app_assoc.
Qed.

Lemma split_at_space :
  forall a c b,
    is_space c = true -> continues b = false ->
    split (a ++ c ++ b) = (split a ++ split b)%list.
Proof.
  intros a c b Hc Hb. unfold split.
  destruct (in_class_character _ _ Hc) as [Hone Hopen].
  rewrite chars_app by (now rewrite continues_app).
  rewrite one_character_app by trivial.
  now apply tokens_at_space.
Qed.

Lemma split_word :
  forall s,
    s <> "" ->
    Forall (fun x => is_space x = false) (chars s) ->
    split s = [s].
Proof.
  intros s Hs Hword. unfold split. rewrite tokens_word by exact Hword.
  rewrite List.app_nil_r. unfold flush.
  destruct (List.rev (chars s)) eqn:E.
  - apply (f_equal (@List.length string)) in E.
    rewrite List.length_rev in E.
    destruct (chars s) eqn:E'; [ | discriminate].
    apply chars_nil in E'. contradiction.
  - now rewrite <- E, List.rev_involutive, join_chars.
Qed.

(** The whitespace characters, by code point. *)
Lemma is_space_spec :
  forall c,
    is_space c = true
    <-> exists n, code_point c = Some n
                  /\ (9 <= n <= 13 \/ 28 <= n <= 32 \/ n = 133 \/ n = 160
                      \/ n = 5760 \/ 8192 <= n <= 8202 \/ n = 8232
                      \/ n = 8233 \/ n = 8239 \/ n = 8287 \/ n = 12288)%N.
Proof.
  intro c. unfold is_space, in_class.
  destruct (code_point c) as [n | ].
  - unfold in_ranges, whitespace.
    cbn [List.existsb fst snd]. rewrite !orb_true_iff, !andb_true_iff.
    rewrite !N.leb_le. split.
    + intro H. exists n. split; [reflexivity | lia].
    + intros (k & Hk & H). injection Hk as <-. lia.
  - split; [discriminate | intros (k & Hk & _); discriminate].
Qed.

Lemma is_issue_token_spec :
  forall t,
    PostPrSummary.is_issue_token t = true
    <-> exists ds,
          t = String "#" ds /\ ds <> ""
          /\ Forall (fun c => is_digit c = true) (chars ds).
Proof.
  intro t. unfold PostPrSummary.is_issue_token, startswith.
  assert (Hdigits :
            forall ds, isdigit ds = true
                       <-> ds <> ""
                           /\ Forall (fun c => is_digit c = true) (chars ds)).
  { intro ds. unfold isdigit. rewrite <- (chars_nil ds).
    destruct (chars ds) as [ | g gs].
    - split; [discriminate | intros [H _]; congruence].
    - rewrite List.forallb_forall, List.Forall_forall.
      split; [intro H; split; [discriminate | exact H] | now intros [_ H] ]. }
  destruct t as [ | c ds]; cbn [String.prefix PostPrSummary.tail andb].
  - split; [discriminate | intros (ds & H & _); discriminate].
  - destruct (ascii_dec "#" c) as [<- | Hc]; cbn [andb].
    + replace (String.prefix "" ds) with true by (now destruct ds).
      cbn [andb]. rewrite Hdigits. split.
      * intro H. now exists ds.
      * intros (ds' & H & Hd). now injection H as <-.
    + split; [discriminate | intros (ds' & H & _)].
      injection H as H _. congruence.
Qed.

Lemma sorted_linked_members :
  forall set_iter text t,
    set_order set_iter ->
    (In t (PostPrSummary.sorted_linked set_iter text)
     <-> In t (split (replace_nl_by_space text))
         /\ PostPrSummary.is_issue_token t = true).
Proof.
  intros set_iter text t Hiter.
  rewrite sorted_linked_any_order by exact Hiter.
  unfold PostPrSummary.linked, set_of.
  split.
  - intro H. apply (Permutation_in _ (sorted_perm _)) in H.
    apply List.nodup_In in H. now apply List.filter_In in H.
  - intro H. apply List.filter_In in H.
    apply (List.nodup_In string_dec) in H.
    eapply Permutation_in; [symmetry; apply sorted_perm | exact H].
Qed.

Lemma identity_is_set_order : set_order (fun l => l).
Proof.
  intros l _. apply Permutation_refl.
Qed.

Lemma reverse_is_set_order : set_order (@List.rev string).
Proof.
  intros l _. symmetry. apply Permutation_rev.
Qed.

(** Below 128 the digits of [str.isdigit] are "0" to "9". *)
Lemma is_digit_ascii :
  forall c n,
    code_point c = Some n -> (n < 128)%N ->
    (is_digit c = true <-> (48 <= n <= 57)%N).
Proof.
  intros c n Hc Hn. unfold is_digit, in_class. rewrite Hc.
  unfold in_ranges, digits. cbn [List.existsb fst snd].
  destruct (N.leb_spec 48 n) as [Hlo | Hlo];
    destruct (N.leb_spec n 57) as [Hhi | Hhi]; cbn [andb orb].
  - split; [lia | reflexivity].
  - replace (178 <=? n)%N with false by (symmetry; apply N.leb_gt; lia).
    cbn [andb orb].
    repeat match goal with
           | |- context [(?k <=? n)%N] =>
               replace (k <=? n)%N with false
                 by (symmetry; apply N.leb_gt; lia);
               cbn [andb orb]
           end.
    split; [discriminate | lia].
  - repeat match goal with
           | |- context [(?k <=? n)%N] =>
               replace (k <=? n)%N with false
                 by (symmetry; apply N.leb_gt; lia);
               cbn [andb orb]
           end.
    split; [discriminate | lia].
  - lia.
Qed.

(** C5 (as the code has it). The linked issues are the tokens of the
    body, split at whitespace, that are a '#' followed by one digit or
    more and by nothing else; each is listed once, and the list is in
    ascending [str] order whatever order the set is read in.  Whitespace
    and digits are those of [str.split] and [str.isdigit]: a no-break
    space separates two tokens, and a superscript two or a fullwidth
    seven is a digit; below 128 the digits are "0" to "9".  For
    "fixes #12 and relates to #7, see #12" the list is ["#12"] alone,
    since the token "#7," ends in a comma; without that comma it is
    ["#12"; "#7"]. *)
Theorem linked_issues_extraction :
  forall (set_iter : list string -> list string) (text t a b c : string)
         (n : N),
    set_order set_iter ->
    StronglySorted str_lt (PostPrSummary.sorted_linked set_iter text)
    /\ (In t (PostPrSummary.sorted_linked set_iter text)
        <-> In t (split (replace_nl_by_space text))
            /\ exists ds,
                 t = String "#" ds /\ ds <> ""
                 /\ Forall (fun d => is_digit d = true) (chars ds))
    /\ (is_space c = true -> continues b = false ->
        split (a ++ c ++ b) = (split a ++ split b)%list)
    /\ (a <> "" ->
        Forall (fun x => is_space x = false) (chars a) ->
        split a = [a])
    /\ split "" = []
    /\ (is_space c = true
        <-> exists k, code_point c = Some k
                      /\ (9 <= k <= 13 \/ 28 <= k <= 32 \/ k = 133 \/ k = 160
                          \/ k = 5760 \/ 8192 <= k <= 8202 \/ k = 8232
                          \/ k = 8233 \/ k = 8239 \/ k = 8287
                          \/ k = 12288)%N)
    /\ (code_point c = Some n -> (n < 128)%N ->
        (is_digit c = true <-> (48 <= n <= 57)%N))
    /\ is_digit SUPERSCRIPT_TWO = true
    /\ is_digit FULLWIDTH_SEVEN = true
    /\ PostPrSummary.sorted_linked set_iter
         "fixes #12 and relates to #7, see #12" = ["#12"]
    /\ PostPrSummary.sorted_linked set_iter
         "fixes #12 and relates to #7 see #12" = ["#12"; "#7"]
    /\ PostPrSummary.sorted_linked set_iter
         ("#5" ++ NO_BREAK_SPACE ++ "#" ++ SUPERSCRIPT_TWO ++ nl
          ++ "#" ++ FULLWIDTH_SEVEN)
       = ["#5"; "#" ++ SUPERSCRIPT_TWO; "#" ++ FULLWIDTH_SEVEN].
Proof.
  intros set_iter text t a b c n Hiter.
  split.
  { rewrite sorted_linked_any_order by exact Hiter.
    apply ascending_nodup_strict; [apply sorted_ascending | ].
    eapply Permutation_NoDup;
      [symmetry; apply sorted_perm | apply linked_nodup]. }
  split.
  { rewrite sorted_linked_members by exact Hiter.
    now rewrite is_issue_token_spec. }
  split; [apply split_at_space | ].
  split; [apply split_word | ].
  split; [reflexivity | ].
  split; [apply is_space_spec | ].
  split; [apply is_digit_ascii | ].
  split; [reflexivity | ].
  split; [reflexivity | ].
  repeat split; rewrite sorted_linked_any_order by exact Hiter;
    vm_compute; reflexivity.
Qed.

Lemma linked_issues_extraction_witness :
  StronglySorted str_lt
    (PostPrSummary.sorted_linked (@List.rev string) "closes #9 #10 #9")
  /\ PostPrSummary.sorted_linked (@List.rev string)
       "fixes #12 and relates to #7, see #12" = ["#12"]
  /\ PostPrSummary.sorted_linked (@List.rev string)
       ("#5" ++ NO_BREAK_SPACE ++ "#" ++ SUPERSCRIPT_TWO ++ nl
        ++ "#" ++ FULLWIDTH_SEVEN)
     = ["#5"; "#" ++ SUPERSCRIPT_TWO; "#" ++ FULLWIDTH_SEVEN]
  /\ split ("see" ++ NO_BREAK_SPACE ++ "#4") = (split "see" ++ split "#4")%list
  /\ split ("#" ++ FULLWIDTH_SEVEN) = ["#" ++ FULLWIDTH_SEVEN]
  /\ (is_digit "7" = true <-> (48 <= 55 <= 57)%N).
Proof.
  destruct (linked_issues_extraction (@List.rev string)
              "closes #9 #10 #9" "#9" "see" "#4" NO_BREAK_SPACE 0%N
              reverse_is_set_order)
    as (Hsorted & _ & Hsplit & _ & _ & _ & _ & _ & _ & Hcomma & _ & Hwide).
  destruct (linked_issues_extraction (@List.rev string)
              "" "" ("#" ++ FULLWIDTH_SEVEN) "" "7" 55%N
              reverse_is_set_order)
    as (_ & _ & _ & Hword & _ & _ & Hdigit & _).
  split; [exact Hsorted | ].
  split; [exact Hcomma | ].
  split; [exact Hwide | ].
  split; [apply Hsplit; reflexivity | ].
  split.
  - apply Hword; [discriminate | ].
    apply List.Forall_forall. intros x Hx. vm_compute in Hx.
    destruct Hx as [<- | [<- | []]]; reflexivity.
  - apply Hdigit; [reflexivity | vm_compute; reflexivity].
Defined.

(** For the body of the specification's example only "#12" is linked. *)
Lemma comma_token_is_not_linked :
  PostPrSummary.linked "fixes #12 and relates to #7, see #12" = ["#12"]
  /\ In "#7," (split (replace_nl_by_space
                        "fixes #12 and relates to #7, see #12"))
  /\ PostPrSummary.is_issue_token "#7," = false
  /\ PostPrSummary.sorted_linked (fun l => l)
       "fixes #12 and relates to #7, see #12" <> ["#12"; "#7"].
Proof.
  repeat split; try (vm_compute; reflexivity).
  - vm_compute. tauto.
  - vm_compute. discriminate.
Qed.

(** ** Determinism of the formatter *)

(** C9. The formatted summary is a function of the pull request, the
    commits and the files alone: it reads no clock, and the one place
    where the interpreter has a choice, the order in which the set of
    linked issues is read, does not show in the text. *)
Theorem format_summary_deterministic :
  forall (iter1 iter2 : list string -> list string)
         (pr : pull) (commits : list commit) (files : list file),
    set_order iter1 ->
    set_order iter2 ->
    PostPrSummary.format_summary iter1 pr commits files
    = PostPrSummary.format_summary iter2 pr commits files.
Proof.
  intros iter1 iter2 pr commits files H1 H2.
  unfold PostPrSummary.format_summary, PostPrSummary.summary_lines.
  now rewrite (sorted_linked_any_order iter1), (sorted_linked_any_order iter2).
Qed.

Lemma format_summary_deterministic_witness :
  PostPrSummary.format_summary (fun l => l)
    (mkPull (Val "Add cache") (Val "octo") (Val "cache") (Val "main")
            (Some 300) (Some 50) (Val 2) (Val "fixes #7 and #12"))
    [mkCommit (Some "c0ffee1234") (Val "Add cache")]
    [mkFile (Val "cache.py") (Val "added") (Val 300) (Val 50)]
  = PostPrSummary.format_summary (@List.rev string)
      (mkPull (Val "Add cache") (Val "octo") (Val "cache") (Val "main")
              (Some 300) (Some 50) (Val 2) (Val "fixes #7 and #12"))
      [mkCommit (Some "c0ffee1234") (Val "Add cache")]
      [mkFile (Val "cache.py") (Val "added") (Val 300) (Val 50)].
Proof.
  apply format_summary_deterministic.
  - exact identity_is_set_order.
  - exact reverse_is_set_order.
Defined.

(** ** Comment reconciliation *)

Lemma contains_prefix :
  forall a b, contains a (a ++ b) = true.
Proof.
  intros a b. destruct (a ++ b) eqn:E; cbn [contains];
    rewrite <- E, prefix_app; reflexivity.
Qed.

Lemma prefix_spec :
  forall a s, String.prefix a s = true <-> exists post, s = a ++ post.
Proof.
  induction a as [ | x a IH]; intros [ | y s]; cbn [String.prefix].
  - split; [now exists "" | reflexivity].
  - split; [now exists (String y s) | reflexivity].
  - split; [discriminate | intros [post H]; discriminate].
  - destruct (ascii_dec x y) as [<- | Hxy].
    + rewrite IH. split; intros [post H]; exists post.
      * cbn. now rewrite H.
      * now injection H.
    + split; [discriminate | intros [post H]].
      injection H as H _. congruence.
Qed.

(** [sub in s] holds exactly when [s] is some text, [sub], some text. *)
Lemma contains_spec :
  forall sub s,
    contains sub s = true <-> exists pre post, s = pre ++ sub ++ post.
Proof.
  intros sub s. split.
  - induction s as [ | c s IH]; cbn [contains];
      destruct (String.prefix sub _) eqn:E.
    + intros _. apply prefix_spec in E. destruct E as [post E].
      exists "", post. exact E.
    + discriminate.
    + intros _. apply prefix_spec in E. destruct E as [post E].
      exists "", post. exact E.
    + intro H. destruct (IH H) as (pre & post & ->).
      now exists (String c pre), post.
  - intros (pre & post & ->). induction pre as [ | c pre IH].
    + change ("" ++ sub ++ post) with (sub ++ post). apply contains_prefix.
    + change (String c pre ++ sub ++ post)
        with (String c (pre ++ sub ++ post)).
      cbn [contains]. rewrite IH.
      now destruct (String.prefix sub (String c (pre ++ sub ++ post))).
Qed.

(** The test of the reconciler finds the comments that carry the marker. *)
Lemma is_summary_comment_spec :
  forall c, PostPrSummary.is_summary_comment c = true <-> carries_marker c.
Proof.
  intros [cid [ | | b]]; unfold PostPrSummary.is_summary_comment,
    carries_marker; cbn [comment_body get or_str].
  - split; [discriminate | intros (b & pre & post & H & _); discriminate].
  - split; [discriminate | intros (b & pre & post & H & _); discriminate].
  - destruct (String.eqb_spec b "") as [-> | _].
    + split; [discriminate | intros (b & pre & post & H & Hb)].
      injection H as <-. destruct pre; discriminate.
    + rewrite contains_spec. split.
      * intros (pre & post & H). now exists b, pre, post.
      * intros (b' & pre & post & H & Hb). injection H as <-.
        now exists pre, post.
Qed.

Lemma marker_comments_spec :
  forall (st : Forge.store) c,
    In c (marker_comments st) <-> In c st /\ carries_marker c.
Proof.
  intros st c. unfold marker_comments.
  now rewrite List.filter_In, is_summary_comment_spec.
Qed.

(** The first element that passes a test, and what stands before it. *)
Lemma find_split :
  forall (A : Type) (test : A -> bool) (l : list A) (x : A),
    List.find test l = Some x ->
    exists l1 l2,
      l = (l1 ++ x :: l2)%list /\ test x = true
      /\ forall y, In y l1 -> test y = false.
Proof.
  intros A test l x. induction l as [ | y l IH]; cbn [List.find].
  - discriminate.
  - destruct (test y) eqn:Hy.
    + intro H. injection H as <-. exists [], l.
      repeat split; trivial. intros z [].
    + intro H. destruct (IH H) as (l1 & l2 & -> & Hx & Hl1).
      exists (y :: l1), l2. repeat split; trivial.
      intros z [<- | Hz]; [exact Hy | now apply Hl1].
Qed.

(** The last comment that carries the marker, and what stands after it. *)
Lemma find_latest_marker :
  forall (st : Forge.store) (c : comment),
    List.find PostPrSummary.is_summary_comment (List.rev st) = Some c ->
    exists before after,
      st = (before ++ c :: after)%list /\ carries_marker c
      /\ forall x, In x after -> ~ carries_marker x.
Proof.
  intros st c Hfind.
  destruct (find_split _ _ _ _ Hfind) as (l1 & l2 & Hrev & Hc & Hl1).
  exists (List.rev l2), (List.rev l1). split; [ | split].
  - rewrite <- (List.rev_involutive st), Hrev, List.rev_app_distr.
    cbn [List.rev]. now rewrite <- List.app_assoc.
  - now apply is_summary_comment_spec.
  - intros x Hx Hmark. apply List.in_rev in Hx.
    apply is_summary_comment_spec in Hmark.
    rewrite (Hl1 x Hx) in Hmark. discriminate.
Qed.

Lemma ids_apart :
  forall (before after : Forge.store) (c x : comment),
    NoDup (List.map id (before ++ c :: after)%list) ->
    In x (before ++ after)%list ->
    Forge.has_id (id c) x = false.
Proof.
  intros before after c x Hnd Hx.
  rewrite List.map_app in Hnd. cbn [List.map] in Hnd.
  apply NoDup_remove_2 in Hnd.
  unfold Forge.has_id. apply Z.eqb_neq. intro Heq. apply Hnd.
  rewrite <- List.map_app, <- Heq. now apply List.in_map.
Qed.

Lemma patched_elsewhere :
  forall cid text (l : Forge.store),
    (forall x, In x l -> Forge.has_id cid x = false) ->
    List.map (patched cid text) l = l.
Proof.
  intros cid text l Hl. rewrite <- (List.map_id l) at 2.
  apply List.map_ext_in. intros x Hx. unfold patched.
  now rewrite (Hl x Hx).
Qed.

Lemma summary_lines_head :
  forall set_iter pr commits files,
  exists rest,
    PostPrSummary.summary_lines set_iter pr commits files
    = PostPrSummary.MARKER :: "### PR Summary" :: rest.
Proof.
  intros set_iter pr commits files. unfold PostPrSummary.summary_lines.
  repeat match goal with
         | |- context [match ?x with [] => _ | _ :: _ => _ end] => destruct x
         end;
    cbn [List.app]; eexists; reflexivity.
Qed.

(** The formatted summary carries the marker, on its first line. *)
Lemma format_summary_has_marker :
  forall set_iter pr commits files,
    contains PostPrSummary.MARKER
      (PostPrSummary.format_summary set_iter pr commits files) = true.
Proof.
  intros set_iter pr commits files. unfold PostPrSummary.format_summary.
  destruct (summary_lines_head set_iter pr commits files) as [rest ->].
  unfold join_lines. cbn [String.concat]. apply contains_prefix.
Qed.

Lemma marker_of_text :
  forall cid text,
    contains PostPrSummary.MARKER text = true ->
    PostPrSummary.is_summary_comment (mkComment cid (Val text)) = true.
Proof.
  intros cid text Htext. unfold PostPrSummary.is_summary_comment.
  cbn [comment_body get or_str].
  destruct (String.eqb_spec text "") as [-> | _]; [ | exact Htext].
  discriminate Htext.
Qed.

Lemma same_id_same_comment :
  forall (st : Forge.store) x y,
    NoDup (List.map id st) -> In x st -> In y st -> id x = id y -> x = y.
Proof.
  induction st as [ | z st IH]; intros x y Hnd Hx Hy Hid.
  - contradiction.
  - cbn [List.map] in Hnd. inversion Hnd as [ | ? ? Hz Hnd']; subst.
    destruct Hx as [-> | Hx]; destruct Hy as [-> | Hy].
    + reflexivity.
    + exfalso. apply Hz. rewrite Hid. now apply List.in_map.
    + exfalso. apply Hz. rewrite <- Hid. now apply List.in_map.
    + now apply IH.
Qed.

Section Patch.
Variables (cid : Z) (text : string).

Lemma patched_id : forall c, id (patched cid text c) = id c.
Proof.
  intro c. unfold patched. now destruct (Forge.has_id cid c).
Qed.

Lemma patched_twice :
  forall c, patched cid text (patched cid text c) = patched cid text c.
Proof.
  intro c. unfold patched at 2.
  destruct (Forge.has_id cid c) eqn:E; unfold patched.
  - unfold Forge.has_id in *. cbn [id]. now rewrite E.
  - now rewrite E.
Qed.

Lemma find_map_preserved :
  forall (test : comment -> bool) (l : list comment),
    (forall x, In x l -> test (patched cid text x) = test x) ->
    List.find test (List.map (patched cid text) l)
    = option_map (patched cid text) (List.find test l).
Proof.
  intros test l. induction l as [ | x l IH]; intro Hl; simpl.
  - reflexivity.
  - rewrite (Hl x) by (now left). destruct (test x).
    + reflexivity.
    + apply IH. intros y Hy. apply Hl. now right.
Qed.

Lemma filter_map_preserved :
  forall (test : comment -> bool) (l : list comment),
    (forall x, In x l -> test (patched cid text x) = test x) ->
    List.filter test (List.map (patched cid text) l)
    = List.map (patched cid text) (List.filter test l).
Proof.
  intros test l. induction l as [ | x l IH]; intro Hl; simpl.
  - reflexivity.
  - rewrite (Hl x) by (now left).
    rewrite IH by (intros y Hy; apply Hl; now right).
    now destruct (test x).
Qed.

End Patch.

Lemma patch_present :
  forall (st : Forge.store) c text,
    In c st ->
    Forge.patch (id c) text st = Ok (List.map (patched (id c) text) st).
Proof.
  intros st c text Hc. unfold Forge.patch.
  replace (List.existsb (Forge.has_id (id c)) st) with true; [reflexivity | ].
  symmetry. apply List.existsb_exists. exists c. split; [exact Hc | ].
  unfold Forge.has_id. apply Z.eqb_refl.
Qed.

Lemma find_existing_on_store :
  forall (st : Forge.store) fuel,
    (requests (List.length st) <= fuel)%nat ->
    PostPrSummary.find_existing_summary_comment (Forge.list_comments st) fuel
    = Ok (option_map id
            (List.find PostPrSummary.is_summary_comment (List.rev st))).
Proof.
  intros st fuel Hfuel.
  unfold PostPrSummary.find_existing_summary_comment, PostPrSummary.paginate,
    Forge.list_comments.
  now rewrite (pages_serve st fuel Hfuel).
Qed.

(** The reconciler finds the most recent marker comment of a store that
    has one. *)
Lemma latest_marker_found :
  forall st : Forge.store,
    marker_comments st <> [] ->
    exists c,
      List.find PostPrSummary.is_summary_comment (List.rev st) = Some c
      /\ In c st
      /\ PostPrSummary.is_summary_comment c = true.
Proof.
  intros st Hsome.
  destruct (List.find PostPrSummary.is_summary_comment (List.rev st))
    as [c | ] eqn:Hfind.
  - exists c. apply List.find_some in Hfind. destruct Hfind as [Hin Hc].
    apply List.in_rev in Hin. now repeat split.
  - exfalso. apply Hsome. unfold marker_comments.
    destruct (List.filter PostPrSummary.is_summary_comment st)
      as [ | x l] eqn:Hfilter; [reflexivity | ].
    assert (Hx : In x (List.filter PostPrSummary.is_summary_comment st))
      by (rewrite Hfilter; now left).
    apply List.filter_In in Hx. destruct Hx as [Hin Hx].
    apply List.in_rev in Hin.
    rewrite (List.find_none _ _ Hfind x Hin) in Hx. discriminate.
Qed.

(** Upsert with any text that carries the marker, on a store that holds a
    marker comment: the most recent marker comment [c] is patched, and a
    second run patches it again to the same effect. *)
Lemma upsert_in_place :
  forall (st : Forge.store) (text : string) (fuel : nat),
    well_formed st ->
    (requests (List.length st) <= fuel)%nat ->
    contains PostPrSummary.MARKER text = true ->
    marker_comments st <> [] ->
    exists c,
      In c (marker_comments st)
      /\ PostPrSummary.upsert text fuel st
         = Ok (PostPrSummary.Updated (id c),
               List.map (patched (id c) text) st)
      /\ PostPrSummary.upsert text fuel (List.map (patched (id c) text) st)
         = Ok (PostPrSummary.Updated (id c),
               List.map (patched (id c) text) st)
      /\ marker_comments (List.map (patched (id c) text) st)
         = List.map (patched (id c) text) (marker_comments st)
      /\ patched (id c) text c = mkComment (id c) (Val text).
Proof.
  intros st text fuel [Hnd Hpos] Hfuel Htext Hsome.
  destruct (latest_marker_found st Hsome) as (c & Hfind & Hin & Hc).
  exists c.
  assert (Hid : (id c =? 0) = false).
  { apply Z.eqb_neq. rewrite Forall_forall in Hpos.
    specialize (Hpos c Hin). lia. }
  assert (Hkeep : forall x, In x st ->
            PostPrSummary.is_summary_comment (patched (id c) text x)
            = PostPrSummary.is_summary_comment x).
  { intros x Hx. unfold patched.
    destruct (Forge.has_id (id c) x) eqn:E; [ | reflexivity].
    unfold Forge.has_id in E. apply Z.eqb_eq in E.
    rewrite (same_id_same_comment st x c Hnd Hx Hin E), Hc.
    now apply marker_of_text. }
  assert (Hc' : patched (id c) text c = mkComment (id c) (Val text)).
  { unfold patched, Forge.has_id. now rewrite Z.eqb_refl. }
  split; [unfold marker_comments; now apply List.filter_In | ].
  split.
  { unfold PostPrSummary.upsert.
    rewrite (find_existing_on_store st fuel Hfuel), Hfind.
    cbn [bind option_map]. rewrite Hid.
    unfold PostPrSummary.update_comment.
    now rewrite (patch_present st c text Hin). }
  split.
  { unfold PostPrSummary.upsert.
    rewrite find_existing_on_store by (now rewrite List.length_map).
    rewrite <- List.map_rev.
    rewrite find_map_preserved
      by (intros x Hx; apply Hkeep; now apply List.in_rev).
    rewrite Hfind. cbn [bind option_map]. rewrite patched_id, Hid.
    unfold PostPrSummary.update_comment.
    pose proof (patch_present (List.map (patched (id c) text) st)
                  (patched (id c) text c) text
                  (List.in_map _ _ _ Hin)) as Hpatch.
    rewrite patched_id in Hpatch. rewrite Hpatch. cbn [bind].
    rewrite List.map_map.
    rewrite (List.map_ext _ _ (patched_twice (id c) text)).
    reflexivity. }
  split; [ | exact Hc'].
  unfold marker_comments. now apply filter_map_preserved.
Qed.

(** C1 (as the code has it). On a pull request that carries a marker
    comment (the forge keeps comment ids distinct and positive), a run of
    [main] updates the most recent marker comment and creates none: the
    store keeps its comments, under the same ids; the comment updated is
    the last one whose body holds the marker, it now holds the formatted
    text, and no other comment is touched, so that there are as many
    marker comments as before.  A second run with the same formatted body
    is again an update of the same comment and leaves the store as the
    first run left it.  The comment updated is the only marker comment
    when there was one to begin with; older marker comments stay. *)
Theorem upsert_updates_in_place :
  forall (set_iter : list string -> list string) (pr : pull)
         (commits : list commit) (files : list file)
         (st : Forge.store) (fuel : nat),
    well_formed st ->
    (requests (List.length st) <= fuel)%nat ->
    (exists c, In c st /\ carries_marker c) ->
    exists (cid : Z) (st' : Forge.store),
      PostPrSummary.main set_iter pr commits files fuel st
        = Ok (PostPrSummary.Updated cid, st')
      /\ PostPrSummary.main set_iter pr commits files fuel st'
         = Ok (PostPrSummary.Updated cid, st')
      /\ List.map id st' = List.map id st
      /\ List.length (marker_comments st') = List.length (marker_comments st)
      /\ In (mkComment cid
               (Val (PostPrSummary.format_summary set_iter pr commits files)))
            (marker_comments st')
      /\ (List.length (marker_comments st) = 1%nat ->
          marker_comments st'
          = [mkComment cid
               (Val (PostPrSummary.format_summary set_iter pr commits files))])
      /\ (exists (before after : Forge.store) (c : comment),
            st = (before ++ c :: after)%list
            /\ id c = cid
            /\ carries_marker c
            /\ (forall x, In x after -> ~ carries_marker x)
            /\ st' = (before
                      ++ mkComment cid
                           (Val (PostPrSummary.format_summary
                                   set_iter pr commits files))
                      :: after)%list)
      /\ (forall x, In x (marker_comments st) <-> In x st /\ carries_marker x)
      /\ (forall x, In x (marker_comments st')
                    <-> In x st' /\ carries_marker x).
Proof.
  intros set_iter pr commits files st fuel Hwf Hfuel (m & Hm & Hmark).
  set (text := PostPrSummary.format_summary set_iter pr commits files).
  assert (Hsome : marker_comments st <> []).
  { intro Hnone.
    assert (Hin : In m (marker_comments st))
      by (apply marker_comments_spec; now split).
    rewrite Hnone in Hin. contradiction. }
  destruct (upsert_in_place st text fuel Hwf Hfuel
              (format_summary_has_marker set_iter pr commits files) Hsome)
    as (c & Hc & Hfirst & Hsecond & Hmarkers & Hnew).
  exists (id c), (List.map (patched (id c) text) st).
  unfold PostPrSummary.main. fold text.
  split; [exact Hfirst | ].
  split; [exact Hsecond | ].
  split.
  { rewrite List.map_map. apply List.map_ext. apply patched_id. }
  rewrite Hmarkers.
  split; [apply List.length_map | ].
  split.
  { rewrite <- Hnew. now apply List.in_map. }
  split.
  { intro Hone.
    destruct (marker_comments st) as [ | x [ | y l]]; try discriminate Hone.
    destruct Hc as [-> | []]. cbn [List.map]. now rewrite Hnew. }
  split.
  { unfold PostPrSummary.upsert in Hfirst.
    rewrite (find_existing_on_store st fuel Hfuel) in Hfirst.
    destruct (List.find PostPrSummary.is_summary_comment (List.rev st))
      as [c' | ] eqn:Hfind.
    2:{ cbn in Hfirst. discriminate Hfirst. }
    assert (Hid : id c' = id c).
    { cbn [bind option_map] in Hfirst.
      destruct (id c' =? 0); [discriminate Hfirst | ].
      destruct (PostPrSummary.update_comment (id c') text st);
        cbn [bind] in Hfirst; [ | discriminate Hfirst..].
      now injection Hfirst. }
    destruct (find_latest_marker st c' Hfind)
      as (before & after & Hst & Hc' & Hafter).
    exists before, after, c'. repeat split; trivial.
    destruct Hwf as [Hnd _]. rewrite Hst in Hnd |- *.
    rewrite List.map_app. cbn [List.map]. rewrite <- Hid.
    rewrite (patched_elsewhere (id c') text before)
      by (intros x Hx; apply (ids_apart before after c' x Hnd);
          apply List.in_or_app; now left).
    rewrite (patched_elsewhere (id c') text after)
      by (intros x Hx; apply (ids_apart before after c' x Hnd);
          apply List.in_or_app; now right).
    unfold patched, Forge.has_id. now rewrite Z.eqb_refl. }
  split.
  { apply marker_comments_spec. }
  intro x. rewrite <- Hmarkers. apply marker_comments_spec.
Qed.

Lemma upsert_updates_in_place_witness :
  exists (cid : Z) (st' : Forge.store),
    PostPrSummary.main (fun l => l)
      (mkPull (Val "Add cache") (Val "octo") (Val "cache") (Val "main")
              (Some 300) (Some 50) (Val 2) (Val "fixes #7"))
      [mkCommit (Some "c0ffee1234") (Val "Add cache")]
      [mkFile (Val "cache.py") (Val "added") (Val 300) (Val 50)]
      1
      [mkComment 41 (Val "Looks good");
       mkComment 42 (Val "<!-- pr-summary-bot --> stale summary");
       mkComment 43 Null]
    = Ok (PostPrSummary.Updated cid, st')
    /\ List.map id st' = [41; 42; 43]
    /\ List.length (marker_comments st') = 1%nat.
Proof.
  destruct (upsert_updates_in_place (fun l => l)
              (mkPull (Val "Add cache") (Val "octo") (Val "cache") (Val "main")
                      (Some 300) (Some 50) (Val 2) (Val "fixes #7"))
              [mkCommit (Some "c0ffee1234") (Val "Add cache")]
              [mkFile (Val "cache.py") (Val "added") (Val 300) (Val 50)]
              [mkComment 41 (Val "Looks good");
               mkComment 42 (Val "<!-- pr-summary-bot --> stale summary");
               mkComment 43 Null]
              1)
    as (cid & st' & Hrun & _ & Hids & Hcount & _).
  - split.
    + cbn [List.map id].
      repeat constructor; simpl; intuition discriminate.
    + repeat constructor; simpl; lia.
  - vm_compute. lia.
  - exists (mkComment 42 (Val "<!-- pr-summary-bot --> stale summary")).
    split; [simpl; tauto | ].
    exists "<!-- pr-summary-bot --> stale summary", "", " stale summary".
    split; reflexivity.
  - exists cid, st'. repeat split; assumption.
Defined.

(** On a pull request that carries two marker comments, two runs of the
    upsert leave two marker comments: the older one is neither updated
    nor removed. *)
Lemma two_marker_comments_stay_two :
  well_formed
    [mkComment 41 (Val "<!-- pr-summary-bot --> summary of last week");
     mkComment 42 (Val "<!-- pr-summary-bot --> summary of yesterday")]
  /\ PostPrSummary.upsert "<!-- pr-summary-bot --> summary of today" 1
       [mkComment 41 (Val "<!-- pr-summary-bot --> summary of last week");
        mkComment 42 (Val "<!-- pr-summary-bot --> summary of yesterday")]
     = Ok (PostPrSummary.Updated 42,
           [mkComment 41 (Val "<!-- pr-summary-bot --> summary of last week");
            mkComment 42 (Val "<!-- pr-summary-bot --> summary of today")])
  /\ PostPrSummary.upsert "<!-- pr-summary-bot --> summary of today" 1
       [mkComment 41 (Val "<!-- pr-summary-bot --> summary of last week");
        mkComment 42 (Val "<!-- pr-summary-bot --> summary of today")]
     = Ok (PostPrSummary.Updated 42,
           [mkComment 41 (Val "<!-- pr-summary-bot --> summary of last week");
            mkComment 42 (Val "<!-- pr-summary-bot --> summary of today")])
  /\ List.length
       (marker_comments
          [mkComment 41 (Val "<!-- pr-summary-bot --> summary of last week");
           mkComment 42 (Val "<!-- pr-summary-bot --> summary of today")])
     = 2%nat
  /\ carries_marker
       (mkComment 41 (Val "<!-- pr-summary-bot --> summary of last week")).
Proof.
  split; [ | split; [ | split; [ | split ] ] ].
  - split.
    + cbn [List.map id]. repeat constructor; simpl; intuition discriminate.
    + repeat constructor; simpl; lia.
  - vm_compute. reflexivity.
  - vm_compute. reflexivity.
  - vm_compute. reflexivity.
  - exists "<!-- pr-summary-bot --> summary of last week", "",
      " summary of last week".
    split; reflexivity.
Qed.

(** *** The first run on a pull request without a marker comment *)

Lemma fresh_id_above :
  forall (st : Forge.store),
    0 < Forge.fresh_id st /\ forall x, In x st -> id x < Forge.fresh_id st.
Proof.
  unfold Forge.fresh_id. induction st as [ | y st [IH0 IH]];
    cbn [List.fold_right].
  - split; [lia | contradiction].
  - set (m := List.fold_right (fun c m => Z.max (id c) m) 0 st) in *.
    split; [lia | ].
    intros x [-> | Hx]; [lia | ].
    specialize (IH x Hx). lia.
Qed.

Lemma no_marker_anywhere :
  forall (st : Forge.store) x,
    marker_comments st = [] -> In x st ->
    PostPrSummary.is_summary_comment x = false.
Proof.
  intros st x Hnone Hx.
  destruct (PostPrSummary.is_summary_comment x) eqn:E; [ | reflexivity].
  assert (Hin : In x (marker_comments st))
    by (unfold marker_comments; now apply List.filter_In).
  rewrite Hnone in Hin. contradiction.
Qed.

Lemma requests_mono :
  forall n m, (n <= m)%nat -> (requests n <= requests m)%nat.
Proof.
  intros n m Hnm. unfold requests. apply le_n_S.
  apply Nat.Div0.div_le_mono. exact Hnm.
Qed.

(** Without a marker comment the first run creates one, and the second
    run updates it: one marker comment in the end. *)
Lemma upsert_creates_then_updates :
  forall (st : Forge.store) (text : string) (fuel : nat),
    (requests (S (List.length st)) <= fuel)%nat ->
    contains PostPrSummary.MARKER text = true ->
    marker_comments st = [] ->
    PostPrSummary.upsert text fuel st
      = Ok (PostPrSummary.Created,
            (st ++ [mkComment (Forge.fresh_id st) (Val text)])%list)
    /\ PostPrSummary.upsert text fuel
         (st ++ [mkComment (Forge.fresh_id st) (Val text)])%list
       = Ok (PostPrSummary.Updated (Forge.fresh_id st),
             (st ++ [mkComment (Forge.fresh_id st) (Val text)])%list)
    /\ marker_comments (st ++ [mkComment (Forge.fresh_id st) (Val text)])%list
       = [mkComment (Forge.fresh_id st) (Val text)].
Proof.
  intros st text fuel Hfuel Htext Hnone.
  set (new := mkComment (Forge.fresh_id st) (Val text)).
  destruct (fresh_id_above st) as [Hpos Hfresh].
  assert (Hnew : PostPrSummary.is_summary_comment new = true)
    by now apply marker_of_text.
  split; [ | split ].
  - unfold PostPrSummary.upsert.
    rewrite find_existing_on_store
      by (etransitivity; [apply requests_mono | exact Hfuel]; lia).
    rewrite find_no_match
      by (intros y Hy; apply (no_marker_anywhere st); trivial;
          now apply List.in_rev).
    reflexivity.
  - unfold PostPrSummary.upsert.
    rewrite find_existing_on_store
      by (rewrite List.length_app, Nat.add_1_r; exact Hfuel).
    rewrite List.rev_app_distr. cbn [List.rev List.app List.find].
    rewrite Hnew. cbn [bind option_map]. fold new.
    replace (id new =? 0) with false by (symmetry; apply Z.eqb_neq; simpl; lia).
    unfold PostPrSummary.update_comment.
    rewrite (patch_present (st ++ [new])%list new text)
      by (apply List.in_or_app; right; now left).
    cbn [bind]. do 2 f_equal.
    rewrite List.map_app. f_equal.
    + rewrite <- (List.map_id st) at 2. apply List.map_ext_in.
      intros x Hx. unfold patched, Forge.has_id.
      replace (id x =? id new) with false; [reflexivity | ].
      symmetry. apply Z.eqb_neq. specialize (Hfresh x Hx). simpl. lia.
    + cbn [List.map]. unfold patched, Forge.has_id.
      now rewrite Z.eqb_refl.
  - unfold marker_comments in *. rewrite List.filter_app, Hnone.
    cbn [List.filter List.app]. fold new. now rewrite Hnew.
Qed.

(** Why ids have to be positive: [if existing_id:] reads the id 0 as no
    comment found, and a second marker comment is created. *)
Lemma comment_id_zero_reads_as_absent :
  PostPrSummary.upsert "<!-- pr-summary-bot --> new" 1
    [mkComment 0 (Val "<!-- pr-summary-bot --> old")]
  = Ok (PostPrSummary.Created,
        [mkComment 0 (Val "<!-- pr-summary-bot --> old");
         mkComment 1 (Val "<!-- pr-summary-bot --> new")]).
Proof.
  reflexivity.
Qed.

(* ================================================================== *)
(** * Further properties *)
(* ================================================================== *)

(** ** Transport clients *)

Section AttemptLoopFacts.
Context {A : Type}.
Variables (retryable : Z -> bool) (base_delay : Z) (max_retries : nat).
Variable net : Transport.network A.

Let loop := Transport.attempt_loop retryable base_delay max_retries net.

(** The loop counts its attempts from [attempt] up to [max_retries]. *)
Lemma attempt_loop_schedule :
  forall remaining attempt,
    (attempt + remaining = S max_retries)%nat ->
    (Transport.attempts (loop remaining attempt) <= remaining)%nat
    /\ Transport.sleeps (loop remaining attempt)
       = List.map (fun k => base_delay * Z.of_nat k)
           (List.seq attempt
              (Nat.pred (Transport.attempts (loop remaining attempt)))).
Proof.
  unfold loop.
  induction remaining as [ | remaining IH]; intros attempt Hinv.
  - split; [apply Nat.le_refl | reflexivity].
  - cbn [Transport.attempt_loop].
    assert (Hstep :
              attempt <> max_retries ->
              let o := Transport.retried (base_delay * Z.of_nat attempt)
                         (Transport.attempt_loop retryable base_delay
                            max_retries net remaining (S attempt)) in
              (Transport.attempts o <= S remaining)%nat
              /\ Transport.sleeps o
                 = List.map (fun k => base_delay * Z.of_nat k)
                     (List.seq attempt (Nat.pred (Transport.attempts o)))).
    { intro Hlast. cbn zeta.
      destruct (IH (S attempt)) as [Hle Hsleeps]; [lia | ].
      unfold Transport.retried. cbn [Transport.attempts Transport.sleeps].
      split; [lia | ].
      destruct remaining as [ | remaining']; [lia | ].
      pose proof (attempt_loop_calls retryable base_delay max_retries net
                    remaining' (S attempt)) as Hcalls.
      rewrite Hsleeps. cbn [Nat.pred].
      destruct (Transport.attempts
                  (Transport.attempt_loop retryable base_delay max_retries
                     net (S remaining') (S attempt))) as [ | n]; [lia | ].
      reflexivity. }
    destruct (net attempt) as [status json | code payload | reason | name].
    + split; [cbn; lia | reflexivity].
    + destruct (negb (retryable code)); cbn [orb].
      * split; [cbn; lia | reflexivity].
      * destruct (Nat.eqb_spec attempt max_retries) as [_ | Hlast].
        -- split; [cbn; lia | reflexivity].
        -- now apply Hstep.
    + destruct (Nat.eqb_spec attempt max_retries) as [_ | Hlast].
      * split; [cbn; lia | reflexivity].
      * now apply Hstep.
    + split; [cbn; lia | reflexivity].
Qed.

(** The call ends with attempt [k] when the replies before [k] are
    retryable failures and the reply to [k] is not, or [k] is the last
    attempt allowed. *)
Lemma attempt_loop_ends_at :
  forall remaining attempt k,
    (attempt + remaining = S max_retries)%nat ->
    (attempt <= k <= max_retries)%nat ->
    (forall j, (attempt <= j < k)%nat ->
               retryable_failure retryable (net j) = true) ->
    k = max_retries \/ retryable_failure retryable (net k) = false ->
    Transport.attempts (loop remaining attempt) = S (k - attempt)
    /\ Transport.result_of (loop remaining attempt) = answer (net k).
Proof.
  unfold loop.
  induction remaining as [ | remaining IH];
    intros attempt k Hinv Hk Hbefore Hlast.
  - lia.
  - cbn [Transport.attempt_loop].
    destruct (Nat.eq_dec attempt k) as [-> | Hlt].
    + replace (k - k)%nat with 0%nat by lia.
      destruct (net k) as [status json | code payload | reason | name];
        cbn [retryable_failure answer] in *.
      * split; reflexivity.
      * destruct Hlast as [-> | ->].
        -- rewrite Nat.eqb_refl, orb_true_r. split; reflexivity.
        -- split; reflexivity.
      * destruct Hlast as [-> | Hno]; [ | discriminate].
        rewrite Nat.eqb_refl. split; reflexivity.
      * split; reflexivity.
    + assert (Hretry : retryable_failure retryable (net attempt) = true)
        by (apply Hbefore; lia).
      assert (Hnot : Nat.eqb attempt max_retries = false)
        by (apply Nat.eqb_neq; lia).
      destruct (IH (S attempt) k) as [Hcalls Hres]; try lia; trivial.
      { intros j Hj. apply Hbefore. lia. }
      destruct (net attempt) as [status json | code payload | reason | name];
        cbn [retryable_failure] in Hretry.
      * discriminate.
      * rewrite Hretry, Hnot. cbn [negb orb].
        unfold Transport.retried.
        cbn [Transport.attempts Transport.result_of].
        rewrite Hcalls, Hres. split; [lia | reflexivity].
      * rewrite Hnot. unfold Transport.retried.
        cbn [Transport.attempts Transport.result_of].
        rewrite Hcalls, Hres. split; [lia | reflexivity].
      * discriminate.
Qed.

End AttemptLoopFacts.

(** Two retry tests that agree on the status codes the network sends give
    the same result after the same number of attempts. *)
Lemma attempt_loop_agree :
  forall (A : Type) (r1 r2 : Z -> bool) (b1 b2 : Z) (max_retries : nat)
         (net : Transport.network A),
    (forall k code payload,
        net k = Transport.HTTPFailure code payload -> r1 code = r2 code) ->
    forall remaining attempt,
      Transport.result_of
        (Transport.attempt_loop r1 b1 max_retries net remaining attempt)
      = Transport.result_of
          (Transport.attempt_loop r2 b2 max_retries net remaining attempt)
      /\ Transport.attempts
           (Transport.attempt_loop r1 b1 max_retries net remaining attempt)
         = Transport.attempts
             (Transport.attempt_loop r2 b2 max_retries net remaining attempt).
Proof.
  intros A r1 r2 b1 b2 max_retries net Hagree.
  induction remaining as [ | remaining IH]; intro attempt.
  - split; reflexivity.
  - cbn [Transport.attempt_loop].
    destruct (IH (S attempt)) as [Hres Hcalls].
    destruct (net attempt) as [status json | code payload | reason | name] eqn:Hnet.
    + split; reflexivity.
    + rewrite (Hagree attempt code payload Hnet).
      destruct (negb (r2 code) || Nat.eqb attempt max_retries).
      * split; reflexivity.
      * unfold Transport.retried.
        cbn [Transport.attempts Transport.result_of].
        rewrite Hres, Hcalls. split; reflexivity.
    + destruct (Nat.eqb attempt max_retries).
      * split; reflexivity.
      * unfold Transport.retried.
        cbn [Transport.attempts Transport.result_of].
        rewrite Hres, Hcalls. split; reflexivity.
    + split; reflexivity.
Qed.

(** X1. A call of [gh_api] makes at most [max_retries] attempts, and none
    only when [max_retries] is 0; it sleeps after every attempt but the
    last, 1.3 s (post_pr_summar.py) or 1.2 s (comment_on_push.py) times
    the number of the attempt that failed. *)
Theorem gh_api_attempts_and_backoff :
  forall (A : Type) (max_retries : nat) (net : Transport.network A),
    (Transport.attempts (PostPrSummary.gh_api max_retries net)
     <= max_retries)%nat
    /\ (Transport.attempts (PostPrSummary.gh_api max_retries net) = 0%nat
        <-> max_retries = 0%nat)
    /\ Transport.sleeps (PostPrSummary.gh_api max_retries net)
       = backoff 13 (Transport.attempts (PostPrSummary.gh_api max_retries net))
    /\ (Transport.attempts (CommentOnPush.gh_api max_retries net)
        <= max_retries)%nat
    /\ (Transport.attempts (CommentOnPush.gh_api max_retries net) = 0%nat
        <-> max_retries = 0%nat)
    /\ Transport.sleeps (CommentOnPush.gh_api max_retries net)
       = backoff 12 (Transport.attempts (CommentOnPush.gh_api max_retries net)).
Proof.
  intros A max_retries net.
  unfold PostPrSummary.gh_api, CommentOnPush.gh_api, backoff.
  destruct (attempt_loop_schedule PostPrSummary.retry 13 max_retries net
              max_retries 1) as [Hle1 Hs1]; [lia | ].
  destruct (attempt_loop_schedule CommentOnPush.is_retryable 12 max_retries net
              max_retries 1) as [Hle2 Hs2]; [lia | ].
  repeat match goal with |- _ /\ _ => split end; trivial.
  - split; [ | now intros ->].
    destruct max_retries as [ | m]; [reflexivity | ].
    pose proof (attempt_loop_calls PostPrSummary.retry 13 (S m) net m 1).
    lia.
  - split; [ | now intros ->].
    destruct max_retries as [ | m]; [reflexivity | ].
    pose proof (attempt_loop_calls CommentOnPush.is_retryable 12 (S m) net m 1).
    lia.
Qed.

(** X2. A call of [gh_api] ends with attempt [k] when every reply before
    [k] is a retryable failure and either the reply to [k] is not one or
    [k] is [max_retries]: exactly [k] attempts are made, and the result is
    what the reply to [k] gives (its JSON, [None] for status 204, or its
    exception). *)
Theorem gh_api_ends_at_decisive_reply :
  forall (A : Type) (max_retries k : nat) (net : Transport.network A),
    (1 <= k <= max_retries)%nat ->
    ((forall j, (1 <= j < k)%nat ->
                retryable_failure PostPrSummary.retry (net j) = true) ->
     k = max_retries
     \/ retryable_failure PostPrSummary.retry (net k) = false ->
     Transport.attempts (PostPrSummary.gh_api max_retries net) = k
     /\ Transport.result_of (PostPrSummary.gh_api max_retries net)
        = answer (net k))
    /\ ((forall j, (1 <= j < k)%nat ->
                   retryable_failure CommentOnPush.is_retryable (net j) = true) ->
        k = max_retries
        \/ retryable_failure CommentOnPush.is_retryable (net k) = false ->
        Transport.attempts (CommentOnPush.gh_api max_retries net) = k
        /\ Transport.result_of (CommentOnPush.gh_api max_retries net)
           = answer (net k)).
Proof.
  intros A max_retries k net Hk.
  unfold PostPrSummary.gh_api, CommentOnPush.gh_api.
  split; intros Hbefore Hlast.
  - destruct (attempt_loop_ends_at PostPrSummary.retry 13 max_retries net
                max_retries 1 k) as [Hcalls Hres]; trivial; try lia.
    split; [lia | exact Hres].
  - destruct (attempt_loop_ends_at CommentOnPush.is_retryable 12 max_retries
                net max_retries 1 k) as [Hcalls Hres]; trivial; try lia.
    split; [lia | exact Hres].
Qed.

Lemma gh_api_ends_at_decisive_reply_witness :
  Transport.attempts
    (PostPrSummary.gh_api 5
       (Transport.script
          [Transport.NetworkFailure "reset"; Transport.HTTPFailure 502 "bad";
           Transport.HTTPFailure 403 "forbidden"]
          (Transport.Response 200 7))) = 3%nat
  /\ Transport.result_of
       (CommentOnPush.gh_api 2
          (@Transport.script Z [Transport.HTTPFailure 503 "busy"]
             (Transport.NetworkFailure "down")))
     = Raised (URLError "down").
Proof.
  split.
  - destruct (gh_api_ends_at_decisive_reply Z 5 3
                (Transport.script
                   [Transport.NetworkFailure "reset";
                    Transport.HTTPFailure 502 "bad";
                    Transport.HTTPFailure 403 "forbidden"]
                   (Transport.Response 200 7))) as [Hpost _]; [lia | ].
    apply Hpost.
    + intros j Hj. assert (Hcases : j = 1%nat \/ j = 2%nat) by lia.
      destruct Hcases as [-> | ->]; reflexivity.
    + right. reflexivity.
  - destruct (gh_api_ends_at_decisive_reply Z 2 2
                (Transport.script [Transport.HTTPFailure 503 "busy"]
                   (Transport.NetworkFailure "down"))) as [_ Hpush]; [lia | ].
    apply Hpush.
    + intros j Hj. assert (Hone : j = 1%nat) by lia. subst j. reflexivity.
    + left. reflexivity.
Defined.

(** X3. On a network whose failure statuses are all below 600 the clients
    of post_pr_summar.py and comment_on_push.py behave alike: the same
    result after the same number of attempts. *)
Theorem gh_api_clients_agree_below_600 :
  forall (A : Type) (max_retries : nat) (net : Transport.network A),
    (forall k code payload,
        net k = Transport.HTTPFailure code payload -> code < 600) ->
    Transport.result_of (PostPrSummary.gh_api max_retries net)
    = Transport.result_of (CommentOnPush.gh_api max_retries net)
    /\ Transport.attempts (PostPrSummary.gh_api max_retries net)
       = Transport.attempts (CommentOnPush.gh_api max_retries net).
Proof.
  intros A max_retries net Hcodes.
  unfold PostPrSummary.gh_api, CommentOnPush.gh_api.
  apply attempt_loop_agree.
  intros k code payload Hnet. specialize (Hcodes k code payload Hnet).
  unfold PostPrSummary.retry, CommentOnPush.is_retryable.
  replace (code <? 600) with true by (symmetry; apply Z.ltb_lt; lia).
  apply andb_true_r.
Qed.

Lemma gh_api_clients_agree_below_600_witness :
  Transport.result_of
    (PostPrSummary.gh_api 3
       (Transport.script [Transport.HTTPFailure 503 "busy"]
          (Transport.Response 200 7)))
  = Transport.result_of
      (CommentOnPush.gh_api 3
         (Transport.script [Transport.HTTPFailure 503 "busy"]
            (Transport.Response 200 7))).
Proof.
  apply (gh_api_clients_agree_below_600 Z 3
           (Transport.script [Transport.HTTPFailure 503 "busy"]
              (Transport.Response 200 7))).
  intros k code payload Hnet.
  destruct k as [ | [ | k]]; cbn in Hnet.
  - injection Hnet as <- _. lia.
  - injection Hnet as <- _. lia.
  - destruct k; discriminate Hnet.
Defined.

(** X4. The client of workflows/comment_on_push.py never retries: it makes
    one attempt and its result is what that reply gives, as the other two
    clients do when [max_retries] is 1. *)
Theorem workflow_gh_api_single_attempt :
  forall (A : Type) (net : Transport.network A),
    Transport.attempts (WorkflowCommentOnPush.gh_api net) = 1%nat
    /\ Transport.sleeps (WorkflowCommentOnPush.gh_api net) = []
    /\ Transport.result_of (WorkflowCommentOnPush.gh_api net) = answer (net 1%nat)
    /\ WorkflowCommentOnPush.gh_api net = CommentOnPush.gh_api 1 net
    /\ WorkflowCommentOnPush.gh_api net = PostPrSummary.gh_api 1 net.
Proof.
  intros A net.
  unfold WorkflowCommentOnPush.gh_api, CommentOnPush.gh_api,
    PostPrSummary.gh_api.
  cbn [Transport.attempt_loop Nat.eqb].
  destruct (net 1%nat) as [status json | code payload | reason | name];
    cbn [answer]; rewrite ?orb_true_r; repeat split; reflexivity.
Qed.

(** X24. With [max_retries = 3] both clients turn the replies 500, 500,
    200 into a success after exactly 3 attempts and the replies 500, 500,
    500 into a failure raised after exactly 3 attempts; a 4xx reply is
    raised at once, after 1 attempt and no sleep, whatever the maximum.
    A failed first attempt is followed by a second one exactly when the
    status is in 500..599 for post_pr_summar.py and exactly when it is 500
    or above for comment_on_push.py; a [URLError] is retried by both. *)
Theorem gh_api_retry_policy :
  forall (A : Type) (net : Transport.network A) (v : A)
         (p1 p2 p3 : string) (code : Z) (max_retries : nat),
    (net 1%nat = Transport.HTTPFailure 500 p1 ->
     net 2%nat = Transport.HTTPFailure 500 p2 ->
     net 3%nat = Transport.Response 200 v ->
     PostPrSummary.gh_api 3 net
       = Transport.mkOutcome (Ok (Some v)) 3 [13; 26]
     /\ CommentOnPush.gh_api 3 net
       = Transport.mkOutcome (Ok (Some v)) 3 [12; 24])
    /\ (net 1%nat = Transport.HTTPFailure 500 p1 ->
        net 2%nat = Transport.HTTPFailure 500 p2 ->
        net 3%nat = Transport.HTTPFailure 500 p3 ->
        PostPrSummary.gh_api 3 net
          = Transport.mkOutcome (Raised (HTTPError 500 p3)) 3 [13; 26]
        /\ CommentOnPush.gh_api 3 net
          = Transport.mkOutcome (Raised (HTTPError 500 p3)) 3 [12; 24])
    /\ (net 1%nat = Transport.HTTPFailure code p1 ->
        400 <= code < 500 ->
        (1 <= max_retries)%nat ->
        PostPrSummary.gh_api max_retries net
          = Transport.mkOutcome (Raised (HTTPError code p1)) 1 []
        /\ CommentOnPush.gh_api max_retries net
          = Transport.mkOutcome (Raised (HTTPError code p1)) 1 [])
    /\ (net 1%nat = Transport.HTTPFailure code p1 ->
        (2 <= max_retries)%nat ->
        ((1 < Transport.attempts (PostPrSummary.gh_api max_retries net))%nat
         <-> 500 <= code < 600)
        /\ ((1 < Transport.attempts (CommentOnPush.gh_api max_retries net))%nat
            <-> 500 <= code))
    /\ (net 1%nat = Transport.NetworkFailure p1 ->
        (2 <= max_retries)%nat ->
        (1 < Transport.attempts (PostPrSummary.gh_api max_retries net))%nat
        /\ (1 < Transport.attempts (CommentOnPush.gh_api max_retries net))%nat).
Proof.
  intros A net v p1 p2 p3 code max_retries.
  unfold PostPrSummary.gh_api, CommentOnPush.gh_api.
  split; [ | split; [ | split; [ | split ] ] ].
  - intros H1 H2 H3. cbn [Transport.attempt_loop].
    rewrite H1, H2, H3. split; reflexivity.
  - intros H1 H2 H3. cbn [Transport.attempt_loop].
    rewrite H1, H2, H3. split; reflexivity.
  - intros H1 Hcode Hmax.
    destruct max_retries as [ | m]; [lia | ].
    split; apply terminal_status_raises; trivial.
    + unfold PostPrSummary.retry.
      apply andb_false_iff. left. apply Z.leb_gt. lia.
    + unfold CommentOnPush.is_retryable. apply Z.leb_gt. lia.
  - intros H1 Hmax.
    destruct max_retries as [ | [ | m]]; try lia.
    split.
    + rewrite (first_status_decides _ _ _ _ _ _ _ H1) by lia.
      apply retry_5xx.
    + rewrite (first_status_decides _ _ _ _ _ _ _ H1) by lia.
      apply is_retryable_from_500.
  - intros H1 Hmax.
    destruct max_retries as [ | [ | m]]; try lia.
    split.
    + rewrite (network_failure_retries _ _ _ _ _ _ _ H1) by lia.
      pose proof (attempt_loop_calls PostPrSummary.retry 13 (S (S m)) net m 2).
      unfold Transport.retried. cbn [Transport.attempts]. lia.
    + rewrite (network_failure_retries _ _ _ _ _ _ _ H1) by lia.
      pose proof
        (attempt_loop_calls CommentOnPush.is_retryable 12 (S (S m)) net m 2).
      unfold Transport.retried. cbn [Transport.attempts]. lia.
Qed.

Lemma gh_api_retry_policy_witness :
  PostPrSummary.gh_api 3
    (Transport.script
       [Transport.HTTPFailure 500 "a"; Transport.HTTPFailure 500 "b";
        Transport.Response 200 7]
       (Transport.NetworkFailure "down"))
  = Transport.mkOutcome (Ok (Some 7)) 3 [13; 26]
  /\ CommentOnPush.gh_api 3
       (Transport.script
          [Transport.HTTPFailure 500 "a"; Transport.HTTPFailure 500 "b";
           Transport.HTTPFailure 500 "c"]
          (Transport.Response 200 7))
     = Transport.mkOutcome (Raised (HTTPError 500 "c")) 3 [12; 24]
  /\ PostPrSummary.gh_api 3
       (Transport.script [Transport.HTTPFailure 404 "Not Found"]
          (Transport.Response 200 7))
     = Transport.mkOutcome (Raised (HTTPError 404 "Not Found")) 1 []
  /\ ((1 < Transport.attempts
             (CommentOnPush.gh_api 3
                (Transport.script [Transport.HTTPFailure 503 "busy"]
                   (Transport.Response 200 7))))%nat
      <-> 500 <= 503)
  /\ (1 < Transport.attempts
            (PostPrSummary.gh_api 3
               (Transport.script [Transport.NetworkFailure "reset"]
                  (Transport.Response 200 7))))%nat.
Proof.
  split; [ | split; [ | split; [ | split ] ] ].
  - destruct (gh_api_retry_policy Z
                (Transport.script
                   [Transport.HTTPFailure 500 "a"; Transport.HTTPFailure 500 "b";
                    Transport.Response 200 7]
                   (Transport.NetworkFailure "down"))
                7 "a" "b" "" 0 3%nat) as (S1 & _).
    apply S1; reflexivity.
  - destruct (gh_api_retry_policy Z
                (Transport.script
                   [Transport.HTTPFailure 500 "a"; Transport.HTTPFailure 500 "b";
                    Transport.HTTPFailure 500 "c"]
                   (Transport.Response 200 7))
                7 "a" "b" "c" 0 3%nat) as (_ & S2 & _).
    apply S2; reflexivity.
  - destruct (gh_api_retry_policy Z
                (Transport.script [Transport.HTTPFailure 404 "Not Found"]
                   (Transport.Response 200 7))
                7 "Not Found" "" "" 404 3%nat) as (_ & _ & S3 & _).
    apply S3; [reflexivity | lia | lia].
  - destruct (gh_api_retry_policy Z
                (Transport.script [Transport.HTTPFailure 503 "busy"]
                   (Transport.Response 200 7))
                7 "busy" "" "" 503 3%nat) as (_ & _ & _ & S4 & _).
    apply S4; [reflexivity | lia].
  - destruct (gh_api_retry_policy Z
                (Transport.script [Transport.NetworkFailure "reset"]
                   (Transport.Response 200 7))
                7 "reset" "" "" 0 3%nat) as (_ & _ & _ & _ & S5).
    apply S5; [reflexivity | lia].
Defined.

(** ** Page loop *)

Section PagesFacts.
Context {A : Type}.
Variable gh : nat -> result (option (list A)).

Lemma full_page_continues :
  forall fuel page,
    full_page gh page ->
    Paginator.pages gh (S fuel) page
    = (more <- fst (Paginator.pages gh fuel (S page)) ;;
       Ok (page_items gh page ++ more)%list,
       page :: snd (Paginator.pages gh fuel (S page))).
Proof.
  intros fuel page (items & Hgh & Hfull).
  rewrite (pages_continue gh fuel page items Hgh Hfull).
  unfold page_items. rewrite Hgh. reflexivity.
Qed.

Lemma not_full_stops :
  forall fuel page,
    ~ full_page gh page ->
    Paginator.pages gh (S fuel) page
    = (match gh page with
       | Ok data => Ok (items_of data)
       | Raised e => Raised e
       | Diverged => Diverged
       end, [page]).
Proof.
  intros fuel page Hnot. cbn [Paginator.pages].
  destruct (gh page) as [[[ | x items] | ] | e | ] eqn:Hgh; try reflexivity.
  destruct (Nat.ltb_spec (List.length (x :: items)) Paginator.per_page)
    as [Hshort | Hfull]; [reflexivity | ].
  exfalso. apply Hnot. exists (x :: items). now split.
Qed.

Lemma full_page_dec :
  forall page, full_page gh page \/ ~ full_page gh page.
Proof.
  intro page. unfold full_page.
  destruct (gh page) as [[items | ] | e | ].
  - destruct (Nat.le_gt_cases Paginator.per_page (List.length items))
      as [Hfull | Hshort].
    + left. now exists items.
    + right. intros (items' & Heq & Hfull).
      injection Heq as <-. lia.
  - right. intros (items' & Heq & _). discriminate.
  - right. intros (items' & Heq & _). discriminate.
  - right. intros (items' & Heq & _). discriminate.
Qed.

(** The pages requested are consecutive, and what is returned is what
    they held, page after page. *)
Lemma pages_trace :
  forall fuel page,
    (List.length (snd (Paginator.pages gh fuel page)) <= fuel)%nat
    /\ snd (Paginator.pages gh fuel page)
       = List.seq page (List.length (snd (Paginator.pages gh fuel page)))
    /\ forall items,
         fst (Paginator.pages gh fuel page) = Ok items ->
         items = List.concat
                   (List.map (page_items gh)
                      (snd (Paginator.pages gh fuel page))).
Proof.
  induction fuel as [ | fuel IH]; intro page.
  - cbn. repeat split; [lia | discriminate].
  - destruct (full_page_dec page) as [Hfull | Hnot].
    + rewrite (full_page_continues fuel page Hfull).
      destruct (IH (S page)) as (Hlen & Hseq & Hitems).
      cbn [fst snd List.length List.seq].
      split; [lia | ]. split; [now rewrite <- Hseq | ].
      intros items Hok.
      destruct (fst (Paginator.pages gh fuel (S page))) as [more | e | ];
        cbn [bind] in Hok; try discriminate.
      injection Hok as <-. cbn [List.map List.concat].
      now rewrite <- (Hitems more).
    + rewrite (not_full_stops fuel page Hnot).
      cbn [fst snd List.length List.seq].
      split; [lia | ]. split; [reflexivity | ].
      intros items Hok. cbn [List.map List.concat].
      rewrite List.app_nil_r. unfold page_items.
      destruct (gh page) as [data | e | ]; try discriminate.
      now injection Hok as <-.
Qed.

(** The loop ends with the first page that is not full. *)
Lemma pages_end_at :
  forall fuel page k,
    (page <= k < page + fuel)%nat ->
    (forall j, (page <= j < k)%nat -> full_page gh j) ->
    ~ full_page gh k ->
    snd (Paginator.pages gh fuel page) = List.seq page (S (k - page))
    /\ fst (Paginator.pages gh fuel page)
       = match gh k with
         | Ok _ =>
             Ok (List.concat
                   (List.map (page_items gh) (List.seq page (S (k - page)))))
         | Raised e => Raised e
         | Diverged => Diverged
         end.
Proof.
  induction fuel as [ | fuel IH]; intros page k Hk Hbefore Hlast.
  - lia.
  - destruct (Nat.eq_dec page k) as [-> | Hlt].
    + rewrite (not_full_stops fuel k Hlast).
      replace (k - k)%nat with 0%nat by lia.
      cbn [fst snd List.seq List.map List.concat].
      split; [reflexivity | ].
      unfold page_items. destruct (gh k) as [data | e | ]; trivial.
      now rewrite List.app_nil_r.
    + rewrite (full_page_continues fuel page) by (apply Hbefore; lia).
      destruct (IH (S page) k) as [Hlog Hres]; try lia; trivial.
      { intros j Hj. apply Hbefore. lia. }
      cbn [fst snd]. rewrite Hlog, Hres.
      replace (S (k - page)) with (S (S (k - S page))) by lia.
      split; [reflexivity | ].
      destruct (gh k) as [data | e | ]; reflexivity.
Qed.

(** Against full pages without end the loop has no exit. *)
Lemma pages_never_end :
  (forall j, full_page gh j) ->
  forall fuel page,
    Paginator.pages gh fuel page = (Diverged, List.seq page fuel).
Proof.
  intro Hfull. induction fuel as [ | fuel IH]; intro page.
  - reflexivity.
  - rewrite (full_page_continues fuel page (Hfull page)), IH.
    reflexivity.
Qed.

End PagesFacts.

(** X5. Whatever the forge answers, [paginate] requests consecutive pages
    starting with page 1, and the items it returns are the items of the
    pages it requested, in order, with none dropped, repeated or
    reordered. *)
Theorem paginate_returns_the_pages_requested :
  forall (A : Type) (gh : nat -> result (option (list A))) (fuel : nat)
         (items : list A),
    snd (PostPrSummary.paginate gh fuel)
    = List.seq 1 (List.length (snd (PostPrSummary.paginate gh fuel)))
    /\ (fst (PostPrSummary.paginate gh fuel) = Ok items ->
        items = List.concat
                  (List.map (page_items gh)
                     (snd (PostPrSummary.paginate gh fuel)))).
Proof.
  intros A gh fuel items. unfold PostPrSummary.paginate.
  destruct (pages_trace gh fuel 1) as (_ & Hseq & Hitems).
  split; [exact Hseq | apply Hitems].
Qed.

Lemma paginate_returns_the_pages_requested_witness :
  [1; 2; 3]%nat
  = List.concat
      (List.map
         (page_items (fun page => if (page =? 1)%nat
                                  then Ok (Some [1; 2; 3]%nat) else Ok None))
         (snd (PostPrSummary.paginate
                 (fun page => if (page =? 1)%nat
                              then Ok (Some [1; 2; 3]%nat) else Ok None) 4))).
Proof.
  destruct (paginate_returns_the_pages_requested nat
              (fun page => if (page =? 1)%nat
                           then Ok (Some [1; 2; 3]%nat) else Ok None)
              4 [1; 2; 3]%nat) as [_ Hitems].
  apply Hitems. reflexivity.
Defined.

(** X6. [paginate] ends with the first page [k] that is not a full page
    of 100 items or more: it requests the pages 1 to [k] and no other; it
    returns the items of these pages when page [k] was served, and raises
    the exception of the request for page [k] when that request failed,
    returning none of the items read before. *)
Theorem paginate_ends_at_first_short_page :
  forall (A : Type) (gh : nat -> result (option (list A))) (fuel k : nat)
         (e : exn),
    (1 <= k <= fuel)%nat ->
    (forall j, (1 <= j < k)%nat -> full_page gh j) ->
    ~ full_page gh k ->
    snd (PostPrSummary.paginate gh fuel) = List.seq 1 k
    /\ ((exists data, gh k = Ok data) ->
        fst (PostPrSummary.paginate gh fuel)
        = Ok (List.concat (List.map (page_items gh) (List.seq 1 k))))
    /\ (gh k = Raised e -> fst (PostPrSummary.paginate gh fuel) = Raised e).
Proof.
  intros A gh fuel k e Hk Hbefore Hlast. unfold PostPrSummary.paginate.
  destruct (pages_end_at gh fuel 1 k) as [Hlog Hres]; try lia; trivial.
  replace (S (k - 1)) with k in * by lia.
  split; [exact Hlog | ]. rewrite Hres.
  split.
  - intros [data ->]. reflexivity.
  - intros ->. reflexivity.
Qed.

Lemma paginate_ends_at_first_short_page_witness :
  fst (PostPrSummary.paginate
         (fun page => if (page =? 1)%nat then Ok (Some (List.seq 0 100))
                      else Raised (HTTPError 502 "bad gateway")) 5)
  = Raised (HTTPError 502 "bad gateway").
Proof.
  destruct (paginate_ends_at_first_short_page nat
              (fun page => if (page =? 1)%nat then Ok (Some (List.seq 0 100))
                           else Raised (HTTPError 502 "bad gateway"))
              5 2 (HTTPError 502 "bad gateway")) as (_ & _ & Hraise).
  - lia.
  - intros j Hj. assert (Hone : j = 1%nat) by lia. subst j.
    exists (List.seq 0 100). split; [reflexivity | vm_compute; lia].
  - intros (items & Heq & _). discriminate Heq.
  - apply Hraise. reflexivity.
Defined.

(** X7. The page loop has no bound of its own: against a forge that
    answers every request with a full page, [paginate] asks for page after
    page and never returns (the model runs out of fuel, whatever the
    fuel). *)
Theorem paginate_has_no_page_limit :
  forall (A : Type) (gh : nat -> result (option (list A))) (fuel : nat),
    (forall j, full_page gh j) ->
    PostPrSummary.paginate gh fuel = (Diverged, List.seq 1 fuel).
Proof.
  intros A gh fuel Hfull. unfold PostPrSummary.paginate.
  now apply pages_never_end.
Qed.

Lemma paginate_has_no_page_limit_witness :
  PostPrSummary.paginate (fun _ => Ok (Some (List.seq 0 100))) 7
  = (Diverged, List.seq 1 7).
Proof.
  apply (paginate_has_no_page_limit nat (fun _ => Ok (Some (List.seq 0 100))) 7).
  intro j. exists (List.seq 0 100). split; [reflexivity | vm_compute; lia].
Defined.

(** ** Pull-request resolution, continued *)

Lemma matches_tests :
  forall SHA BRANCH p,
    matches SHA BRANCH p
    <-> CommentOnPush.equals SHA (head_sha p) = true
        \/ CommentOnPush.equals BRANCH (head_ref p) = true.
Proof.
  intros SHA BRANCH p. unfold matches. now rewrite !equals_true.
Qed.

(** X8. Without a hint, and with the open pull requests served by the
    forge, resolution returns the number of an open pull request whose
    head commit is the target commit or whose head branch is the target
    branch, never of another one; and it returns [None] exactly when no
    open pull request is on that commit or that branch. *)
Theorem resolution_sound_and_complete :
  forall (prs : list open_pr) (SHA BRANCH : string) (fuel : nat) (n : Z),
    (requests (List.length prs) <= fuel)%nat ->
    (fst (CommentOnPush.find_open_pr_for_branch_or_sha
            None SHA BRANCH (Paginator.serve prs) fuel) = Ok (Some n) ->
     exists p, In p prs /\ number p = n /\ matches SHA BRANCH p)
    /\ (fst (CommentOnPush.find_open_pr_for_branch_or_sha
               None SHA BRANCH (Paginator.serve prs) fuel) = Ok None
        <-> forall p, In p prs -> ~ matches SHA BRANCH p).
Proof.
  intros prs SHA BRANCH fuel n Hfuel.
  unfold CommentOnPush.find_open_pr_for_branch_or_sha, Py.next.
  rewrite (pages_serve prs fuel Hfuel). cbn [fst snd bind].
  destruct (List.find (fun p => CommentOnPush.equals SHA (head_sha p)) prs)
    as [p | ] eqn:Hsha.
  - apply List.find_some in Hsha. destruct Hsha as [Hin Hp].
    split.
    + intro Hres. injection Hres as <-. exists p.
      repeat split; trivial. apply matches_tests. now left.
    + split; [discriminate | ].
      intro Hnone. exfalso. apply (Hnone p Hin).
      apply matches_tests. now left.
  - destruct (List.find (fun p => CommentOnPush.equals BRANCH (head_ref p)) prs)
      as [p | ] eqn:Hbranch.
    + apply List.find_some in Hbranch. destruct Hbranch as [Hin Hp].
      split.
      * intro Hres. injection Hres as <-. exists p.
        repeat split; trivial. apply matches_tests. now right.
      * split; [discriminate | ].
        intro Hnone. exfalso. apply (Hnone p Hin).
        apply matches_tests. now right.
    + split; [discriminate | ].
      split; [ | reflexivity].
      intros _ p Hin Hp. apply matches_tests in Hp.
      pose proof (List.find_none _ _ Hsha p Hin) as H1.
      pose proof (List.find_none _ _ Hbranch p Hin) as H2.
      cbn beta in H1, H2. destruct Hp as [Hp | Hp]; congruence.
Qed.

Lemma resolution_sound_and_complete_witness :
  exists p,
    In p [mkOpenPr 11 (Some "0ddba11") (Some "main");
          mkOpenPr 12 (Some "c0ffee") (Some "feature")]
    /\ number p = 12
    /\ matches "f00d" "feature" p.
Proof.
  destruct (resolution_sound_and_complete
              [mkOpenPr 11 (Some "0ddba11") (Some "main");
               mkOpenPr 12 (Some "c0ffee") (Some "feature")]
              "f00d" "feature" 1 12) as [Hsound _].
  - vm_compute. lia.
  - apply Hsound. reflexivity.
Defined.


(** X10. The two comment_on_push.py scripts treat a pull-request hint
    differently.  A non-empty hint that [int] rejects makes the script of
    workflows/ fail with [ValueError], before any request.  A hint that
    parses as [n] makes it comment on pull request [n], 0 included; the
    script of scripts/ comments on [n] when [n] is not 0 and skips, as if
    no pull request were open, when [n] is 0. *)
Theorem hint_handling_of_the_two_scripts :
  forall (hint SHA BRANCH : string) (BEFORE_SHA : option string)
         (pulls_gh : nat -> result (option (list open_pr))) (fuel : nat)
         (compare_gh : result (option (list commit))) (n : Z),
    (hint <> "" -> Py.int hint = None ->
     WorkflowCommentOnPush.main (Some hint) SHA BRANCH pulls_gh fuel
     = Raised ValueError)
    /\ (Py.int hint = Some n ->
        WorkflowCommentOnPush.main (Some hint) SHA BRANCH pulls_gh fuel
        = Ok (CommentOnPush.Commented n (CommentOnPush.base_line BRANCH SHA)))
    /\ (Py.int hint = Some n -> n <> 0 ->
        CommentOnPush.main (Some hint) SHA BRANCH BEFORE_SHA
          pulls_gh fuel compare_gh
        = Ok (CommentOnPush.Commented n
                (CommentOnPush.build_comment_body BRANCH SHA BEFORE_SHA
                   compare_gh)))
    /\ (Py.int hint = Some 0 ->
        CommentOnPush.main (Some hint) SHA BRANCH BEFORE_SHA
          pulls_gh fuel compare_gh
        = Ok CommentOnPush.Skipped).
Proof.
  intros hint SHA BRANCH BEFORE_SHA pulls_gh fuel compare_gh n.
  assert (Hnonempty : forall m, Py.int hint = Some m ->
                                String.eqb hint "" = false).
  { intros m Hm. destruct (String.eqb_spec hint "") as [-> | _];
      [discriminate Hm | reflexivity]. }
  unfold WorkflowCommentOnPush.main, CommentOnPush.main,
    CommentOnPush.find_open_pr_for_branch_or_sha.
  split; [ | split; [ | split ] ].
  - intros Hhint Hint. apply String.eqb_neq in Hhint.
    rewrite Hhint, Hint. reflexivity.
  - intro Hint. rewrite (Hnonempty n Hint), Hint. reflexivity.
  - intros Hint Hn. rewrite (Hnonempty n Hint), Hint. cbn [fst bind].
    apply Z.eqb_neq in Hn. now rewrite Hn.
  - intro Hint. rewrite (Hnonempty 0 Hint), Hint. reflexivity.
Qed.

Lemma hint_handling_of_the_two_scripts_witness :
  WorkflowCommentOnPush.main (Some (FILE_SEPARATOR ++ "42")) "c0ffee" "main"
    (Paginator.serve []) 1
  = Raised ValueError
  /\ WorkflowCommentOnPush.main (Some "0") "c0ffee" "main"
       (Paginator.serve []) 1
     = Ok (CommentOnPush.Commented 0 (CommentOnPush.base_line "main" "c0ffee"))
  /\ CommentOnPush.main (Some " 42 ") "c0ffee" "main" None
       (Paginator.serve []) 1 (Ok None)
     = Ok (CommentOnPush.Commented 42
             (CommentOnPush.build_comment_body "main" "c0ffee" None (Ok None)))
  /\ CommentOnPush.main (Some "0") "c0ffee" "main" None
       (Paginator.serve []) 1 (Ok None)
     = Ok CommentOnPush.Skipped.
Proof.
  split; [ | split; [ | split ] ].
  - destruct (hint_handling_of_the_two_scripts (FILE_SEPARATOR ++ "42")
                "c0ffee" "main" None
                (Paginator.serve []) 1 (Ok None) 0) as (Hbad & _).
    apply Hbad; [discriminate | vm_compute; reflexivity].
  - destruct (hint_handling_of_the_two_scripts "0" "c0ffee" "main" None
                (Paginator.serve []) 1 (Ok None) 0) as (_ & Hzero & _).
    apply Hzero. reflexivity.
  - destruct (hint_handling_of_the_two_scripts " 42 " "c0ffee" "main" None
                (Paginator.serve []) 1 (Ok None) 42) as (_ & _ & Hgood & _).
    apply Hgood; [reflexivity | lia].
  - destruct (hint_handling_of_the_two_scripts "0" "c0ffee" "main" None
                (Paginator.serve []) 1 (Ok None) 0) as (_ & _ & _ & Hskip).
    apply Hskip. reflexivity.
Defined.

(** ** The body of the push comment *)

Lemma join_lines_cons :
  forall a b rest,
    join_lines (a :: b :: rest) = a ++ nl ++ join_lines (b :: rest).
Proof.
  reflexivity.
Qed.

(** X11. The push comment never fails for want of the commit list: when
    the "before" commit is unset or empty, the pushed commit is empty or
    equal to it, the compare request fails with any exception, or the
    compare holds no commit, [build_comment_body] is the line that names
    branch and commit, alone.  With a commit list it starts with that
    line, an empty line and the heading of the commits. *)
Theorem push_comment_degrades_to_base_line :
  forall (BRANCH SHA : string) (BEFORE_SHA : option string)
         (compare_gh : result (option (list commit)))
         (b : string) (c : commit) (cs : list commit),
    (BEFORE_SHA = None \/ BEFORE_SHA = Some "" \/ SHA = ""
     \/ BEFORE_SHA = Some SHA \/ (exists e, compare_gh = Raised e)
     \/ compare_gh = Ok None \/ compare_gh = Ok (Some []) ->
     CommentOnPush.build_comment_body BRANCH SHA BEFORE_SHA compare_gh
     = CommentOnPush.base_line BRANCH SHA)
    /\ (b <> "" -> SHA <> "" -> b <> SHA ->
        exists rest,
          CommentOnPush.build_comment_body BRANCH SHA (Some b)
            (Ok (Some (c :: cs)))
          = CommentOnPush.base_line BRANCH SHA ++ nl ++ nl
            ++ "Recent commits:" ++ nl ++ rest).
Proof.
  intros BRANCH SHA BEFORE_SHA compare_gh b c cs.
  split.
  - unfold CommentOnPush.build_comment_body,
      CommentOnPush.fetch_push_commit_messages.
    intros [-> | [-> | [-> | [-> | [[e ->] | [-> | ->]]]]]];
      try reflexivity.
    + destruct BEFORE_SHA as [x | ]; [ | reflexivity].
      cbn [String.eqb]. now rewrite orb_true_r.
    + rewrite String.eqb_refl, !orb_true_r. reflexivity.
    + destruct BEFORE_SHA as [x | ]; [ | reflexivity].
      now destruct (String.eqb x "" || String.eqb SHA "" || String.eqb x SHA).
    + destruct BEFORE_SHA as [x | ]; [ | reflexivity].
      now destruct (String.eqb x "" || String.eqb SHA "" || String.eqb x SHA).
    + destruct BEFORE_SHA as [x | ]; [ | reflexivity].
      now destruct (String.eqb x "" || String.eqb SHA "" || String.eqb x SHA).
  - intros Hb HSHA Hdiff.
    rewrite build_comment_body_lines by (trivial; discriminate).
    rewrite comment_lines_shape. cbn [List.app List.map List.firstn].
    eexists. rewrite !join_lines_cons. cbn [append]. reflexivity.
Qed.

Lemma push_comment_degrades_to_base_line_witness :
  CommentOnPush.build_comment_body "main" "c0ffee12" (Some "0ddba11f")
    (Raised (URLError "timed out"))
  = CommentOnPush.base_line "main" "c0ffee12"
  /\ exists rest,
       CommentOnPush.build_comment_body "main" "c0ffee12" (Some "0ddba11f")
         (Ok (Some [mkCommit (Some "c0ffee12") (Val "Add cache")]))
       = CommentOnPush.base_line "main" "c0ffee12" ++ nl ++ nl
         ++ "Recent commits:" ++ nl ++ rest.
Proof.
  destruct (push_comment_degrades_to_base_line "main" "c0ffee12"
              (Some "0ddba11f") (Raised (URLError "timed out")) "0ddba11f"
              (mkCommit (Some "c0ffee12") (Val "Add cache")) [])
    as [Hdegrade Hlist].
  split.
  - apply Hdegrade. right; right; right; right; left.
    now exists (URLError "timed out").
  - apply Hlist; discriminate.
Defined.

(** ** The layout of the summary *)

Lemma filter_none :
  forall (A : Type) (test : A -> bool) (l : list A),
    Forall (fun x => test x = false) l -> List.filter test l = [].
Proof.
  intros A test l Hl. induction Hl as [ | x l Hx Hl IH]; simpl.
  - reflexivity.
  - now rewrite Hx.
Qed.

Lemma section_headings :
  forall heading entries,
    is_heading heading = true ->
    Forall (fun e => is_heading e = false) entries ->
    List.filter is_heading (section_lines heading entries)
    = match entries with [] => [] | _ => [heading] end.
Proof.
  intros heading entries Hh He. unfold section_lines.
  destruct entries as [ | e es]; [reflexivity | ].
  change ("" :: heading :: e :: es) with (["" ; heading] ++ e :: es)%list.
  rewrite List.filter_app, (filter_none _ _ (e :: es) He).
  cbn [List.filter List.app]. change (is_heading "") with false. cbv iota.
  now rewrite Hh.
Qed.

Lemma section_length :
  forall heading entries,
    List.length (section_lines heading entries)
    = match entries with [] => 0%nat | _ => (2 + List.length entries)%nat end.
Proof.
  intros heading [ | e es]; reflexivity.
Qed.

Lemma recent_commits_are_entries :
  forall commits,
    Forall (fun e => is_heading e = false) (PostPrSummary.recent_commits commits).
Proof.
  intro commits. unfold PostPrSummary.recent_commits.
  apply List.Forall_map. apply List.Forall_forall. intros c _. reflexivity.
Qed.

Lemma top_files_are_entries :
  forall files,
    Forall (fun e => is_heading e = false) (PostPrSummary.top_files files).
Proof.
  intro files. unfold PostPrSummary.top_files.
  apply List.Forall_map. apply List.Forall_forall.
  intros [[[[chg st] name] add] dele] _. reflexivity.
Qed.

(** The lines of the summary: six lines of header, the sections, and two
    lines of footer. *)
Lemma summary_lines_shape :
  forall set_iter pr commits files,
  exists header linked_line,
    List.length header = 6%nat
    /\ Forall (fun l => is_heading l = false) header
    /\ is_heading linked_line = false
    /\ PostPrSummary.summary_lines set_iter pr commits files
       = List.app header
           (List.app
              (section_lines "#### Recent commits"
                 (PostPrSummary.recent_commits commits))
              (List.app
                 (section_lines "#### Most-changed files"
                    (PostPrSummary.top_files files))
                 (List.app
                    (match PostPrSummary.linked
                             (or_str (get (body pr) "") "") with
                     | [] => []
                     | _ => [""; "#### Linked issues"; linked_line]
                     end)
                    [""; "_I’ll update this comment when new commits are pushed._"]))).
Proof.
  intros set_iter pr commits files. unfold PostPrSummary.summary_lines.
  match goal with
  | |- context [match PostPrSummary.recent_commits commits with
                | [] => ?h
                | _ :: _ => _
                end] => exists h
  end.
  exists ("- " ++ String.concat " "
            (PostPrSummary.sorted_linked set_iter
               (or_str (get (body pr) "") ""))).
  split; [reflexivity | ].
  split; [repeat constructor | ].
  split; [reflexivity | ].
  unfold section_lines.
  destruct (PostPrSummary.recent_commits commits);
    destruct (PostPrSummary.top_files files);
    destruct (PostPrSummary.linked (or_str (get (body pr) "") ""));
    cbn [List.app]; rewrite <- ?List.app_assoc; cbn [List.app];
    rewrite ?List.app_nil_r; reflexivity.
Qed.

Lemma recent_commits_none :
  forall commits,
    PostPrSummary.recent_commits commits = [] <-> commits = [].
Proof.
  intro commits. split.
  - intro H. apply (f_equal (@List.length string)) in H.
    rewrite recent_commits_length in H.
    destruct commits; [reflexivity | simpl in H; lia].
  - now intros ->.
Qed.

Lemma top_files_none :
  forall files, PostPrSummary.top_files files = [] <-> files = [].
Proof.
  intro files. split.
  - intro H. apply (f_equal (@List.length string)) in H.
    unfold PostPrSummary.top_files, PostPrSummary.file_summaries in H.
    rewrite List.length_map, List.length_firstn in H.
    rewrite (Permutation_length (sort_desc_perm _ _)), List.length_map in H.
    destruct files; [reflexivity | simpl in H; lia].
  - now intros ->.
Qed.

(** X12. A section of the summary is left out when it has nothing to
    show: the headings found in the summary are "Recent commits" when
    commits were fetched, "Most-changed files" when files were, and
    "Linked issues" when the body links an issue, in this order, and no
    other line of the summary starts like a heading. *)
Theorem summary_sections_present :
  forall (set_iter : list string -> list string) (pr : pull)
         (commits : list commit) (files : list file),
    List.filter is_heading
      (PostPrSummary.summary_lines set_iter pr commits files)
    = List.app
        (match commits with [] => [] | _ => ["#### Recent commits"] end)
        (List.app
           (match files with [] => [] | _ => ["#### Most-changed files"] end)
           (match PostPrSummary.linked (or_str (get (body pr) "") "") with
            | [] => []
            | _ => ["#### Linked issues"]
            end)).
Proof.
  intros set_iter pr commits files.
  destruct (summary_lines_shape set_iter pr commits files)
    as (header & linked_line & _ & Hheader & Hlinked & ->).
  rewrite !List.filter_app.
  rewrite (filter_none _ _ header Hheader).
  rewrite !section_headings
    by (try reflexivity;
        try apply recent_commits_are_entries; apply top_files_are_entries).
  cbn [List.app].
  replace (match PostPrSummary.recent_commits commits with
           | [] => []
           | _ :: _ => ["#### Recent commits"]
           end)
    with (match commits with [] => [] | _ :: _ => ["#### Recent commits"] end).
  2:{ destruct commits as [ | c cs]; [reflexivity | ].
      destruct (PostPrSummary.recent_commits (c :: cs)) eqn:E; [ | reflexivity].
      apply recent_commits_none in E. discriminate. }
  replace (match PostPrSummary.top_files files with
           | [] => []
           | _ :: _ => ["#### Most-changed files"]
           end)
    with (match files with [] => [] | _ :: _ => ["#### Most-changed files"] end).
  2:{ destruct files as [ | f fs]; [reflexivity | ].
      destruct (PostPrSummary.top_files (f :: fs)) eqn:E; [ | reflexivity].
      apply top_files_none in E. discriminate. }
  f_equal. f_equal.
  destruct (PostPrSummary.linked (or_str (get (body pr) "") ""));
    cbn [List.filter List.app].
  - reflexivity.
  - change (is_heading "") with false.
    change (is_heading "#### Linked issues") with true.
    change (is_heading "_I’ll update this comment when new commits are pushed._")
      with false.
    now rewrite Hlinked.
Qed.

(** X13. The summary stays short whatever the size of the pull request:
    it has at least 8 and at most 35 lines in the list that is joined, 8
    when no commit and no file were fetched and no issue is linked. *)
Theorem summary_line_count_bounded :
  forall (set_iter : list string -> list string) (pr : pull)
         (commits : list commit) (files : list file),
    (8 <= List.length (PostPrSummary.summary_lines set_iter pr commits files)
     <= 35)%nat
    /\ List.length (PostPrSummary.summary_lines set_iter pr [] [])
       = (match PostPrSummary.linked (or_str (get (body pr) "") "") with
          | [] => 8
          | _ => 11
          end)%nat.
Proof.
  intros set_iter pr commits files. split.
  - destruct (summary_lines_shape set_iter pr commits files)
      as (header & linked_line & Hlen & _ & _ & ->).
    rewrite !List.length_app, !section_length, Hlen.
    pose proof (recent_commits_length commits) as Hrc.
    assert (Htf : (List.length (PostPrSummary.top_files files) <= 10)%nat).
    { unfold PostPrSummary.top_files.
      rewrite List.length_map, List.length_firstn. lia. }
    destruct (PostPrSummary.recent_commits commits);
      destruct (PostPrSummary.top_files files);
      destruct (PostPrSummary.linked (or_str (get (body pr) "") ""));
      cbn [List.length] in *; lia.
  - destruct (summary_lines_shape set_iter pr [] [])
      as (header & linked_line & Hlen & _ & _ & ->).
    rewrite !List.length_app, Hlen. cbn [section_lines
      PostPrSummary.recent_commits PostPrSummary.top_files List.length].
    destruct (PostPrSummary.linked (or_str (get (body pr) "") ""));
      reflexivity.
Qed.

(** X14. The reconciler recognises what the formatter writes: a comment
    whose body is a formatted summary, of any pull request, is a marker
    comment, so that a later run finds it. *)
Theorem formatted_summary_is_recognised :
  forall (set_iter : list string -> list string) (pr : pull)
         (commits : list commit) (files : list file) (cid : Z),
    PostPrSummary.is_summary_comment
      (mkComment cid
         (Val (PostPrSummary.format_summary set_iter pr commits files)))
    = true.
Proof.
  intros set_iter pr commits files cid.
  apply marker_of_text. apply format_summary_has_marker.
Qed.

(** ** The files left out of the summary *)

Lemma sorted_split :
  forall (A : Type) (R : A -> A -> Prop) (l1 l2 : list A),
    StronglySorted R (l1 ++ l2)%list ->
    forall x y, In x l1 -> In y l2 -> R x y.
Proof.
  intros A R l1 l2. induction l1 as [ | a l1 IH]; intros Hs x y Hx Hy.
  - contradiction.
  - cbn [List.app] in Hs. inversion Hs as [ | ? ? Hs' Ha]; subst.
    destruct Hx as [-> | Hx].
    + rewrite Forall_forall in Ha. apply Ha.
      apply List.in_or_app. now right.
    + now apply IH.
Qed.

(** X15. No file left out of the most-changed-files section has more
    changes than a file shown in it: the summaries ranked after the tenth
    have at most the additions plus deletions of any of the first ten. *)
Theorem omitted_files_change_no_more :
  forall (files : list file) (shown omitted : PostPrSummary.file_summary),
    In shown (List.firstn 10 (PostPrSummary.file_summaries files)) ->
    In omitted (List.skipn 10 (PostPrSummary.file_summaries files)) ->
    PostPrSummary.changes_of omitted <= PostPrSummary.changes_of shown.
Proof.
  intros files shown omitted Hshown Homitted.
  pose proof (sort_desc_descending PostPrSummary.changes_of
                (List.map PostPrSummary.summarize files)) as Hsorted.
  fold (PostPrSummary.file_summaries files) in Hsorted.
  unfold descending in Hsorted.
  rewrite <- (List.firstn_skipn 10 (PostPrSummary.file_summaries files))
    in Hsorted.
  exact (sorted_split _ _ _ _ Hsorted shown omitted Hshown Homitted).
Qed.

Lemma omitted_files_change_no_more_witness :
  PostPrSummary.changes_of
    (PostPrSummary.summarize (mkFile (Val "k") (Val "added") (Val 1) Null))
  <= PostPrSummary.changes_of
       (PostPrSummary.summarize (mkFile (Val "a") (Val "added") (Val 9) (Val 9))).
Proof.
  apply (omitted_files_change_no_more
           (mkFile (Val "k") (Val "added") (Val 1) Null
            :: List.repeat (mkFile (Val "a") (Val "added") (Val 9) (Val 9)) 10)).
  - vm_compute. tauto.
  - vm_compute. tauto.
Defined.

(** ** Comment reconciliation, continued *)

(** X16. On a pull request without a marker comment the first run of the
    upsert creates one comment with the text, and a second run with the
    same text updates that comment instead of creating another: the
    store then holds exactly one marker comment. *)
Theorem first_upsert_creates_second_updates :
  forall (st : Forge.store) (text : string) (fuel : nat),
    (requests (S (List.length st)) <= fuel)%nat ->
    contains PostPrSummary.MARKER text = true ->
    marker_comments st = [] ->
    exists st',
      PostPrSummary.upsert text fuel st = Ok (PostPrSummary.Created, st')
      /\ st' = (st ++ [mkComment (Forge.fresh_id st) (Val text)])%list
      /\ PostPrSummary.upsert text fuel st'
         = Ok (PostPrSummary.Updated (Forge.fresh_id st), st')
      /\ marker_comments st' = [mkComment (Forge.fresh_id st) (Val text)].
Proof.
  intros st text fuel Hfuel Htext Hnone.
  destruct (upsert_creates_then_updates st text fuel Hfuel Htext Hnone)
    as (Hfirst & Hsecond & Hmarkers).
  eexists. repeat split; eassumption.
Qed.

Lemma first_upsert_creates_second_updates_witness :
  exists st',
    PostPrSummary.upsert "<!-- pr-summary-bot --> summary" 1
      [mkComment 41 (Val "Looks good"); mkComment 43 Null]
    = Ok (PostPrSummary.Created, st')
    /\ st' = [mkComment 41 (Val "Looks good"); mkComment 43 Null;
              mkComment 44 (Val "<!-- pr-summary-bot --> summary")]
    /\ PostPrSummary.upsert "<!-- pr-summary-bot --> summary" 1 st'
       = Ok (PostPrSummary.Updated 44, st')
    /\ marker_comments st'
       = [mkComment 44 (Val "<!-- pr-summary-bot --> summary")].
Proof.
  apply (first_upsert_creates_second_updates
           [mkComment 41 (Val "Looks good"); mkComment 43 Null]
           "<!-- pr-summary-bot --> summary" 1).
  - vm_compute. lia.
  - reflexivity.
  - reflexivity.
Defined.

Lemma latest_marker_is_found :
  forall (before after : Forge.store) (c : comment),
    PostPrSummary.is_summary_comment c = true ->
    marker_comments after = [] ->
    List.find PostPrSummary.is_summary_comment
      (List.rev (before ++ c :: after)%list) = Some c.
Proof.
  intros before after c Hc Hafter.
  rewrite List.rev_app_distr. cbn [List.rev].
  rewrite <- List.app_assoc. cbn [List.app].
  apply find_first_match; [exact Hc | ].
  intros y Hy. apply (no_marker_anywhere after); trivial.
  now apply List.in_rev.
Qed.

(** X17. When several marker comments stand on the pull request, the
    upsert replaces the body of the most recent one and leaves every
    other comment, the older marker comments included, as it was and
    where it was. *)
Theorem upsert_touches_only_the_latest_marker :
  forall (before after : Forge.store) (c : comment) (text : string)
         (fuel : nat),
    well_formed (before ++ c :: after)%list ->
    (requests (List.length (before ++ c :: after)%list) <= fuel)%nat ->
    PostPrSummary.is_summary_comment c = true ->
    marker_comments after = [] ->
    PostPrSummary.upsert text fuel (before ++ c :: after)%list
    = Ok (PostPrSummary.Updated (id c),
          (before ++ mkComment (id c) (Val text) :: after)%list).
Proof.
  intros before after c text fuel [Hnd Hpos] Hfuel Hc Hafter.
  unfold PostPrSummary.upsert.
  rewrite (find_existing_on_store _ fuel Hfuel).
  rewrite (latest_marker_is_found before after c Hc Hafter).
  cbn [bind option_map].
  assert (Hin : In c (before ++ c :: after)%list)
    by (apply List.in_or_app; right; now left).
  replace (id c =? 0) with false.
  2:{ symmetry. apply Z.eqb_neq. rewrite Forall_forall in Hpos.
      specialize (Hpos c Hin). lia. }
  unfold PostPrSummary.update_comment.
  rewrite (patch_present _ c text Hin). cbn [bind]. do 2 f_equal.
  rewrite List.map_app. cbn [List.map].
  rewrite (patched_elsewhere (id c) text before)
    by (intros x Hx; apply (ids_apart before after c x Hnd);
        apply List.in_or_app; now left).
  rewrite (patched_elsewhere (id c) text after)
    by (intros x Hx; apply (ids_apart before after c x Hnd);
        apply List.in_or_app; now right).
  unfold patched, Forge.has_id. now rewrite Z.eqb_refl.
Qed.

Lemma upsert_touches_only_the_latest_marker_witness :
  PostPrSummary.upsert "<!-- pr-summary-bot --> new" 1
    [mkComment 41 (Val "<!-- pr-summary-bot --> oldest");
     mkComment 42 (Val "<!-- pr-summary-bot --> old");
     mkComment 43 (Val "thanks")]
  = Ok (PostPrSummary.Updated 42,
        [mkComment 41 (Val "<!-- pr-summary-bot --> oldest");
         mkComment 42 (Val "<!-- pr-summary-bot --> new");
         mkComment 43 (Val "thanks")]).
Proof.
  apply (upsert_touches_only_the_latest_marker
           [mkComment 41 (Val "<!-- pr-summary-bot --> oldest")]
           [mkComment 43 (Val "thanks")]
           (mkComment 42 (Val "<!-- pr-summary-bot --> old"))
           "<!-- pr-summary-bot --> new" 1).
  - split.
    + cbn [List.map List.app id].
      repeat constructor; simpl; intuition discriminate.
    + repeat constructor; simpl; lia.
  - vm_compute. lia.
  - reflexivity.
  - reflexivity.
Defined.

(** X18. [find_existing_summary_comment] returns the id of a comment
    whose body contains the marker (the body is some text, the marker,
    some text), never of another comment: of the last such comment of the
    pull request.  It returns [None] exactly when no comment of the pull
    request contains the marker; a comment without a body (the key
    missing or null) is never taken for a marker comment. *)
Theorem find_existing_summary_comment_spec :
  forall (st : Forge.store) (fuel : nat) (cid : Z),
    (requests (List.length st) <= fuel)%nat ->
    (PostPrSummary.find_existing_summary_comment (Forge.list_comments st) fuel
     = Ok (Some cid) ->
     exists (before after : Forge.store) (c : comment),
       st = (before ++ c :: after)%list
       /\ id c = cid
       /\ (exists b pre post,
             comment_body c = Val b
             /\ b = pre ++ "<!-- pr-summary-bot -->" ++ post)
       /\ (forall x, In x after -> ~ carries_marker x)
       /\ In c (marker_comments st))
    /\ (PostPrSummary.find_existing_summary_comment
          (Forge.list_comments st) fuel = Ok None
        <-> forall c, In c st -> ~ carries_marker c)
    /\ (PostPrSummary.find_existing_summary_comment
          (Forge.list_comments st) fuel = Ok None
        <-> marker_comments st = [])
    /\ (forall c, In c (marker_comments st) <-> In c st /\ carries_marker c)
    /\ PostPrSummary.is_summary_comment (mkComment cid Missing) = false
    /\ PostPrSummary.is_summary_comment (mkComment cid Null) = false
    /\ ~ carries_marker (mkComment cid Missing)
    /\ ~ carries_marker (mkComment cid Null).
Proof.
  intros st fuel cid Hfuel.
  rewrite (find_existing_on_store st fuel Hfuel).
  assert (Hnone :
            Ok (option_map id
                  (List.find PostPrSummary.is_summary_comment (List.rev st)))
            = Ok None
            <-> marker_comments st = []).
  { split.
    - intro Hres.
      destruct (marker_comments st) as [ | x l] eqn:Hm; [reflexivity | ].
      destruct (latest_marker_found st) as (c & Hfind & _).
      { rewrite Hm. discriminate. }
      rewrite Hfind in Hres. discriminate.
    - intro Hnone.
      rewrite find_no_match; [reflexivity | ].
      intros y Hy. apply (no_marker_anywhere st); trivial.
      now apply List.in_rev. }
  split; [ | split; [ | split; [exact Hnone | split ] ] ].
  - intro Hres.
    destruct (List.find PostPrSummary.is_summary_comment (List.rev st))
      as [c | ] eqn:Hfind; [ | discriminate].
    injection Hres as <-.
    destruct (find_latest_marker st c Hfind)
      as (before & after & Hst & Hc & Hafter).
    exists before, after, c. repeat split; trivial.
    apply marker_comments_spec. split; [ | exact Hc].
    rewrite Hst. apply List.in_or_app. right. now left.
  - rewrite Hnone. split.
    + intros Hempty c Hc Hmark.
      assert (Hin : In c (marker_comments st))
        by (apply marker_comments_spec; now split).
      rewrite Hempty in Hin. contradiction.
    + intro Hno. destruct (marker_comments st) as [ | x l] eqn:Hm;
        [reflexivity | ].
      assert (Hx : In x (marker_comments st)) by (rewrite Hm; now left).
      apply marker_comments_spec in Hx. destruct Hx as [Hx Hmark].
      now destruct (Hno x Hx).
  - apply marker_comments_spec.
  - repeat split; try reflexivity;
      intros (b & pre & post & H & _); discriminate H.
Qed.

Lemma find_existing_summary_comment_spec_witness :
  exists (before after : Forge.store) (c : comment),
    [mkComment 40 (Val "<!-- pr-summary-bot --> older");
     mkComment 41 (Val "> <!-- pr-summary-bot --> old");
     mkComment 42 (Val "<!-- pr-summary");
     mkComment 43 Null]
    = (before ++ c :: after)%list
    /\ id c = 41
    /\ (exists b pre post,
          comment_body c = Val b
          /\ b = pre ++ "<!-- pr-summary-bot -->" ++ post)
    /\ (forall x, In x after -> ~ carries_marker x)
    /\ In c (marker_comments
               [mkComment 40 (Val "<!-- pr-summary-bot --> older");
                mkComment 41 (Val "> <!-- pr-summary-bot --> old");
                mkComment 42 (Val "<!-- pr-summary");
                mkComment 43 Null]).
Proof.
  destruct (find_existing_summary_comment_spec
              [mkComment 40 (Val "<!-- pr-summary-bot --> older");
               mkComment 41 (Val "> <!-- pr-summary-bot --> old");
               mkComment 42 (Val "<!-- pr-summary");
               mkComment 43 Null] 1 41) as (Hsound & _).
  - vm_compute. lia.
  - apply Hsound. vm_compute. reflexivity.
Defined.

Lemma fresh_id_unused :
  forall st : Forge.store, ~ In (Forge.fresh_id st) (List.map id st).
Proof.
  intros st Hin. apply List.in_map_iff in Hin.
  destruct Hin as (x & Hid & Hx).
  destruct (fresh_id_above st) as [_ Hfresh].
  specialize (Hfresh x Hx). lia.
Qed.

Lemma post_keeps_well_formed :
  forall (st : Forge.store) (text : string),
    well_formed st ->
    well_formed (st ++ [mkComment (Forge.fresh_id st) (Val text)])%list.
Proof.
  intros st text [Hnd Hpos]. split.
  - rewrite List.map_app. cbn [List.map id].
    apply (Permutation_NoDup (Permutation_cons_append _ _)).
    constructor; [apply fresh_id_unused | exact Hnd].
  - apply Forall_app. split; [exact Hpos | ].
    constructor; [ | constructor]. simpl.
    now destruct (fresh_id_above st).
Qed.

(** X19. An upsert that succeeds on a well-formed store leaves a
    well-formed store: it deletes no comment and changes no id, it adds
    at most one comment, at the end, and every comment that is not a
    marker comment is still there with the body it had. *)
Theorem upsert_keeps_the_store :
  forall (st st' : Forge.store) (text : string) (fuel : nat)
         (a : PostPrSummary.action),
    well_formed st ->
    (requests (List.length st) <= fuel)%nat ->
    PostPrSummary.upsert text fuel st = Ok (a, st') ->
    well_formed st'
    /\ (exists added,
          List.map id st' = (List.map id st ++ added)%list
          /\ (List.length added <= 1)%nat)
    /\ (forall x, In x st ->
                  PostPrSummary.is_summary_comment x = false -> In x st').
Proof.
  intros st st' text fuel a Hwf Hfuel Hrun.
  unfold PostPrSummary.upsert in Hrun.
  rewrite (find_existing_on_store st fuel Hfuel) in Hrun.
  cbn [bind] in Hrun.
  assert (Hcreate :
            (st0 <- PostPrSummary.create_comment text st ;;
             Ok (PostPrSummary.Created, st0)) = Ok (a, st') ->
            well_formed st'
            /\ (exists added,
                  List.map id st' = (List.map id st ++ added)%list
                  /\ (List.length added <= 1)%nat)
            /\ (forall x, In x st ->
                          PostPrSummary.is_summary_comment x = false ->
                          In x st')).
  { unfold PostPrSummary.create_comment, Forge.post. cbn [bind].
    intro H. injection H as <- <-.
    split; [now apply post_keeps_well_formed | ].
    split.
    - exists [Forge.fresh_id st]. rewrite List.map_app.
      split; [reflexivity | cbn; lia].
    - intros x Hx _. apply List.in_or_app. now left. }
  destruct (List.find PostPrSummary.is_summary_comment (List.rev st))
    as [c | ] eqn:Hfind; cbn [option_map] in Hrun; [ | now apply Hcreate].
  apply List.find_some in Hfind. destruct Hfind as [Hin Hc].
  apply List.in_rev in Hin.
  destruct (id c =? 0); [now apply Hcreate | ].
  unfold PostPrSummary.update_comment in Hrun.
  rewrite (patch_present st c text Hin) in Hrun. cbn [bind] in Hrun.
  injection Hrun as <- <-.
  destruct Hwf as [Hnd Hpos].
  assert (Hids : List.map id (List.map (patched (id c) text) st)
                 = List.map id st).
  { rewrite List.map_map. apply List.map_ext. apply patched_id. }
  split; [split | split].
  - now rewrite Hids.
  - apply List.Forall_map. eapply Forall_impl; [ | exact Hpos].
    intros x Hx. now rewrite patched_id.
  - exists []. rewrite Hids, List.app_nil_r. split; [reflexivity | cbn; lia].
  - intros x Hx Hnot.
    assert (Hsame : patched (id c) text x = x).
    { unfold patched. destruct (Forge.has_id (id c) x) eqn:E; [ | reflexivity].
      unfold Forge.has_id in E. apply Z.eqb_eq in E.
      rewrite (same_id_same_comment st x c Hnd Hx Hin E) in Hnot.
      congruence. }
    rewrite <- Hsame. now apply List.in_map.
Qed.

Lemma upsert_keeps_the_store_witness :
  well_formed
    [mkComment 41 (Val "Looks good");
     mkComment 42 (Val "<!-- pr-summary-bot --> new")].
Proof.
  destruct (upsert_keeps_the_store
              [mkComment 41 (Val "Looks good");
               mkComment 42 (Val "<!-- pr-summary-bot --> old")]
              [mkComment 41 (Val "Looks good");
               mkComment 42 (Val "<!-- pr-summary-bot --> new")]
              "<!-- pr-summary-bot --> new" 1 (PostPrSummary.Updated 42))
    as (Hwf & _).
  - split.
    + cbn [List.map id]. repeat constructor; simpl; intuition discriminate.
    + repeat constructor; simpl; lia.
  - vm_compute. lia.
  - reflexivity.
  - exact Hwf.
Defined.

(** X20. [main] tests the id found with [if existing_id:], which is false
    for the id 0: when the most recent marker comment has the id 0, the
    upsert does not update it but creates another comment, and the store
    holds one more marker comment than before. *)
Theorem marker_comment_with_id_zero_is_duplicated :
  forall (before after : Forge.store) (c : comment) (text : string)
         (fuel : nat),
    (requests (List.length (before ++ c :: after)%list) <= fuel)%nat ->
    PostPrSummary.is_summary_comment c = true ->
    id c = 0 ->
    marker_comments after = [] ->
    contains PostPrSummary.MARKER text = true ->
    exists st',
      PostPrSummary.upsert text fuel (before ++ c :: after)%list
      = Ok (PostPrSummary.Created, st')
      /\ st' = ((before ++ c :: after)
                ++ [mkComment (Forge.fresh_id (before ++ c :: after)) (Val text)])%list
      /\ List.length (marker_comments st')
         = S (List.length (marker_comments (before ++ c :: after)%list)).
Proof.
  intros before after c text fuel Hfuel Hc Hid Hafter Htext.
  eexists. split; [ | split; [reflexivity | ] ].
  - unfold PostPrSummary.upsert.
    rewrite (find_existing_on_store _ fuel Hfuel).
    rewrite (latest_marker_is_found before after c Hc Hafter).
    cbn [bind option_map]. rewrite Hid. reflexivity.
  - unfold marker_comments. rewrite (List.filter_app _ (before ++ c :: after)).
    cbn [List.filter]. rewrite (marker_of_text _ _ Htext).
    rewrite List.length_app. cbn [List.length]. lia.
Qed.

Lemma marker_comment_with_id_zero_is_duplicated_witness :
  exists st',
    PostPrSummary.upsert "<!-- pr-summary-bot --> new" 1
      [mkComment 0 (Val "<!-- pr-summary-bot --> old")]
    = Ok (PostPrSummary.Created, st')
    /\ List.length (marker_comments st') = 2%nat.
Proof.
  destruct (marker_comment_with_id_zero_is_duplicated
              [] [] (mkComment 0 (Val "<!-- pr-summary-bot --> old"))
              "<!-- pr-summary-bot --> new" 1) as (st' & Hrun & _ & Hcount).
  - vm_compute. lia.
  - reflexivity.
  - reflexivity.
  - reflexivity.
  - reflexivity.
  - exists st'. split; [exact Hrun | exact Hcount].
Defined.

(** ** Start-up of scripts/comment_on_push.py *)

Lemma split_once_spec :
  forall sep s,
    (forall c, In c (list_ascii_of_string (fst (split_once sep s))) -> c <> sep)
    /\ match snd (split_once sep s) with
       | Some rest => s = fst (split_once sep s) ++ String sep rest
       | None => s = fst (split_once sep s)
       end.
Proof.
  intros sep s. induction s as [ | c s [IHhead IHrest]]; cbn [split_once].
  - split; [intros c [] | reflexivity].
  - destruct (Ascii.eqb_spec c sep) as [-> | Hc].
    + split; [intros x [] | reflexivity].
    + destruct (split_once sep s) as [head tail]. cbn [fst snd] in *.
      split.
      * intros x [<- | Hx]; [exact Hc | now apply IHhead].
      * destruct tail; cbn [append]; now rewrite <- IHrest.
Qed.

Lemma contains_char_split :
  forall sep s,
    contains (String sep "") s = true ->
    exists rest, snd (split_once sep s) = Some rest.
Proof.
  intros sep s. induction s as [ | c s IH]; cbn [contains split_once].
  - cbn. discriminate.
  - cbn [String.prefix].
    destruct (Ascii.eqb_spec c sep) as [-> | Hc].
    + intros _. now exists s.
    + destruct (ascii_dec sep c) as [<- | _]; [congruence | ].
      intro H. destruct (IH H) as [rest Hrest].
      destruct (split_once sep s) as [head tail]. cbn [snd] in *.
      now exists rest.
Qed.




Lemma drop_leading_spec :
  forall ch cs,
    exists k,
      cs = (List.repeat ch k ++ drop_leading ch cs)%list
      /\ List.hd_error (drop_leading ch cs) <> Some ch.
Proof.
  intros ch cs. induction cs as [ | c cs (k & Hk & Hhd)]; cbn [drop_leading].
  - exists 0%nat. split; [reflexivity | discriminate].
  - destruct (Ascii.eqb_spec c ch) as [-> | Hc].
    + exists (S k). split; [cbn; now rewrite <- Hk | exact Hhd].
    + exists 0%nat. split; [reflexivity | ].
      cbn. congruence.
Qed.

(** [rstrip] takes a run of [ch] off the end and leaves no [ch] there. *)
Lemma rstrip_spec :
  forall ch s,
    (exists k,
       s = rstrip ch s ++ string_of_list_ascii (List.repeat ch k))
    /\ forall t, rstrip ch s <> t ++ String ch "".
Proof.
  intros ch s. unfold rstrip.
  destruct (drop_leading_spec ch (List.rev (list_ascii_of_string s)))
    as (k & Hk & Hhd).
  set (kept := drop_leading ch (List.rev (list_ascii_of_string s))) in *.
  split.
  - exists k.
    rewrite <- (string_of_list_ascii_of_string s) at 1.
    rewrite <- (List.rev_involutive (list_ascii_of_string s)), Hk.
    rewrite List.rev_app_distr, List.rev_repeat.
    generalize (List.rev kept) (List.repeat ch k). clear.
    induction l as [ | c l IH]; intro l'; cbn; [reflexivity | ].
    now rewrite IH.
  - intros t Ht.
    apply (f_equal list_ascii_of_string) in Ht.
    rewrite list_ascii_of_string_of_list_ascii in Ht.
    apply (f_equal (@List.rev ascii)) in Ht.
    rewrite List.rev_involutive in Ht.
    assert (Happ : forall a b,
               list_ascii_of_string (a ++ b)
               = (list_ascii_of_string a ++ list_ascii_of_string b)%list).
    { clear. induction a as [ | c a IH]; intro b; cbn; [reflexivity | ].
      now rewrite IH. }
    rewrite Happ, List.rev_app_distr in Ht. cbn in Ht.
    rewrite Ht in Hhd. now apply Hhd.
Qed.

(** X21. scripts/comment_on_push.py leaves at start-up with status 1
    exactly when the token is unset or empty or the repository is unset
    or holds no "/".  Otherwise the repository is split at its first "/":
    owner and name joined by "/" give the repository back, the owner
    holds no "/", and the API base has no "/" left at its end. *)
Theorem startup_checks :
  forall (env : CommentOnPush.environ) (cfg : CommentOnPush.config),
    (CommentOnPush.startup env = None
     <-> CommentOnPush.GITHUB_TOKEN env = None
         \/ CommentOnPush.GITHUB_TOKEN env = Some ""
         \/ contains "/"
              (CommentOnPush.getenv (CommentOnPush.GITHUB_REPOSITORY env) "")
            = false)
    /\ (CommentOnPush.startup env = Some cfg ->
        CommentOnPush.GITHUB_TOKEN env = Some (CommentOnPush.TOKEN cfg)
        /\ CommentOnPush.TOKEN cfg <> ""
        /\ CommentOnPush.GITHUB_REPOSITORY env
           = Some (CommentOnPush.OWNER cfg ++ "/" ++ CommentOnPush.REPO cfg)
        /\ (forall c, In c (list_ascii_of_string (CommentOnPush.OWNER cfg)) ->
                      c <> "/"%char)
        /\ (forall t, CommentOnPush.API_BASE cfg <> t ++ "/")
        /\ CommentOnPush.PR_NUMBER_ENV cfg = CommentOnPush.GITHUB_PR_NUMBER env
        /\ CommentOnPush.BEFORE_SHA cfg = CommentOnPush.GITHUB_EVENT_BEFORE env).
Proof.
  intros env cfg. unfold CommentOnPush.startup.
  set (REPO_FULL :=
         CommentOnPush.getenv (CommentOnPush.GITHUB_REPOSITORY env) "").
  destruct (CommentOnPush.GITHUB_TOKEN env) as [token | ].
  2:{ split; [split; [now left | reflexivity] | discriminate]. }
  destruct (String.eqb_spec token "") as [-> | Htoken].
  { split; [split; [now (right; left) | reflexivity] | discriminate]. }
  destruct (contains "/" REPO_FULL) eqn:Hslash.
  - assert (Hfull : String.eqb REPO_FULL "" = false).
    { destruct (String.eqb_spec REPO_FULL "") as [E | _]; [ | reflexivity].
      rewrite E in Hslash. discriminate. }
    rewrite Hfull. cbn [negb orb].
    destruct (contains_char_split "/"%char REPO_FULL Hslash) as [rest Hrest].
    destruct (split_once_spec "/"%char REPO_FULL) as [Hhead Hjoin].
    rewrite Hrest in Hjoin.
    destruct (split_once "/"%char REPO_FULL) as [head tail].
    cbn [fst snd] in *. subst tail.
    split.
    + split; [discriminate | ].
      intros [H | [H | H]]; try discriminate. injection H as ->. congruence.
    + intro Hcfg. injection Hcfg as <-. cbn.
      repeat match goal with |- _ /\ _ => split end; trivial.
      * unfold REPO_FULL, CommentOnPush.getenv in Hjoin, Hfull.
        destruct (CommentOnPush.GITHUB_REPOSITORY env) as [r | ];
          [now rewrite Hjoin | discriminate].
      * apply rstrip_spec.
  - rewrite orb_true_r.
    split; [split; [now (right; right) | reflexivity] | discriminate].
Qed.

Lemma startup_checks_witness :
  CommentOnPush.GITHUB_REPOSITORY
    (CommentOnPush.mkEnviron (Some "https://ghe.example/api/v3/")
       (Some "t0ken") (Some "octo/cat/s") (Some "c0ffee")
       (Some "refs/heads/main") None None)
  = Some ("octo" ++ "/" ++ "cat/s").
Proof.
  destruct (startup_checks
              (CommentOnPush.mkEnviron (Some "https://ghe.example/api/v3/")
                 (Some "t0ken") (Some "octo/cat/s") (Some "c0ffee")
                 (Some "refs/heads/main") None None)
              (CommentOnPush.mkConfig "https://ghe.example/api/v3" "t0ken"
                 "octo" "cat/s" "c0ffee" "main" None None))
    as [_ Hcfg].
  destruct Hcfg as (_ & _ & Hrepo & _); [reflexivity | exact Hrepo].
Defined.



(** X23. A push for which no pull request is found is no error: once
    the start-up checks pass and no usable hint is given, the script
    leaves with status 0 when the forge lists no open pull request on the
    commit or the branch, whatever the compare request and the "before"
    commit are; it leaves with status 1 when the first listing request
    fails. *)
Theorem exit_status_of_a_run_without_pull_request :
  forall (env : CommentOnPush.environ) (cfg : CommentOnPush.config)
         (prs : list open_pr)
         (pulls_gh : nat -> result (option (list open_pr))) (fuel : nat)
         (compare_gh : result (option (list commit)))
         (post_gh : result (option unit)) (e : exn),
    CommentOnPush.startup env = Some cfg ->
    usable_hint (CommentOnPush.PR_NUMBER_ENV cfg) = None ->
    ((requests (List.length prs) <= fuel)%nat ->
     (forall p, In p prs ->
                ~ matches (CommentOnPush.SHA cfg) (CommentOnPush.BRANCH cfg) p) ->
     CommentOnPush.exit_status env (Paginator.serve prs) fuel compare_gh post_gh
     = Some 0)
    /\ (pulls_gh 1%nat = Raised e ->
        CommentOnPush.exit_status env pulls_gh (S fuel) compare_gh post_gh
        = Some 1).
Proof.
  intros env cfg prs pulls_gh fuel compare_gh post_gh e Hstart Hhint.
  unfold CommentOnPush.exit_status, CommentOnPush.main,
    CommentOnPush.find_open_pr_for_branch_or_sha.
  rewrite Hstart. unfold usable_hint in Hhint. rewrite Hhint.
  split.
  - intros Hfuel Hnone.
    rewrite (pages_serve prs fuel Hfuel). cbn [fst bind]. unfold Py.next.
    rewrite !find_no_match; [reflexivity | | ];
      intros p Hp; apply equals_false; intro Heq;
      apply (Hnone p Hp); [now right | now left].
  - intro Hraise. cbn [Paginator.pages]. rewrite Hraise. reflexivity.
Qed.

Lemma exit_status_of_a_run_without_pull_request_witness :
  CommentOnPush.exit_status
    (CommentOnPush.mkEnviron None (Some "t0ken") (Some "octo/cat")
       (Some "c0ffee") (Some "refs/heads/main") (Some "n/a") (Some "0ddba11"))
    (Paginator.serve [mkOpenPr 7 (Some "f00d") (Some "feature")]) 1
    (Raised (URLError "down")) (Raised (URLError "down"))
  = Some 0.
Proof.
  destruct (exit_status_of_a_run_without_pull_request
              (CommentOnPush.mkEnviron None (Some "t0ken") (Some "octo/cat")
                 (Some "c0ffee") (Some "refs/heads/main") (Some "n/a")
                 (Some "0ddba11"))
              (CommentOnPush.mkConfig "https://api.github.com" "t0ken"
                 "octo" "cat" "c0ffee" "main" (Some "n/a") (Some "0ddba11"))
              [mkOpenPr 7 (Some "f00d") (Some "feature")]
              (Paginator.serve [mkOpenPr 7 (Some "f00d") (Some "feature")])
              1 (Raised (URLError "down")) (Raised (URLError "down"))
              ValueError) as [Hmiss _].
  - reflexivity.
  - reflexivity.
  - apply Hmiss.
    + vm_compute. lia.
    + intros p [<- | []] [H | H]; discriminate H.
Defined.
